(** * Bitcoin-Miner: a shallow embedding of [Main.py]

    The development follows the source file top-down: the hashing helpers
    ([SHA256], [to_string], [calculate_target]), the nonce search
    ([mine_nonce], [mine]), the ledger ([adjust_difficulty],
    [add_block_to_chain], [retarget_difficulty], [start_mining] and the
    script body), then the monitor and the files ([status],
    [save_block_data]).

    Conventions.
    - Python [int] is [Z]; Python [float] is an exact rational ([Qc]): the
      only float operations of the program are halving, a ten-term sum, a
      division by ten and comparisons. Rounding is not modelled.
    - Python [str] is [string], one character per code point below 256.
    - A Python [dict] is an association list in insertion order with unique
      keys; dict objects live in a store and are passed by reference, as the
      source mutates them.
    - An exception is a result [Raise e]; the state reached when it is raised
      is kept.
    - [hashlib.sha256] is implemented from FIPS 180-4 and checked against
      known digests; [float.__repr__] and [os.cpu_count()] are parameters.
    - The wall clock is an input: the functions that read it take the
      measured times as arguments. Logging and progress bars are left out.
    - The search and the ledger come first, without the monitoring record
      [mining_info] and the files of [save_block_data]: [mine],
      [start_mining], [main]. Then [mine_full], [start_mining_full] and
      [main_full] add the record and the files, and with them the one way
      they feed back: the hash rate divides by the elapsed time, which fails
      when the clock did not advance.
    - The pool runs its tasks on distinct objects; they are run here one
      after the other, and requests are served one at a time. *)

From Stdlib Require Import ZArith QArith Qabs Qcanon Qpower Ascii String List Lia Lqa
  Sorting.Sorted.
From stdpp Require Import base decidable well_founded option list list_numbers numbers sorting strings pretty gmap.

Local Open Scope Z_scope.

(** ** SHA-256 (hashlib.sha256, FIPS 180-4), on 32-bit words held in [Z] *)

Module Sha256.

Definition mask32 : Z := 0xffffffff.
Definition add32 (x y : Z) : Z := Z.land (x + y) mask32.
Definition rotr (n x : Z) : Z :=
  Z.lor (Z.shiftr x n) (Z.land (Z.shiftl x (32 - n)) mask32).
Definition not32 (x : Z) : Z := Z.lxor x mask32.

Definition Ch (x y z : Z) : Z := Z.lxor (Z.land x y) (Z.land (not32 x) z).
Definition Maj (x y z : Z) : Z :=
  Z.lxor (Z.lxor (Z.land x y) (Z.land x z)) (Z.land y z).
Definition bsig0 (x : Z) : Z := Z.lxor (Z.lxor (rotr 2 x) (rotr 13 x)) (rotr 22 x).
Definition bsig1 (x : Z) : Z := Z.lxor (Z.lxor (rotr 6 x) (rotr 11 x)) (rotr 25 x).
Definition ssig0 (x : Z) : Z := Z.lxor (Z.lxor (rotr 7 x) (rotr 18 x)) (Z.shiftr x 3).
Definition ssig1 (x : Z) : Z := Z.lxor (Z.lxor (rotr 17 x) (rotr 19 x)) (Z.shiftr x 10).

(** The first [n] primes, by trial division. *)
Definition is_prime (p : Z) : bool :=
  forallb (fun d => negb (p mod d =? 0)) (seqZ 2 (p - 2)).

Definition primes (n : nat) : list Z := take n (filter (fun p => is_prime p = true) (seqZ 2 400)).

(** The integer part of the [k]-th root of [x], one bit at a time. *)
Definition iroot (k : positive) (bits : nat) (x : Z) : Z :=
  fold_left (fun r b => if Z.pow_pos (r + 2 ^ b) k <=? x then r + 2 ^ b else r)
            (rev (seqZ 0 (Z.of_nat bits))) 0.

(** The first 32 bits of the fractional part of the [k]-th root of [p]. *)
Definition root_fraction (k : positive) (p : Z) : Z :=
  Z.land (iroot k 40 (p * 2 ^ (32 * Z.pos k))) mask32.

(** The round constants come from the cube roots of the first 64 primes,
    the initial state from the square roots of the first 8. *)
Definition K : list Z := Eval vm_compute in map (root_fraction 3) (primes 64).

Definition H0 : list Z := Eval vm_compute in map (root_fraction 2) (primes 8).

(** Padding: the byte 0x80, zero bytes up to 56 modulo 64, then the bit
    length as a 64-bit big-endian integer. *)
Fixpoint be_bytes (n : nat) (x : Z) : list Z :=
  match n with
  | O => []
  | S n' => be_bytes n' (Z.shiftr x 8) ++ [Z.land x 0xff]
  end.

Definition pad (msg : list Z) : list Z :=
  let len := Z.of_nat (length msg) in
  let zeros := Z.to_nat ((55 - len) mod 64) in
  msg ++ [0x80] ++ replicate zeros 0 ++ be_bytes 8 (8 * len).

Fixpoint be_words (fuel : nat) (bs : list Z) : list Z :=
  match fuel, bs with
  | S f, b0 :: b1 :: b2 :: b3 :: rest =>
      (b0 * 0x1000000 + b1 * 0x10000 + b2 * 0x100 + b3) :: be_words f rest
  | _, _ => []
  end.

(** The message schedule is built newest-first: [ws] holds W(t-1), W(t-2), ... *)
Fixpoint schedule (n : nat) (ws : list Z) : list Z :=
  match n with
  | O => ws
  | S n' =>
      let w := add32 (add32 (ssig1 (nth 1 ws 0)) (nth 6 ws 0))
                     (add32 (ssig0 (nth 14 ws 0)) (nth 15 ws 0)) in
      schedule n' (w :: ws)
  end.

Record regs := Regs { ra : Z; rb : Z; rc : Z; rd : Z; re : Z; rf : Z; rg : Z; rh : Z }.

Definition round (s : regs) (kw : Z * Z) : regs :=
  let '(k, w) := kw in
  let t1 := add32 (add32 (add32 (rh s) (bsig1 (re s)))
                         (add32 (Ch (re s) (rf s) (rg s)) k)) w in
  let t2 := add32 (bsig0 (ra s)) (Maj (ra s) (rb s) (rc s)) in
  Regs (add32 t1 t2) (ra s) (rb s) (rc s) (add32 (rd s) t1) (re s) (rf s) (rg s).

Definition compress (h : regs) (block : list Z) : regs :=
  let ws := rev (schedule 48 (rev block)) in
  let s := fold_left round (combine K ws) h in
  Regs (add32 (ra h) (ra s)) (add32 (rb h) (rb s)) (add32 (rc h) (rc s))
       (add32 (rd h) (rd s)) (add32 (re h) (re s)) (add32 (rf h) (rf s))
       (add32 (rg h) (rg s)) (add32 (rh h) (rh s)).

Fixpoint blocks (fuel : nat) (h : regs) (ws : list Z) : regs :=
  match fuel, ws with
  | S f, _ :: _ => blocks f (compress h (take 16 ws)) (drop 16 ws)
  | _, _ => h
  end.

Definition init : regs :=
  Regs (nth 0 H0 0) (nth 1 H0 0) (nth 2 H0 0) (nth 3 H0 0)
       (nth 4 H0 0) (nth 5 H0 0) (nth 6 H0 0) (nth 7 H0 0).

(** The digest as a 256-bit number (big-endian concatenation of the eight
    state words). *)
Definition digest (msg : list Z) : Z :=
  let bs := pad msg in
  let ws := be_words (length bs) bs in
  let s := blocks (length ws) init ws in
  fold_left (fun acc x => acc * 0x100000000 + x)
            [ra s; rb s; rc s; rd s; re s; rf s; rg s; rh s] 0.

End Sha256.

(** ** Hexadecimal strings *)

Definition hex_digit (d : Z) : ascii :=
  if d <? 10 then ascii_of_N (Z.to_N (48 + d)) else ascii_of_N (Z.to_N (87 + d)).

Fixpoint hex_fixed (n : nat) (x : Z) (acc : string) : string :=
  match n with
  | O => acc
  | S n' => hex_fixed n' (x / 16) (String (hex_digit (x mod 16)) acc)
  end.

Definition code (c : ascii) : Z := Z.of_N (N_of_ascii c).

(** Value of one digit for [int(s, 16)]; [None] for a character that is not
    a hexadecimal digit. *)
Definition hex_val (c : ascii) : option Z :=
  let n := code c in
  if (48 <=? n) && (n <=? 57) then Some (n - 48)
  else if (97 <=? n) && (n <=? 102) then Some (n - 87)
  else if (65 <=? n) && (n <=? 70) then Some (n - 55)
  else None.

Fixpoint int16_from (acc : Z) (s : string) : option Z :=
  match s with
  | EmptyString => Some acc
  | String c s' =>
      match hex_val c with
      | Some d => int16_from (16 * acc + d) s'
      | None => None
      end
  end.

(** [int(s, 16)] on a string of hexadecimal digits; [None] stands for
    Python's ValueError. The program only parses digests; the other forms
    Python accepts (a sign, a 0x prefix, underscores, surrounding blanks)
    are not modelled and read as [None]. *)
Definition int16 (s : string) : option Z :=
  match s with
  | EmptyString => None
  | _ => int16_from 0 s
  end.

Definition bytes_of_string (s : string) : list Z :=
  map code (list_ascii_of_string s).

(** [SHA256(text)]: [sha256(text.encode("ascii")).hexdigest()], 64 lower-case
    hexadecimal digits. *)
Definition SHA256 (text : string) : string :=
  hex_fixed 64 (Sha256.digest (bytes_of_string text)) EmptyString.

(** ** Python values and dictionaries *)

#[warnings="-register-all"]
Inductive value : Type :=
  | VNone
  | VBool (b : bool)
  | VInt (z : Z)
  | VFloat (q : Qc)
  | VStr (s : string)
  | VList (l : list value)
  | VDict (d : list (string * value)).

(** A dict: items in insertion order, keys unique. *)
Abbreviation dict := (list (string * value)).

Definition keys (d : dict) : list string := map fst d.

(** [d[k]]; [None] stands for KeyError. *)
Fixpoint dict_get (k : string) (d : dict) : option value :=
  match d with
  | [] => None
  | (k', v) :: d' => if String.eqb k k' then Some v else dict_get k d'
  end.

(** [d[k] = v]: an existing key keeps its position, a new key goes last. *)
Fixpoint dict_set (k : string) (v : value) (d : dict) : dict :=
  match d with
  | [] => [(k, v)]
  | (k', v') :: d' =>
      if String.eqb k k' then (k, v) :: d' else (k', v') :: dict_set k v d'
  end.

(** Truth value of an object as tested by [if x:]. *)
Definition truthy (v : value) : bool :=
  match v with
  | VNone => false
  | VBool b => b
  | VInt z => negb (z =? 0)
  | VFloat q => negb (Qeq_bool q 0)
  | VStr s => negb (String.eqb s "")
  | VList l => negb (Nat.eqb (length l) 0)
  | VDict d => negb (Nat.eqb (length d) 0)
  end.

(** Exceptions the modelled code can raise. *)
Inductive exn := KeyError | TypeError | ValueError | ZeroDivisionError | OverflowError.

Inductive res (A : Type) : Type :=
  | Ok (a : A)
  | Raise (e : exn).
Arguments Ok {A} a.
Arguments Raise {A} e.

Definition res_bind {A B} (m : res A) (k : A -> res B) : res B :=
  match m with
  | Ok a => k a
  | Raise e => Raise e
  end.

Definition of_option {A} (e : exn) (o : option A) : res A :=
  match o with
  | Some a => Ok a
  | None => Raise e
  end.

(** The numeric value of an int, bool or float operand; TypeError otherwise. *)
Definition to_number (v : value) : res Qc :=
  match v with
  | VInt z => Ok (Q2Qc (inject_Z z))
  | VBool b => Ok (Q2Qc (inject_Z (if b then 1 else 0)))
  | VFloat q => Ok q
  | _ => Raise TypeError
  end.

(** A string that [str.encode("ascii")] accepts: every code point is below
    128. The encoding is then the list of the code points. *)
Fixpoint ascii_only (s : string) : Prop :=
  match s with
  | EmptyString => True
  | String c s' => code c < 128 /\ ascii_only s'
  end.

(** ** json.dumps(data, sort_keys=True) *)

Definition dquote : ascii := "034"%char.
Definition backslash : ascii := "092"%char.

Definition quoted (s : string) : string :=
  String dquote (s +:+ String dquote EmptyString).

(** One character of [py_encode_basestring_ascii]: the short escapes, then
    [\uXXXX] for everything outside the printable ASCII range. *)
Definition escape_char (c : ascii) : string :=
  let n := code c in
  if n =? 34 then String backslash (String dquote EmptyString)
  else if n =? 92 then String backslash (String backslash EmptyString)
  else if n =? 10 then String backslash "n"
  else if n =? 13 then String backslash "r"
  else if n =? 9 then String backslash "t"
  else if n =? 12 then String backslash "f"
  else if n =? 8 then String backslash "b"
  else if (32 <=? n) && (n <=? 126) then String c EmptyString
  else String backslash (String "u" (hex_fixed 4 n EmptyString)).

Fixpoint escape (s : string) : string :=
  match s with
  | EmptyString => EmptyString
  | String c s' => escape_char c +:+ escape s'
  end.

Definition encode_basestring_ascii (s : string) : string := quoted (escape s).

(** Order on items used by [sorted(dct.items())]: keys are unique, so tuple
    comparison is decided by the keys, compared by code point. *)
Definition item_le (a b : string * string) : Prop := String.leb a.1 b.1 = true.

Global Instance item_le_dec : RelDecision item_le.
Proof. intros a b. unfold item_le. apply _. Defined.

Definition encode_item (kv : string * string) : string :=
  encode_basestring_ascii kv.1 +:+ ": " +:+ kv.2.

(** ** calculate_target *)

Definition Zc (z : Z) : Qc := Q2Qc (inject_Z z).

(** An int converts to a float when it rounds to a double: its magnitude is
    below [2 ** 1024 - 2 ** 970], half an ulp under [2 ** 1024]. From there
    on the conversion raises OverflowError. *)
Definition float_limit : Z := 2 ^ 1024 - 2 ^ 970.

(** [2 ** e] for an int [e]: an int for [e >= 0]; for [e < 0] both operands
    are converted to floats first, which raises OverflowError unless
    [pow2_defined e], and the result is the float [2.0 ** e], exact down to
    the smallest subnormal [2 ** -1074] and [0.0] below. [pow2 e] is the
    value of the expression where it has one. *)
Definition pow2_defined (e : Z) : Prop := - float_limit < e.

Definition pow2 (e : Z) : Qc :=
  if decide (0 <= e) then Zc (2 ^ e)
  else if decide (-1074 <= e) then Q2Qc (1 # Z.to_pos (2 ^ (- e)))
  else Zc 0.

(** [calculate_target difficulty] returns [2 ** (256 - difficulty)]; the call
    raises OverflowError unless [target_defined difficulty], that is from
    difficulty [2 ** 1024 - 2 ** 970 + 256] on. *)
Definition target_defined (difficulty : Z) : Prop := pow2_defined (256 - difficulty).

Global Instance target_defined_dec (difficulty : Z) : Decision (target_defined difficulty).
Proof. unfold target_defined, pow2_defined. apply _. Defined.

Definition calculate_target (difficulty : Z) : Qc := pow2 (256 - difficulty).

(** ** Floats *)

(** A Python float is an IEEE 754 double. A finite one is a rational. The
    operations of the program take finite operands and round the exact
    result to the nearest double, to the even mantissa on a tie, and to an
    infinity from [2 ** 1024 - 2 ** 970] on; none of them can give a NaN. *)
Inductive float64 : Type :=
  | Finite (q : Qc)
  | Infinity (negative : bool).

(** The integer nearest to [n / d] for [d > 0], the even one of two that are
    equally near. *)
Definition nearest_even (n d : Z) : Z :=
  let q := n `div` d in
  let r := n `mod` d in
  if decide (2 * r < d) then q
  else if decide (d < 2 * r) then q + 1
  else if Z.even q then q else q + 1.

Definition two_power (e : Z) : Q :=
  if decide (0 <= e) then inject_Z (2 ^ e) else 1 # Z.to_pos (2 ^ (- e)).

(** The exponent [k] of the leading bit of [n / d], for positive [n] and
    [d]: [2 ^ k <= n / d < 2 ^ (k + 1)]. *)
Definition leading_exponent (n d : Z) : Z :=
  let k := Z.log2 n - Z.log2 d in
  if decide (d * 2 ^ Z.max 0 k <= n * 2 ^ Z.max 0 (- k)) then k else k - 1.

(** A positive [n / d] rounded to [m * 2 ^ e]: 53 bits from the leading
    one, and no bit below [2 ^ -1074]. *)
Definition round_positive (n d : Z) : Z * Z :=
  let e := Z.max (leading_exponent n d - 52) (-1074) in
  (nearest_even (n * 2 ^ Z.max 0 (- e)) (d * 2 ^ Z.max 0 e), e).

Definition round_float (q : Qc) : float64 :=
  let n := Qnum q in
  if decide (n = 0) then Finite q
  else
    let '(m, e) := round_positive (Z.abs n) (Z.pos (Qden q)) in
    if decide (0 <= e /\ 2 ^ 1024 <= m * 2 ^ e) then Infinity (bool_decide (n < 0))
    else Finite (Q2Qc (inject_Z (Z.sgn n * m) * two_power e)).

(** [a + b], [a - b] and [a / b] (for [b] other than zero) on floats; the
    left operand of a sum or quotient can be an earlier result. *)
Definition float_add (a : float64) (b : Qc) : float64 :=
  match a with
  | Finite a => round_float (a + b)
  | Infinity negative => Infinity negative
  end.


Definition float_div (a : float64) (b : Qc) : float64 :=
  match a with
  | Finite a => round_float (a / b)
  | Infinity negative => Infinity (xorb negative (bool_decide (b < 0)%Qc))
  end.

(** An int operand of a float operation is converted first; too large an
    int raises OverflowError. *)
Definition float_of_int (z : Z) : res Qc :=
  match round_float (Zc z) with
  | Finite q => Ok q
  | Infinity _ => Raise OverflowError
  end.

(** [a / b] on ints, for [b] other than zero: the double nearest to the
    quotient, OverflowError when there is none. *)
Definition int_truediv (a b : Z) : res Qc :=
  match round_float (Zc a / Zc b) with
  | Finite q => Ok q
  | Infinity _ => Raise OverflowError
  end.

(** [a < b] and [a > b] for a float result [a] and a finite number [b]. *)
Definition float_lt (a : float64) (b : Qc) : Prop :=
  match a with
  | Finite a => (a < b)%Qc
  | Infinity negative => negative = true
  end.

Definition float_gt (a : float64) (b : Qc) : Prop :=
  match a with
  | Finite a => (b < a)%Qc
  | Infinity negative => negative = false
  end.

Global Instance float_lt_dec (a : float64) (b : Qc) : Decision (float_lt a b).
Proof. destruct a; simpl; apply _. Defined.

Global Instance float_gt_dec (a : float64) (b : Qc) : Decision (float_gt a b).
Proof. destruct a; simpl; apply _. Defined.

(** The values of the model have no infinite float. Where a result is stored
    in a value, an infinite one is held as the largest double of its sign. *)
Definition max_float : Qc := Zc (2 ^ 1024 - 2 ^ 971).

Definition stored_float (a : float64) : Qc :=
  match a with
  | Finite q => q
  | Infinity negative => if negative then (- max_float)%Qc else max_float
  end.

(** ** The for loop over range(start, stop) with an early return *)

Section ForRange.
Context {St X : Type}.

(** The loop body: the new state and, for a [return] inside the body, the
    returned value. *)
Variable body : Z -> St -> St * option X.

Definition range_next (stop : Z) (j i : Z) : Prop := j = i + 1 /\ i < stop.

Lemma range_next_wf (stop : Z) : well_founded (range_next stop).
Proof.
  apply (wf_projected (R1 := range_next stop) lt (fun i => Z.to_nat (stop - i))).
  - intros j i [-> Hlt]. lia.
  - apply lt_wf.
Qed.

Fixpoint for_range_go (stop i : Z) (a : Acc (range_next stop) i) (s : St)
    {struct a} : St * option X :=
  match decide (i < stop) with
  | left Hlt =>
      match body i s with
      | (s', Some x) => (s', Some x)
      | (s', None) => for_range_go stop (i + 1) (Acc_inv a (conj eq_refl Hlt)) s'
      end
  | right _ => (s, None)
  end.

Definition for_range (start stop : Z) (s : St) : St * option X :=
  for_range_go stop start (wf_guard 32 (range_next_wf stop) start) s.
End ForRange.

(** ** The object store *)

Abbreviation loc := nat.
Abbreviation store := (list dict).

Definition deref (h : store) (l : loc) : dict := default [] (h !! l).

(** [obj[k] = v] on the dict object at [l]. *)
Definition setitem (l : loc) (k : string) (v : value) (h : store) : store :=
  alter (dict_set k v) l h.

(** [obj.copy()]: a new dict object with the same items. *)
Definition copy (l : loc) (h : store) : store * loc :=
  (h ++ [deref h l], length h).

(** The argument tuple [(block_data, nonce_start, nonce_end, target, queue)]. *)
Abbreviation task := (loc * Z * Z * Qc * Z)%type.

Section Environment.

(** [float.__repr__], used by json for float values; its output is ASCII. *)
Variable float_repr : Qc -> string.
Hypothesis float_repr_ascii : forall q, ascii_only (float_repr q).

(** [os.cpu_count()]. *)
Variable cpu_count : Z.

(** Values are encoded before the items are sorted; the sort only looks at
    the keys, so this is the order-insensitive reading of the encoder. *)
Fixpoint dumps (v : value) : string :=
  match v with
  | VNone => "null"
  | VBool true => "true"
  | VBool false => "false"
  | VInt z => pretty z
  | VFloat q => float_repr q
  | VStr s => encode_basestring_ascii s
  | VList l => "[" +:+ String.concat ", " (map dumps l) +:+ "]"
  | VDict d =>
      let items := map (fun kv => let '(k, x) := kv in (k, dumps x)) d in
      "{" +:+ String.concat ", " (map encode_item (merge_sort item_le items)) +:+ "}"
  end.

Definition to_string (data : value) : string := dumps data.

(** ** mine_nonce *)

(** One iteration of the loop of [mine_nonce]. The ValueError branch of
    [int] is kept for fidelity; a digest never takes it ([int16_SHA256]). *)
Definition try_nonce (block_data : loc) (target : Qc) (nonce : Z) (h : store)
    : store * option (res loc) :=
  let h := setitem block_data "nonce" (VInt nonce) h in
  let text := to_string (VDict (deref h block_data)) in
  let new_hash := SHA256 text in
  match int16 new_hash with
  | None => (h, Some (Raise ValueError))
  | Some n =>
      if decide (Zc n < target)%Qc
      then (setitem block_data "hash" (VStr new_hash) h, Some (Ok block_data))
      else (h, None)
  end.

Definition mine_nonce (args : task) (h : store) : store * res (option loc) :=
  let '(block_data, nonce_start, nonce_end, target, queue) := args in
  match for_range (try_nonce block_data target) nonce_start nonce_end h with
  | (h', Some (Ok r)) => (h', Ok (Some r))
  | (h', Some (Raise e)) => (h', Raise e)
  | (h', None) => (h', Ok None)
  end.

(** ** mine *)

(** The list comprehension building [args]: one copy of the template per
    worker index. *)
Fixpoint make_args (block_data : loc) (nonce_step : Z) (target : Qc)
    (indices : list Z) (h : store) : store * list task :=
  match indices with
  | [] => (h, [])
  | i :: rest =>
      let '(h1, c) := copy block_data h in
      let '(h2, args) := make_args block_data nonce_step target rest h1 in
      (h2, (c, i * nonce_step, (i + 1) * nonce_step, target, i) :: args)
  end.

(** [pool.map(mine_nonce, args)]: every task runs to completion; the tasks
    work on distinct objects, so they are run here in index order. *)
Fixpoint pool_map (args : list task) (h : store) : store * res (list (option loc)) :=
  match args with
  | [] => (h, Ok [])
  | a :: rest =>
      let '(h1, r) := mine_nonce a h in
      let '(h2, rs) := pool_map rest h1 in
      (h2, res_bind r (fun x => res_bind rs (fun xs => Ok (x :: xs))))
  end.

Definition object_truthy (h : store) (o : option loc) : bool :=
  match o with
  | None => false
  | Some l => truthy (VDict (deref h l))
  end.

(** [for result in results: if result: return result], then [return None]. *)
Fixpoint first_result (h : store) (results : list (option loc)) : option loc :=
  match results with
  | [] => None
  | result :: rest =>
      if object_truthy h result then result else first_result h rest
  end.

Definition max_nonce : Z := 2 ^ 32.

(** [num_workers] is [None] or an int. [calculate_target] comes first and
    fails for a difficulty too large for a float; then the floor division
    fails for 0 workers, and [Pool] refuses fewer than 1. *)
Definition mine (block_data : loc) (target_difficulty : Z) (num_workers : option Z)
    (h : store) : store * res (option loc) :=
  let num_workers := default cpu_count num_workers in
  if decide (~ target_defined target_difficulty) then (h, Raise OverflowError) else
  let target := calculate_target target_difficulty in
  if decide (num_workers = 0) then (h, Raise ZeroDivisionError) else
  let nonce_step := max_nonce `div` num_workers in
  if decide (num_workers < 1) then (h, Raise ValueError) else
  let '(h1, args) := make_args block_data nonce_step target (seqZ 0 num_workers) h in
  let '(h2, results) := pool_map args h1 in
  match results with
  | Raise e => (h2, Raise e)
  | Ok results => (h2, Ok (first_result h2 results))
  end.

(** ** The process state: the store, the globals CHAIN and REWARD *)

(** A Python number held in a global: an int or a float. *)
Inductive number := Int (z : Z) | Float (q : Qc).

Definition number_val (n : number) : Qc :=
  match n with
  | Int z => Zc z
  | Float q => q
  end.

Definition value_of_number (n : number) : value :=
  match n with
  | Int z => VInt z
  | Float q => VFloat q
  end.

(** [n / 2] (true division): always a float. *)
Definition halve (n : number) : number := Float (number_val n / 2)%Qc.

Record world := World { heap : store; CHAIN : list loc; REWARD : number }.

Definition DIFFICULTIES : list (string * Z) := [("Easy", 2); ("Medium", 3); ("Hard", 4)].
Definition HALVING_INTERVAL : Z := 210000.
Definition TARGET_TIME : Z := 10 * 60.

Definition initial_world : world := World [] [] (Int 50).

(** Computations on the process state that may raise. The state at the point
    of an exception is kept: the globals are not rolled back. *)
Definition M (A : Type) : Type := world -> world * res A.

Definition ret {A} (a : A) : M A := fun w => (w, Ok a).
Definition raise {A} (e : exn) : M A := fun w => (w, Raise e).
Definition bind {A B} (m : M A) (k : A -> M B) : M B :=
  fun w => match m w with
           | (w', Ok a) => k a w'
           | (w', Raise e) => (w', Raise e)
           end.
Definition lift {A} (r : res A) : M A := fun w => (w, r).

Notation "x <- m ;; k" := (bind m (fun x => k))
  (at level 100, m at next level, right associativity).
Notation "m ;;; k" := (bind m (fun _ => k))
  (at level 100, right associativity).

(** [obj[k]] on the object at [l]. *)
Definition getitem (l : loc) (k : string) : M value :=
  fun w => (w, of_option KeyError (dict_get k (deref (heap w) l))).

Definition setitem_w (l : loc) (k : string) (v : value) : M unit :=
  fun w => (World (setitem l k v (heap w)) (CHAIN w) (REWARD w), Ok tt).

(** A dict display [{...}]: a new object. *)
Definition new_dict (d : dict) : M loc :=
  fun w => (World (heap w ++ [d]) (CHAIN w) (REWARD w), Ok (length (heap w))).

Definition mine_w (block_data : loc) (target_difficulty : Z) (num_workers : option Z)
    : M (option loc) :=
  fun w =>
    let '(h, r) := mine block_data target_difficulty num_workers (heap w) in
    (World h (CHAIN w) (REWARD w), r).

(** ** adjust_difficulty *)


(** ** add_block_to_chain *)

(** The append comes first; the log line then reads [block['block_number']]. *)
Definition add_block_to_chain (block : loc) : M unit :=
  (fun w => (World (heap w) (CHAIN w ++ [block]) (REWARD w), Ok tt)) ;;;
  _ <- getitem block "block_number" ;;
  ret tt.

(** ** retarget_difficulty *)

(** The running total of [sum]: an int until the first float comes. *)
Inductive subtotal := IntTotal (z : Z) | FloatTotal (f : float64).

(** [acc + item]: exact on ints, a float addition once one operand is a
    float (an int operand is converted), TypeError for anything else. *)
Definition add_item (acc : subtotal) (item : value) : res subtotal :=
  let add_int (z : Z) :=
    match acc with
    | IntTotal a => Ok (IntTotal (a + z))
    | FloatTotal f => res_bind (float_of_int z) (fun x => Ok (FloatTotal (float_add f x)))
    end in
  match item with
  | VInt z => add_int z
  | VBool b => add_int (if b then 1 else 0)
  | VFloat x =>
      match acc with
      | IntTotal a =>
          res_bind (float_of_int a) (fun a => Ok (FloatTotal (float_add (Finite a) x)))
      | FloatTotal f => Ok (FloatTotal (float_add f x))
      end
  | _ => Raise TypeError
  end.

(** [sum(block['mining_time'] for block in blocks)]: the items are read and
    added one after the other, from left to right, starting from [acc]
    (the int 0). *)
Fixpoint sum_mining_time (h : store) (blocks : list loc) (acc : subtotal) : res subtotal :=
  match blocks with
  | [] => Ok acc
  | block :: rest =>
      res_bind (of_option KeyError (dict_get "mining_time" (deref h block))) (fun item =>
      res_bind (add_item acc item) (fun acc =>
      sum_mining_time h rest acc))
  end.

(** [total / n] for the int [n]. *)
Definition divide_total (total : subtotal) (n : Z) : res float64 :=
  match total with
  | IntTotal z => res_bind (int_truediv z n) (fun q => Ok (Finite q))
  | FloatTotal f => Ok (float_div f (Zc n))
  end.

(** [l[-n:]]. *)
Definition last_n {A} (n : nat) (l : list A) : list A := drop (length l - n) l.

Definition retarget_difficulty : M Z :=
  fun w =>
    let len := Z.of_nat (length (CHAIN w)) in
    if decide (len > 1 /\ len `mod` 10 = 0) then
      match res_bind (sum_mining_time (heap w) (last_n 10 (CHAIN w)) (IntTotal 0))
                     (fun total => divide_total total 10) with
      | Raise e => (w, Raise e)
      | Ok avg_time =>
          if decide (float_lt avg_time (Zc TARGET_TIME)) then (w, Ok 1)
          else if decide (float_gt avg_time (Zc TARGET_TIME)) then (w, Ok (-1))
          else (w, Ok 0)
      end
    else (w, Ok 0).

(** ** start_mining (the /mine endpoint) *)

Definition zeros64 : string :=
  "0000000000000000000000000000000000000000000000000000000000000000".

(** [DIFFICULTIES[difficulty]]: KeyError for an unknown name, TypeError for
    an unhashable key. *)
Definition lookup_difficulty (difficulty : value) : res Z :=
  match difficulty with
  | VStr name => of_option KeyError (snd <$> find (fun kv => String.eqb name kv.1) DIFFICULTIES)
  | VList _ | VDict _ => Raise TypeError
  | _ => Raise KeyError
  end.

(** The [num_workers] argument as [mine] uses it: [None], or an int (a bool
    is an int). Anything else fails in [mine] before a worker exists: a
    float in the floor division when it is zero, in [Pool] with ValueError
    when it is below 1 and with TypeError otherwise; a string, list or dict
    with TypeError in the floor division. *)
Definition as_num_workers (v : value) : res (option Z) :=
  match v with
  | VNone => Ok None
  | VInt z => Ok (Some z)
  | VBool b => Ok (Some (if b then 1 else 0))
  | VFloat q =>
      if decide (q = Zc 0) then Raise ZeroDivisionError
      else if decide (q < Zc 1)%Qc then Raise ValueError
      else Raise TypeError
  | _ => Raise TypeError
  end.

(** [if mined_block:] for the result of [mine]. *)
Definition result_truthy (r : option loc) : M bool :=
  fun w => (w, Ok (object_truthy (heap w) r)).

(** The common tail of [start_mining] and of the script body: record the
    time and the reward on the mined block and append it. *)
Definition credit_and_append (mined_block : loc) (total_time : Qc) : M unit :=
  setitem_w mined_block "mining_time" (VFloat total_time) ;;;
  (fun w => setitem_w mined_block "reward" (value_of_number (REWARD w)) w) ;;;
  add_block_to_chain mined_block.

(** [if len(CHAIN) % HALVING_INTERVAL == 0: REWARD /= 2]. *)
Definition halving_check : M unit :=
  fun w =>
    if decide (Z.of_nat (length (CHAIN w)) `mod` HALVING_INTERVAL = 0)
    then (World (heap w) (CHAIN w) (halve (REWARD w)), Ok tt)
    else (w, Ok tt).

(** [data] is the JSON body of the request, [total_time] the wall-clock time
    measured around [mine]. The result is the mined block (response 200) or
    [None] (response 500). *)
Definition start_mining (data : dict) (total_time : Qc) : M (option loc) :=
  let difficulty := default (VStr "Medium") (dict_get "difficulty" data) in
  let num_workers := default VNone (dict_get "num_workers" data) in
  fun w0 =>
  (let block_number := Z.of_nat (length (CHAIN w0)) + 1 in
   previous_hash <- match last (CHAIN w0) with
                    | Some tail => getitem tail "hash"
                    | None => ret (VStr zeros64)
                    end ;;
   let transactions := default (VStr "Example transaction") (dict_get "transactions" data) in
   block_data <- new_dict [("block_number", VInt block_number);
                           ("transactions", transactions);
                           ("previous_hash", previous_hash)] ;;
   target_difficulty <- lift (lookup_difficulty difficulty) ;;
   workers <- lift (as_num_workers num_workers) ;;
   mined_block <- mine_w block_data target_difficulty workers ;;
   ok <- result_truthy mined_block ;;
   match mined_block with
   | Some block =>
       if ok then
         credit_and_append block total_time ;;;
         halving_check ;;;
         _ <- retarget_difficulty ;;
         ret (Some block)
       else ret None
   | None => ret None
   end) w0.

(** The script body before the server starts: [block_data] comes from the
    command line or the configuration file, [difficulty] is one of the
    names argparse accepts. *)
Definition main (block_data : dict) (difficulty : string) (num_workers : option Z)
    (total_time : Qc) : M unit :=
  block_data <- new_dict block_data ;;
  target_difficulty <- lift (lookup_difficulty (VStr difficulty)) ;;
  _ <- getitem block_data "block_number" ;;
  mined_block <- mine_w block_data target_difficulty num_workers ;;
  ok <- result_truthy mined_block ;;
  match mined_block with
  | Some block => if ok then credit_and_append block total_time else ret tt
  | None => ret tt
  end.

(** The states the process goes through: the script body runs once, then
    requests are served one at a time. *)
Inductive reachable : world -> Prop :=
  | reach_initial : reachable initial_world
  | reach_main bd difficulty nw t :
      reachable (main bd difficulty nw t initial_world).1
  | reach_request w data t :
      reachable w -> reachable (start_mining data t w).1.

(** * The monitoring record and the saved files *)

(** ** json.dump(data, file, indent=4) *)

Definition newline : ascii := "010"%char.

Fixpoint spaces (n : nat) : string :=
  match n with
  | O => EmptyString
  | S n' => String " " (spaces n')
  end.

(** The line break and the indentation that open a line at [level]. *)
Definition newline_indent (level : nat) : string :=
  String newline (spaces (4 * level)).

Definition encode_member (k : string) (x : string) : string :=
  encode_basestring_ascii k +:+ ": " +:+ x.

(** The text written with [indent=4] and without [sort_keys]: the items of a
    dict in insertion order, one per line; an empty container on one line. *)
Fixpoint dumps_indent (level : nat) (v : value) : string :=
  match v with
  | VNone => "null"
  | VBool true => "true"
  | VBool false => "false"
  | VInt z => pretty z
  | VFloat q => float_repr q
  | VStr s => encode_basestring_ascii s
  | VList l =>
      match l with
      | [] => "[]"
      | _ =>
          "[" +:+ newline_indent (S level) +:+
          String.concat ("," +:+ newline_indent (S level)) (map (dumps_indent (S level)) l) +:+
          newline_indent level +:+ "]"
      end
  | VDict d =>
      match d with
      | [] => "{}"
      | _ =>
          "{" +:+ newline_indent (S level) +:+
          String.concat ("," +:+ newline_indent (S level))
            (map (fun kv => let '(k, x) := kv in encode_member k (dumps_indent (S level) x)) d) +:+
          newline_indent level +:+ "}"
      end
  end.

(** ** The state with the monitoring record and the files *)

(** [mining_info] holds immutable values only, so it is kept as a dict value
    beside the store; [files] maps a path to the text last written to it. *)
Record system := System { core : world; mining_info : dict; files : gmap string string }.

Definition initial_mining_info : dict :=
  [("status", VStr "idle"); ("current_block", VNone); ("difficulty", VStr "Medium");
   ("hash_rate", VInt 0); ("mining_time", VInt 0)].

(** The state when the module has been loaded, over the files found on disk. *)
Definition initial_system (disk : gmap string string) : system :=
  System initial_world initial_mining_info disk.

Definition SM (A : Type) : Type := system -> system * res A.

Definition sret {A} (a : A) : SM A := fun s => (s, Ok a).
Definition sbind {A B} (m : SM A) (k : A -> SM B) : SM B :=
  fun s => match m s with
           | (s', Ok a) => k a s'
           | (s', Raise e) => (s', Raise e)
           end.

Declare Scope sys_scope.
Delimit Scope sys_scope with sys.
Notation "x <- m ;; k" := (sbind m (fun x => k))
  (at level 100, m at next level, right associativity) : sys_scope.
Notation "m ;;; k" := (sbind m (fun _ => k))
  (at level 100, right associativity) : sys_scope.

(** A computation on the store and the globals CHAIN and REWARD. *)
Definition on_core {A} (m : M A) : SM A :=
  fun s => let '(w, r) := m (core s) in (System w (mining_info s) (files s), r).

(** [mining_info[k] = v]. *)
Definition set_info (k : string) (v : value) : SM unit :=
  fun s => (System (core s) (dict_set k v (mining_info s)) (files s), Ok tt).

(** ** save_block_data *)

(** The file is opened for writing, which replaces what it held. That the
    path can be opened is taken for granted. *)
Definition save_block_data (block_data : loc) (save_file : string) : SM unit :=
  fun s =>
    let text := dumps_indent 0 (VDict (deref (heap (core s)) block_data)) in
    (System (core s) (mining_info s) (<[save_file := text]> (files s)), Ok tt).

(** ** status (the /status endpoint) *)

Definition status : SM dict := fun s => (s, Ok (mining_info s)).

(** ** mine, with the lines that report to mining_info *)

(** [elapsed_time] is the difference of the two clock readings around the
    pool, a float. The division [max_nonce / elapsed_time] fails when it is
    zero and gives a float otherwise. *)
Definition mine_full (block_data : loc) (target_difficulty : Z) (num_workers : option Z)
    (elapsed_time : Qc) : SM (option loc) :=
  fun s =>
  let num_workers := default cpu_count num_workers in
  if decide (~ target_defined target_difficulty) then (s, Raise OverflowError) else
  let target := calculate_target target_difficulty in
  if decide (num_workers = 0) then (s, Raise ZeroDivisionError) else
  let nonce_step := max_nonce `div` num_workers in
  if decide (num_workers < 1) then (s, Raise ValueError) else
  let '(h1, args) :=
    make_args block_data nonce_step target (seqZ 0 num_workers) (heap (core s)) in
  let '(h2, results) := pool_map args h1 in
  let s2 := System (World h2 (CHAIN (core s)) (REWARD (core s))) (mining_info s) (files s) in
  match results with
  | Raise e => (s2, Raise e)
  | Ok results =>
      if decide (elapsed_time = 0%Qc) then (s2, Raise ZeroDivisionError) else
      let hash_rate := float_div (Finite (Zc max_nonce)) elapsed_time in
      let s3 := (set_info "hash_rate" (VFloat (stored_float hash_rate)) s2).1 in
      match first_result h2 results with
      | Some result => ((set_info "mining_time" (VFloat elapsed_time) s3).1, Ok (Some result))
      | None => (s3, Ok None)
      end
  end.

(** ** start_mining, with mining_info and save_block_data *)

Local Open Scope sys_scope.

Definition block_file (block_number : Z) : string :=
  "block_" +:+ pretty block_number +:+ ".json".

Definition start_mining_full (data : dict) (elapsed_time total_time : Qc)
    : SM (option loc) :=
  let difficulty := default (VStr "Medium") (dict_get "difficulty" data) in
  let num_workers := default VNone (dict_get "num_workers" data) in
  fun s0 =>
  (let block_number := Z.of_nat (length (CHAIN (core s0))) + 1 in
   previous_hash <- on_core (match last (CHAIN (core s0)) with
                             | Some tail => getitem tail "hash"
                             | None => ret (VStr zeros64)
                             end) ;;
   let transactions := default (VStr "Example transaction") (dict_get "transactions" data) in
   block_data <- on_core (new_dict [("block_number", VInt block_number);
                                    ("transactions", transactions);
                                    ("previous_hash", previous_hash)]) ;;
   target_difficulty <- on_core (lift (lookup_difficulty difficulty)) ;;
   set_info "status" (VStr "mining") ;;;
   set_info "current_block" (VInt block_number) ;;;
   set_info "difficulty" difficulty ;;;
   workers <- on_core (lift (as_num_workers num_workers)) ;;
   mined_block <- mine_full block_data target_difficulty workers elapsed_time ;;
   ok <- on_core (result_truthy mined_block) ;;
   match mined_block with
   | Some block =>
       if ok then
         on_core (setitem_w block "mining_time" (VFloat total_time)) ;;;
         on_core (fun w => setitem_w block "reward" (value_of_number (REWARD w)) w) ;;;
         save_block_data block (block_file block_number) ;;;
         on_core (add_block_to_chain block) ;;;
         on_core halving_check ;;;
         _ <- on_core retarget_difficulty ;;
         set_info "status" (VStr "idle") ;;;
         sret (Some block)
       else set_info "status" (VStr "idle") ;;; sret None
   | None => set_info "status" (VStr "idle") ;;; sret None
   end) s0.

(** The script body before the server starts, with the file it saves. *)
Definition main_full (block_data : dict) (difficulty : string) (num_workers : option Z)
    (save_file : string) (elapsed_time total_time : Qc) : SM unit :=
  block_data <- on_core (new_dict block_data) ;;
  target_difficulty <- on_core (lift (lookup_difficulty (VStr difficulty))) ;;
  _ <- on_core (getitem block_data "block_number") ;;
  mined_block <- mine_full block_data target_difficulty num_workers elapsed_time ;;
  ok <- on_core (result_truthy mined_block) ;;
  match mined_block with
  | Some block =>
      if ok then
        on_core (setitem_w block "mining_time" (VFloat total_time)) ;;;
        on_core (fun w => setitem_w block "reward" (value_of_number (REWARD w)) w) ;;;
        save_block_data block save_file ;;;
        on_core (add_block_to_chain block)
      else sret tt
  | None => sret tt
  end.

Close Scope sys_scope.

(** The states of the whole process: the script body runs once, then
    requests to /mine are served one at a time; /status changes nothing. *)
Inductive reachable_full : system -> Prop :=
  | reach_full_initial disk : reachable_full (initial_system disk)
  | reach_full_main disk bd difficulty nw save_file e t :
      reachable_full (main_full bd difficulty nw save_file e t (initial_system disk)).1
  | reach_full_request s data e t :
      reachable_full s -> reachable_full (start_mining_full data e t s).1.


(** * Properties *)

(** ** Hexadecimal digests *)

Lemma hex_val_digit (d : Z) : 0 <= d < 16 -> hex_val (hex_digit d) = Some d.
Proof.
  intros Hd.
  assert (d = 0 \/ d = 1 \/ d = 2 \/ d = 3 \/ d = 4 \/ d = 5 \/ d = 6 \/ d = 7 \/
          d = 8 \/ d = 9 \/ d = 10 \/ d = 11 \/ d = 12 \/ d = 13 \/ d = 14 \/ d = 15)
    as Hcases by lia.
  repeat (destruct Hcases as [-> | Hcases]; [reflexivity |]).
  subst d. reflexivity.
Qed.

Lemma int16_from_hex_fixed (n : nat) (x acc : Z) (s : string) :
  int16_from acc (hex_fixed n x s)
  = int16_from (acc * 16 ^ Z.of_nat n + x mod 16 ^ Z.of_nat n) s.
Proof.
  revert x acc s. induction n as [|n IH]; intros x acc s.
  - simpl. rewrite Z.mod_1_r. f_equal. lia.
  - cbn [hex_fixed]. rewrite IH. cbn [int16_from].
    rewrite hex_val_digit by (apply Z.mod_pos_bound; lia).
    f_equal. rewrite Nat2Z.inj_succ, Z.pow_succ_r by lia.
    rewrite (Z.rem_mul_r x 16 (16 ^ Z.of_nat n)) by lia. lia.
Qed.

Lemma hex_fixed_cons (n : nat) (x : Z) (c : ascii) (s : string) :
  exists c' s', hex_fixed n x (String c s) = String c' s'.
Proof.
  revert x c s. induction n as [|n IH]; intros x c s; simpl; eauto.
Qed.

Lemma int16_hex_fixed (n : nat) (x : Z) :
  int16 (hex_fixed (S n) x EmptyString) = Some (x mod 16 ^ Z.of_nat (S n)).
Proof.
  pose proof (int16_from_hex_fixed (S n) x 0 EmptyString) as Hfrom.
  cbn [hex_fixed] in *.
  destruct (hex_fixed_cons n (x / 16) (hex_digit (x mod 16)) EmptyString)
    as (c' & s' & Heq).
  unfold int16. rewrite Heq, <- Heq, Hfrom. reflexivity.
Qed.

(** [int(new_hash, 16)] never fails on a digest: it is the digest as a
    256-bit number. *)
Definition digest_int (text : string) : Z :=
  Sha256.digest (bytes_of_string text) mod 2 ^ 256.

Lemma int16_SHA256 (text : string) : int16 (SHA256 text) = Some (digest_int text).
Proof. unfold SHA256, digest_int. rewrite int16_hex_fixed. reflexivity. Qed.

Lemma digest_int_range (text : string) : 0 <= digest_int text < 2 ^ 256.
Proof. unfold digest_int. apply Z.mod_pos_bound. lia. Qed.

(** ** The loop *)

Section ForRangeFacts.
Context {St X : Type} (body : Z -> St -> St * option X).

Lemma for_range_go_irrel (stop i : Z) (a1 a2 : Acc (range_next stop) i) (s : St) :
  for_range_go body stop i a1 s = for_range_go body stop i a2 s.
Proof.
  revert i a1 a2 s. fix IH 2. intros i [f1] [f2] s. simpl.
  destruct (decide (i < stop)); [|reflexivity].
  destruct (body i s) as [s' [x|]]; [reflexivity|]. apply IH.
Qed.

Lemma for_range_go_unfold (stop i : Z) (a : Acc (range_next stop) i) (s : St) :
  for_range_go body stop i a s =
    match decide (i < stop) with
    | left Hlt =>
        match body i s with
        | (s', Some x) => (s', Some x)
        | (s', None) => for_range_go body stop (i + 1) (Acc_inv a (conj eq_refl Hlt)) s'
        end
    | right _ => (s, None)
    end.
Proof. destruct a. reflexivity. Qed.

(** The loop unfolds as the source reads. *)
Lemma for_range_unfold (start stop : Z) (s : St) :
  for_range body start stop s =
    if decide (start < stop) then
      match body start s with
      | (s', Some x) => (s', Some x)
      | (s', None) => for_range body (start + 1) stop s'
      end
    else (s, None).
Proof.
  unfold for_range. rewrite for_range_go_unfold.
  destruct (decide (start < stop)); [|reflexivity].
  destruct (body start s) as [s' [x|]]; [reflexivity|].
  apply for_range_go_irrel.
Qed.

Lemma for_range_empty (start stop : Z) (s : St) :
  stop <= start -> for_range body start stop s = (s, None).
Proof. intros. rewrite for_range_unfold. destruct (decide _); [lia | done]. Qed.

(** Induction along the iterations of the loop. *)
Lemma for_range_ind (P : Z -> St -> St * option X -> Prop) (stop : Z) :
  (forall i s, stop <= i -> P i s (s, None)) ->
  (forall i s s' x, i < stop -> body i s = (s', Some x) -> P i s (s', Some x)) ->
  (forall i s s', i < stop -> body i s = (s', None) ->
     P (i + 1) s' (for_range body (i + 1) stop s') ->
     P i s (for_range body (i + 1) stop s')) ->
  forall start s, P start s (for_range body start stop s).
Proof.
  intros Hdone Hret Hstep start.
  remember (Z.to_nat (stop - start)) as n eqn:Hn.
  revert start Hn. induction n as [|n IH]; intros start Hn s.
  - rewrite for_range_empty by lia. apply Hdone. lia.
  - rewrite for_range_unfold. destruct (decide (start < stop)) as [Hlt|]; [|lia].
    destruct (body start s) as [s' [x|]] eqn:Hb.
    + by apply Hret.
    + apply Hstep; [done..|]. apply IH. lia.
Qed.
End ForRangeFacts.


(** ** Dictionaries *)

Lemma dict_set_set (k : string) (v v' : value) (d : dict) :
  dict_set k v (dict_set k v' d) = dict_set k v d.
Proof.
  induction d as [|[k' x] d IH]; simpl.
  - by rewrite String.eqb_refl.
  - destruct (String.eqb k k') eqn:E; simpl.
    + by rewrite String.eqb_refl.
    + by rewrite E, IH.
Qed.

Lemma dict_get_set_eq (k : string) (v : value) (d : dict) :
  dict_get k (dict_set k v d) = Some v.
Proof.
  induction d as [|[k' x] d IH]; simpl.
  - by rewrite String.eqb_refl.
  - destruct (String.eqb k k') eqn:E; simpl.
    + by rewrite String.eqb_refl.
    + by rewrite E.
Qed.

Lemma dict_get_set_ne (k k' : string) (v : value) (d : dict) :
  k <> k' -> dict_get k' (dict_set k v d) = dict_get k' d.
Proof.
  intros Hne. induction d as [|[k0 x] d IH]; simpl.
  - apply String.eqb_neq in Hne. by rewrite String.eqb_sym, Hne.
  - destruct (String.eqb k k0) eqn:E; simpl; [|by rewrite IH].
    apply String.eqb_eq in E. subst k0.
    assert (String.eqb k' k = false) as -> by (apply String.eqb_neq; congruence).
    done.
Qed.

Lemma dict_set_nonempty (k : string) (v : value) (d : dict) : dict_set k v d <> [].
Proof. destruct d as [|[k' x] d]; simpl; [done|]. by destruct (String.eqb k k'). Qed.

Lemma dict_get_is_Some_set (k k' : string) (v : value) (d : dict) :
  is_Some (dict_get k' d) -> is_Some (dict_get k' (dict_set k v d)).
Proof.
  destruct (decide (k = k')) as [->|Hne].
  - rewrite dict_get_set_eq. eauto.
  - by rewrite dict_get_set_ne.
Qed.

Lemma filter_other_keys_id (k : string) (d : dict) :
  k ∉ keys d -> filter (fun kv => kv.1 <> k) d = d.
Proof.
  induction d as [|[k0 y] d IH]; intros Hk; [done|].
  change (keys ((k0, y) :: d)) with (k0 :: keys d) in Hk.
  apply not_elem_of_cons in Hk as [Hne Hk].
  rewrite filter_cons_True by (simpl; congruence). f_equal. by apply IH.
Qed.

(** With unique keys, an assignment is: drop the old item, add the new one. *)
Lemma dict_set_Permutation (k : string) (v : value) (d : dict) :
  NoDup (keys d) ->
  dict_set k v d ≡ₚ (k, v) :: filter (fun kv => kv.1 <> k) d.
Proof.
  induction d as [|[k' x] d IH]; intros Hnd; [done|].
  change (keys ((k', x) :: d)) with (k' :: keys d) in Hnd.
  apply NoDup_cons in Hnd as [Hk' Hnd]. cbn [dict_set].
  destruct (String.eqb k k') eqn:E.
  - apply String.eqb_eq in E. subst k'.
    rewrite filter_cons_False by (simpl; tauto).
    by rewrite filter_other_keys_id.
  - apply String.eqb_neq in E.
    rewrite filter_cons_True by (simpl; congruence).
    rewrite IH by done. apply Permutation_swap.
Qed.

Lemma keys_filter (k : string) (d : dict) :
  keys (filter (fun kv => kv.1 <> k) d) = filter (fun k' => k' <> k) (keys d).
Proof.
  induction d as [|[k' x] d IH]; [done|].
  change (keys ((k', x) :: d)) with (k' :: keys d).
  destruct (decide (k' = k)) as [->|Hne].
  - rewrite (filter_cons_False _ (k, x)) by (simpl; tauto).
    rewrite (filter_cons_False _ k) by tauto. done.
  - rewrite (filter_cons_True _ (k', x)) by (simpl; congruence).
    rewrite (filter_cons_True _ k') by congruence.
    change (keys ((k', x) :: ?l)) with (k' :: keys l). by rewrite IH.
Qed.

Lemma keys_dict_set_Permutation (k : string) (v : value) (d : dict) :
  NoDup (keys d) -> keys (dict_set k v d) ≡ₚ k :: filter (fun k' => k' <> k) (keys d).
Proof.
  intros Hnd. unfold keys at 1. rewrite (dict_set_Permutation k v d Hnd).
  change (k :: keys (filter (fun kv => kv.1 <> k) d) ≡ₚ k :: filter (fun k' => k' <> k) (keys d)).
  by rewrite keys_filter.
Qed.

(** Assignments keep the keys unique. *)
Lemma dict_set_NoDup (k : string) (v : value) (d : dict) :
  NoDup (keys d) -> NoDup (keys (dict_set k v d)).
Proof.
  intros Hnd. rewrite (keys_dict_set_Permutation k v d Hnd).
  apply NoDup_cons. split.
  - rewrite list_elem_of_filter. tauto.
  - by apply NoDup_filter.
Qed.

Lemma dict_set_Permutation_proper (k : string) (v : value) (d1 d2 : dict) :
  NoDup (keys d1) -> d1 ≡ₚ d2 -> dict_set k v d1 ≡ₚ dict_set k v d2.
Proof.
  intros Hnd Hp.
  assert (NoDup (keys d2)) by (unfold keys in *; by rewrite <- Hp).
  rewrite !dict_set_Permutation by done. by rewrite Hp.
Qed.

Lemma NoDup_keys_item_eq {V} (l : list (string * V)) (a b : string * V) :
  NoDup (map fst l) -> a ∈ l -> b ∈ l -> a.1 = b.1 -> a = b.
Proof.
  induction l as [|x l IH]; intros Hnd Ha Hb Hk; [by apply elem_of_nil in Ha|].
  simpl in Hnd. apply NoDup_cons in Hnd as [Hx Hnd].
  apply elem_of_cons in Ha as [->|Ha], Hb as [->|Hb]; auto.
  - exfalso. apply Hx. rewrite Hk. apply list_elem_of_fmap. eauto.
  - exfalso. apply Hx. rewrite <- Hk. apply list_elem_of_fmap. eauto.
Qed.

(** ** The order on keys *)

Lemma string_leb_trans (a b c : string) :
  String.leb a b = true -> String.leb b c = true -> String.leb a c = true.
Proof.
  unfold String.leb. revert b c.
  induction a as [|x a IH]; intros [|y b] [|z c]; simpl; try done.
  unfold Ascii.compare.
  destruct (N.compare_spec (N_of_ascii x) (N_of_ascii y)),
           (N.compare_spec (N_of_ascii y) (N_of_ascii z)),
           (N.compare_spec (N_of_ascii x) (N_of_ascii z));
    try done; try lia.
  apply IH.
Qed.

Global Instance item_le_trans : Transitive item_le.
Proof. intros a b c. unfold item_le. apply string_leb_trans. Qed.

Global Instance item_le_total : Total item_le.
Proof. intros a b. unfold item_le. apply String.leb_total. Qed.

Lemma item_le_antisym (a b : string * string) :
  item_le a b -> item_le b a -> a.1 = b.1.
Proof. unfold item_le. apply String.leb_antisym. Qed.

(** Sorting by key gives one result for all insertion orders. *)
Lemma sorted_items_unique (l1 l2 : list (string * string)) :
  NoDup (map fst l1) -> l1 ≡ₚ l2 ->
  merge_sort item_le l1 = merge_sort item_le l2.
Proof.
  intros Hnd Hp.
  apply (StronglySorted_unique_strong item_le).
  - intros a b Ha Hb Hab Hba.
    rewrite merge_sort_Permutation in Ha, Hb. rewrite <- Hp in Hb.
    eapply NoDup_keys_item_eq; eauto using item_le_antisym.
  - apply StronglySorted_merge_sort; apply _.
  - apply StronglySorted_merge_sort; apply _.
  - by rewrite !merge_sort_Permutation.
Qed.

Definition encode_items (d : dict) : list (string * string) :=
  map (fun kv => let '(k, x) := kv in (k, dumps x)) d.

Lemma keys_encode_items (d : dict) : map fst (encode_items d) = keys d.
Proof. induction d as [|[k x] d IH]; simpl; [done|]. by rewrite IH. Qed.

Lemma to_string_Permutation (d1 d2 : dict) :
  NoDup (keys d1) -> d1 ≡ₚ d2 -> to_string (VDict d1) = to_string (VDict d2).
Proof.
  intros Hnd Hp. unfold to_string. cbn [dumps]. fold (encode_items d1) (encode_items d2).
  rewrite (sorted_items_unique (encode_items d1) (encode_items d2)); [done| |].
  - by rewrite keys_encode_items.
  - unfold encode_items. by rewrite Hp.
Qed.


(** ** The text handed to SHA256 is ASCII *)

Lemma ascii_only_app (s1 s2 : string) :
  ascii_only (s1 +:+ s2) <-> ascii_only s1 /\ ascii_only s2.
Proof. induction s1 as [|c s1 IH]; simpl; tauto. Qed.

Lemma ascii_only_concat (sep : string) (l : list string) :
  ascii_only sep -> Forall ascii_only l -> ascii_only (String.concat sep l).
Proof.
  intros Hsep Hl. induction Hl as [|x l Hx Hl IH]; [done|].
  destruct l as [|y l]; [done|].
  change (ascii_only (x +:+ sep +:+ String.concat sep (y :: l))).
  rewrite !ascii_only_app. tauto.
Qed.

Lemma hex_digit_ascii (d : Z) : 0 <= d < 16 -> code (hex_digit d) < 128.
Proof.
  intros Hd.
  assert (d = 0 \/ d = 1 \/ d = 2 \/ d = 3 \/ d = 4 \/ d = 5 \/ d = 6 \/ d = 7 \/
          d = 8 \/ d = 9 \/ d = 10 \/ d = 11 \/ d = 12 \/ d = 13 \/ d = 14 \/ d = 15)
    as Hcases by lia.
  repeat (destruct Hcases as [-> | Hcases]; [reflexivity |]).
  subst d. reflexivity.
Qed.

Lemma hex_fixed_ascii (n : nat) (x : Z) (acc : string) :
  ascii_only acc -> ascii_only (hex_fixed n x acc).
Proof.
  revert x acc. induction n as [|n IH]; intros x acc Hacc; [done|].
  cbn [hex_fixed]. apply IH. split; [|done].
  apply hex_digit_ascii. apply Z.mod_pos_bound. lia.
Qed.

Lemma SHA256_ascii (text : string) : ascii_only (SHA256 text).
Proof. unfold SHA256. by apply hex_fixed_ascii. Qed.

Lemma escape_char_ascii (c : ascii) : ascii_only (escape_char c).
Proof.
  unfold escape_char.
  repeat (destruct (code c =? _); [by vm_compute|]).
  destruct ((32 <=? code c) && (code c <=? 126)) eqn:E.
  - apply andb_prop in E as [_ E]. apply Z.leb_le in E. simpl. lia.
  - split; [by vm_compute|]. split; [by vm_compute|]. by apply hex_fixed_ascii.
Qed.

Lemma escape_ascii (s : string) : ascii_only (escape s).
Proof.
  induction s as [|c s IH]; [done|]. cbn [escape].
  apply ascii_only_app. split; [apply escape_char_ascii | done].
Qed.

Lemma encode_basestring_ascii_ascii (s : string) : ascii_only (encode_basestring_ascii s).
Proof.
  unfold encode_basestring_ascii, quoted. split; [by vm_compute|].
  apply ascii_only_app. split; [apply escape_ascii|]. by vm_compute.
Qed.

Lemma pretty_N_char_ascii (x : N) : code (pretty_N_char x) < 128.
Proof. unfold pretty_N_char. by repeat case_match. Qed.

Lemma pretty_N_go_ascii (x : N) (s : string) :
  ascii_only s -> ascii_only (pretty_N_go x s).
Proof.
  revert s. induction (N.lt_wf_0 x) as [x _ IH]; intros s Hs.
  destruct (decide (0 < x)%N) as [Hpos|Hzero].
  - rewrite pretty_N_go_step by done. apply IH.
    + by apply N.div_lt.
    + split; [apply pretty_N_char_ascii | done].
  - replace x with 0%N by lia. by rewrite pretty_N_go_0.
Qed.

Lemma pretty_N_ascii (x : N) : ascii_only (pretty x).
Proof.
  unfold pretty, pretty_N. destruct (decide (x = 0%N)); [by vm_compute|].
  by apply pretty_N_go_ascii.
Qed.

Lemma pretty_Z_ascii (z : Z) : ascii_only (pretty z).
Proof.
  unfold pretty, pretty_Z. destruct z as [|p|p].
  - by vm_compute.
  - apply pretty_N_ascii.
  - apply ascii_only_app. split; [by vm_compute | apply pretty_N_ascii].
Qed.

Lemma encode_item_ascii (kv : string * string) :
  ascii_only kv.2 -> ascii_only (encode_item kv).
Proof.
  intros Hv. unfold encode_item. rewrite !ascii_only_app.
  split; [|split; [by vm_compute | done]]. apply encode_basestring_ascii_ascii.
Qed.

Lemma dumps_ascii (v : value) : ascii_only (dumps v).
Proof.
  revert v. fix IH 1. intros [|[|]|z|q|s|l|d]; cbn [dumps].
  - by vm_compute.
  - by vm_compute.
  - by vm_compute.
  - apply pretty_Z_ascii.
  - apply float_repr_ascii.
  - apply encode_basestring_ascii_ascii.
  - rewrite !ascii_only_app. split; [by vm_compute|]. split; [|by vm_compute].
    apply ascii_only_concat; [by vm_compute|].
    induction l as [|x l IHl]; constructor; [apply IH | apply IHl].
  - rewrite !ascii_only_app. split; [by vm_compute|]. split; [|by vm_compute].
    apply ascii_only_concat; [by vm_compute|].
    apply Forall_fmap.
    assert (Forall (fun kv : string * string => ascii_only kv.2)
              (map (fun kv : string * value => let '(k, x) := kv in (k, dumps x)) d)) as Hd.
    { induction d as [|[k x] d IHd]; constructor; [apply IH | apply IHd]. }
    rewrite <- (merge_sort_Permutation item_le) in Hd.
    eapply Forall_impl; [exact Hd|]. intros kv. apply encode_item_ascii.
Qed.

(** [text.encode("ascii")] in [SHA256] cannot fail on the output of
    [to_string]. *)
Lemma to_string_ascii (data : value) : ascii_only (to_string data).
Proof. apply dumps_ascii. Qed.

(** ** The store *)

Lemma setitem_insert (l : loc) (k : string) (v : value) (h : store) (d : dict) :
  h !! l = Some d -> setitem l k v h = <[l := dict_set k v d]> h.
Proof.
  intros Hl. unfold setitem. apply list_eq. intros j.
  destruct (decide (l = j)) as [<-|Hne].
  - rewrite list_lookup_alter_eq, Hl, list_lookup_insert_eq; [done|].
    by eapply lookup_lt_Some.
  - by rewrite list_lookup_alter_ne, list_lookup_insert_ne.
Qed.

Lemma deref_insert (l : loc) (d d' : dict) (h : store) :
  h !! l = Some d -> deref (<[l := d']> h) l = d'.
Proof.
  intros Hl. unfold deref. rewrite list_lookup_insert_eq; [done|].
  by eapply lookup_lt_Some.
Qed.

Lemma deref_copy (l : loc) (h : store) : deref (h ++ [deref h l]) l = deref h l.
Proof.
  unfold deref. destruct (h !! l) as [d|] eqn:Hl; simpl.
  - by rewrite (lookup_app_l_Some _ _ _ _ Hl).
  - apply lookup_ge_None in Hl. rewrite lookup_app_r by done.
    by destruct (l - length h)%nat as [|[|?]].
Qed.

(** ** One worker *)

(** The template with the trial nonce, its digest, and the block a worker
    returns for that nonce. *)
Definition candidate (d : dict) (nonce : Z) : dict := dict_set "nonce" (VInt nonce) d.

Definition candidate_hash (d : dict) (nonce : Z) : string :=
  SHA256 (to_string (VDict (candidate d nonce))).

Definition hash_int (d : dict) (nonce : Z) : Z :=
  digest_int (to_string (VDict (candidate d nonce))).

Definition accepted (d : dict) (target : Qc) (nonce : Z) : Prop :=
  (Zc (hash_int d nonce) < target)%Qc.

Global Instance accepted_dec (d : dict) (target : Qc) (nonce : Z) :
  Decision (accepted d target nonce).
Proof. unfold accepted. apply _. Defined.

Definition sealed (d : dict) (nonce : Z) : dict :=
  dict_set "hash" (VStr (candidate_hash d nonce)) (candidate d nonce).

Definition none_accepted (d : dict) (target : Qc) (start stop : Z) : Prop :=
  forall m, start <= m < stop -> ~ accepted d target m.

Definition first_accepted (d : dict) (target : Qc) (start stop n : Z) : Prop :=
  start <= n < stop /\ accepted d target n /\ none_accepted d target start n.

Lemma candidate_candidate (d : dict) (m n : Z) :
  candidate (candidate d m) n = candidate d n.
Proof. apply dict_set_set. Qed.

Lemma int16_candidate_hash (d : dict) (n : Z) :
  int16 (candidate_hash d n) = Some (hash_int d n).
Proof. apply int16_SHA256. Qed.

Lemma try_nonce_spec (l : loc) (t : Qc) (n : Z) (h : store) (dcur d : dict) :
  h !! l = Some dcur ->
  candidate dcur n = candidate d n ->
  try_nonce l t n h =
    if decide (accepted d t n)
    then (<[l := sealed d n]> h, Some (Ok l))
    else (<[l := candidate d n]> h, None).
Proof.
  intros Hl Hc. unfold try_nonce.
  rewrite (setitem_insert _ _ _ _ _ Hl). fold (candidate dcur n). rewrite Hc.
  rewrite (deref_insert _ _ _ _ Hl). fold (candidate_hash d n).
  rewrite int16_candidate_hash.
  assert (<[l:=candidate d n]> h !! l = Some (candidate d n)) as Hl'.
  { apply list_lookup_insert_eq. by eapply lookup_lt_Some. }
  rewrite (setitem_insert _ _ _ _ _ Hl'), list_insert_insert_eq.

  destruct (decide (accepted d t n)) as [Hacc|Hrej].
  - rewrite decide_True by exact Hacc. done.
  - rewrite decide_False by exact Hrej. done.
Qed.

(** What a worker leaves behind: the first accepted nonce of its range sealed
    into its own object, or nothing accepted in the whole range. *)
Definition worker_outcome (d : dict) (t : Qc) (start stop : Z) (l : loc)
    (after : option dict) (r : option loc) : Prop :=
  match r with
  | Some l' => l' = l /\ exists n, first_accepted d t start stop n /\ after = Some (sealed d n)
  | None => none_accepted d t start stop /\ is_Some after
  end.

Lemma scan_spec (l : loc) (t : Qc) (d : dict) (stop start : Z) (h : store) :
  forall dcur, h !! l = Some dcur -> (forall n, candidate dcur n = candidate d n) ->
  match for_range (try_nonce l t) start stop h with
  | (h', Some (Ok r)) =>
      r = l /\ exists n, first_accepted d t start stop n /\ h' = <[l := sealed d n]> h
  | (h', Some (Raise _)) => False
  | (h', None) => none_accepted d t start stop /\ exists d', h' = <[l := d']> h
  end.
Proof.
  revert start h.
  apply (for_range_ind (try_nonce l t)
    (fun i h out => forall dcur, h !! l = Some dcur ->
       (forall n, candidate dcur n = candidate d n) ->
       match out with
       | (h', Some (Ok r)) =>
           r = l /\ exists n, first_accepted d t i stop n /\ h' = <[l := sealed d n]> h
       | (h', Some (Raise _)) => False
       | (h', None) => none_accepted d t i stop /\ exists d', h' = <[l := d']> h
       end)).
  - intros i h Hge dcur Hl _. split.
    + intros m Hm. lia.
    + exists dcur. by rewrite list_insert_id.
  - intros i h h' x Hlt Hbody dcur Hl Hbase.
    rewrite (try_nonce_spec l t i h dcur d Hl (Hbase i)) in Hbody.
    destruct (decide (accepted d t i)) as [Hacc|]; [|done].
    injection Hbody as <- <-. split; [done|].
    exists i. split; [|done]. split; [lia|]. split; [done|]. intros m Hm. lia.
  - intros i h h' Hlt Hbody IH dcur Hl Hbase.
    rewrite (try_nonce_spec l t i h dcur d Hl (Hbase i)) in Hbody.
    destruct (decide (accepted d t i)) as [|Hrej]; [done|].
    injection Hbody as <-.
    assert (<[l:=candidate d i]> h !! l = Some (candidate d i)) as Hl'.
    { apply list_lookup_insert_eq. by eapply lookup_lt_Some. }
    specialize (IH (candidate d i) Hl' (candidate_candidate d i)).
    destruct (for_range (try_nonce l t) (i + 1) stop (<[l:=candidate d i]> h))
      as [h'' [[r|e]|]]; [| done |].
    + destruct IH as (-> & n & (Hn & Hacc & Hfirst) & ->). split; [done|].
      exists n. rewrite list_insert_insert_eq. split; [|done].
      split; [lia|]. split; [done|]. intros m Hm.
      destruct (decide (m = i)) as [->|]; [done|]. apply Hfirst. lia.
    + destruct IH as (Hnone & d' & ->). split.
      * intros m Hm. destruct (decide (m = i)) as [->|]; [done|]. apply Hnone. lia.
      * exists d'. by rewrite list_insert_insert_eq.
Qed.

Lemma mine_nonce_spec (l : loc) (start stop : Z) (t : Qc) (q : Z) (h : store) (d : dict) :
  h !! l = Some d ->
  exists d' r,
    mine_nonce (l, start, stop, t, q) h = (<[l := d']> h, Ok r) /\
    worker_outcome d t start stop l (Some d') r.
Proof.
  intros Hl. unfold mine_nonce.
  pose proof (scan_spec l t d stop start h d Hl (fun _ => eq_refl)) as Hscan.
  destruct (for_range (try_nonce l t) start stop h) as [h' [[r|e]|]]; [| done |].
  - destruct Hscan as (-> & n & Hfirst & ->).
    exists (sealed d n), (Some l). split; [done|]. simpl. eauto.
  - destruct Hscan as (Hnone & d' & ->).
    exists d', None. split; [done|]. simpl. eauto.
Qed.


(** ** All workers *)

Definition task_loc (a : task) : loc := a.1.1.1.1.

(** The tasks [mine] creates: task [j] works on the [j]-th new object. *)
Definition worker_tasks (base : nat) (nonce_step : Z) (target : Qc) (indices : list Z)
    : list task :=
  imap (fun j i => ((base + j)%nat, i * nonce_step, (i + 1) * nonce_step, target, i)) indices.

Lemma make_args_spec (bd : loc) (step : Z) (t : Qc) (indices : list Z) (h : store) :
  make_args bd step t indices h =
    (h ++ replicate (length indices) (deref h bd), worker_tasks (length h) step t indices).
Proof.
  revert h. induction indices as [|i rest IH]; intros h.
  - simpl. by rewrite app_nil_r.
  - cbn [make_args copy]. rewrite IH, deref_copy, <- app_assoc. simpl.
    unfold worker_tasks. rewrite imap_cons. f_equal. f_equal.
    + by rewrite Nat.add_0_r.
    + apply imap_ext. intros j x _. simpl. rewrite length_app. simpl.
      do 4 f_equal. lia.
Qed.

Definition task_outcome (d : dict) (after : store) (a : task) (r : option loc) : Prop :=
  let '(l, start, stop, t, _) := a in
  worker_outcome d t start stop l (after !! l) r.

Lemma pool_map_spec (d : dict) (args : list task) (h : store) :
  NoDup (map task_loc args) ->
  (forall a, a ∈ args -> h !! task_loc a = Some d) ->
  exists h' rs,
    pool_map args h = (h', Ok rs) /\
    length h' = length h /\
    (forall l, l ∉ map task_loc args -> h' !! l = h !! l) /\
    Forall2 (task_outcome d h') args rs.
Proof.
  revert h. induction args as [|a rest IH]; intros h Hnd Hd.
  - exists h, []. simpl. eauto.
  - change (map task_loc (a :: rest)) with (task_loc a :: map task_loc rest) in *.
    apply NoDup_cons in Hnd as [Ha Hnd].
    destruct a as [[[[l start] stop] t] q]. change (task_loc (l, start, stop, t, q)) with l in *.
    assert (h !! l = Some d) as Hl by (apply (Hd (l, start, stop, t, q)); left).
    destruct (mine_nonce_spec l start stop t q h d Hl) as (d' & r & Hrun & Hout).
    destruct (IH (<[l:=d']> h) Hnd) as (h' & rs & Hrest & Hlen & Hframe & Hall).
    { intros a' Ha'.
      assert (l <> task_loc a') as Hne.
      { intros ->. apply Ha. apply list_elem_of_fmap. eauto. }
      rewrite list_lookup_insert_ne by done. apply Hd. by right. }
    exists h', (r :: rs). cbn [pool_map]. rewrite Hrun, Hrest. cbn [res_bind].
    split; [done|]. split; [by rewrite Hlen, length_insert|]. split.
    + intros l' Hl'. apply not_elem_of_cons in Hl' as [Hne Hl'].
      rewrite (Hframe l' Hl'). by apply list_lookup_insert_ne.
    + constructor; [|done]. unfold task_outcome. rewrite (Hframe l Ha).
      rewrite list_lookup_insert_eq by (by eapply lookup_lt_Some). done.
Qed.

Lemma worker_tasks_locs (base : nat) (step : Z) (t : Qc) (indices : list Z) :
  map task_loc (worker_tasks base step t indices) = seq base (length indices).
Proof.
  unfold worker_tasks. revert base. induction indices as [|i rest IH]; intros base; [done|].
  rewrite imap_cons. simpl. rewrite Nat.add_0_r. f_equal.
  rewrite <- IH. f_equal. apply imap_ext. intros j x _. simpl. do 4 f_equal. lia.
Qed.

Lemma worker_tasks_lookup (base : nat) (step : Z) (t : Qc) (indices : list Z) (j : nat) :
  worker_tasks base step t indices !! j =
    (fun i => ((base + j)%nat, i * step, (i + 1) * step, t, i)) <$> indices !! j.
Proof. unfold worker_tasks. apply list_lookup_imap. Qed.

(** The number of workers [mine] uses. *)
Definition worker_count (num_workers : option Z) : Z := default cpu_count num_workers.

Definition nonce_step (num_workers : option Z) : Z := max_nonce `div` worker_count num_workers.

(** [mine] with at least one worker: the store gains one object per worker,
    nothing else changes, no exception escapes, and the result is selected
    from the workers' results. *)
Lemma float_limit_large : 2 ^ 64 < float_limit.
Proof. reflexivity. Qed.

Lemma target_defined_below (difficulty : Z) :
  difficulty <= 2 ^ 64 -> target_defined difficulty.
Proof.
  intros Hd. unfold target_defined, pow2_defined.
  pose proof float_limit_large. lia.
Qed.

Lemma target_defined_iff (difficulty : Z) :
  target_defined difficulty <-> difficulty < 2 ^ 1024 - 2 ^ 970 + 256.
Proof. unfold target_defined, pow2_defined, float_limit. lia. Qed.

Lemma mine_overflow (bd : loc) (difficulty : Z) (num_workers : option Z) (h : store) :
  ~ target_defined difficulty ->
  mine bd difficulty num_workers h = (h, Raise OverflowError).
Proof. intros Hd. unfold mine. by destruct (decide (~ target_defined difficulty)). Qed.

Lemma mine_ok_defined (bd : loc) (difficulty : Z) (num_workers : option Z) (h h' : store)
    (r : option loc) :
  mine bd difficulty num_workers h = (h', Ok r) -> target_defined difficulty.
Proof.
  intros Hrun. destruct (decide (target_defined difficulty)) as [|Hd]; [done|].
  rewrite mine_overflow in Hrun by done. discriminate Hrun.
Qed.

Lemma mine_spec (bd : loc) (difficulty : Z) (num_workers : option Z) (h : store) :
  target_defined difficulty ->
  1 <= worker_count num_workers ->
  let d := deref h bd in
  let tasks := worker_tasks (length h) (nonce_step num_workers)
                 (calculate_target difficulty) (seqZ 0 (worker_count num_workers)) in
  exists finals rs,
    mine bd difficulty num_workers h = (h ++ finals, Ok (first_result (h ++ finals) rs)) /\
    length finals = Z.to_nat (worker_count num_workers) /\
    Forall2 (task_outcome d (h ++ finals)) tasks rs.
Proof.
  intros Hd Hnw d tasks. unfold mine. fold (worker_count num_workers).
  destruct (decide (~ target_defined difficulty)) as [|_]; [done|].
  destruct (decide (worker_count num_workers = 0)) as [|_]; [lia|].
  destruct (decide (worker_count num_workers < 1)) as [|_]; [lia|].
  fold (nonce_step num_workers). rewrite make_args_spec. fold d tasks.
  rewrite length_seqZ.
  set (n := Z.to_nat (worker_count num_workers)).
  destruct (pool_map_spec d tasks (h ++ replicate n d)) as (h' & rs & Hrun & Hlen & Hframe & Hall).
  { unfold tasks. rewrite worker_tasks_locs. apply NoDup_seq. }
  { intros a Ha. apply list_elem_of_lookup in Ha as [j Hj].
    unfold tasks in Hj. rewrite worker_tasks_lookup in Hj.
    destruct (seqZ 0 (worker_count num_workers) !! j) as [i|] eqn:Hi; [|done].
    injection Hj as <-. change (task_loc _) with (length h + j)%nat.
    apply lookup_seqZ in Hi as [_ Hi].
    rewrite lookup_app_r by lia. apply lookup_replicate. split; [done|].
    unfold n. lia. }
  rewrite Hrun.
  exists (drop (length h) h'), rs.
  assert (h' = h ++ drop (length h) h') as Hsplit.
  { rewrite <- (take_drop (length h) h') at 1. f_equal.
    apply list_eq. intros l. destruct (decide (l < length h)%nat) as [Hlt|Hge].
    - rewrite lookup_take_lt by done. rewrite Hframe.
      + by rewrite lookup_app_l.
      + unfold tasks. rewrite worker_tasks_locs, elem_of_seq. lia.
    - rewrite lookup_take_ge by lia. symmetry. apply lookup_ge_None. lia. }
  rewrite <- Hsplit. split; [done|]. split; [|done].
  rewrite length_drop, Hlen, length_app, length_replicate. lia.
Qed.


(** ** The result of mine *)

Lemma sealed_truthy (d : dict) (n : Z) : truthy (VDict (sealed d n)) = true.
Proof.
  unfold sealed. pose proof (dict_set_nonempty "hash" (VStr (candidate_hash d n)) (candidate d n)).
  by destruct (dict_set "hash" _ _).
Qed.

Lemma worker_outcome_truthy (d : dict) (a : task) (h' : store) (l : loc) :
  task_outcome d h' a (Some l) -> object_truthy h' (Some l) = true.
Proof.
  destruct a as [[[[l0 start] stop] t] q]. simpl.
  intros (-> & n & _ & Hl). unfold deref. rewrite Hl. apply sealed_truthy.
Qed.

(** The selection loop returns the first result that is not [None]. *)
Lemma first_result_spec (d : dict) (h' : store) (tasks : list task) (rs : list (option loc)) :
  Forall2 (task_outcome d h') tasks rs ->
  match first_result h' rs with
  | Some l => exists j, rs !! j = Some (Some l) /\ forall j', (j' < j)%nat -> rs !! j' = Some None
  | None => forall j r, rs !! j = Some r -> r = None
  end.
Proof.
  induction 1 as [|a r tasks rs Ha Hall IH]; simpl.
  - intros j r Hj. by rewrite lookup_nil in Hj.
  - destruct r as [l|].
    + rewrite (worker_outcome_truthy d a h' l Ha).
      exists 0%nat. split; [done|]. intros j' Hj'. lia.
    + simpl. destruct (first_result h' rs) as [l|].
      * destruct IH as (j & Hj & Hbefore). exists (S j). split; [done|].
        intros [|j'] Hj'; [done|]. simpl. apply Hbefore. lia.
      * intros [|j] r Hj; simpl in Hj; [congruence|]. by eapply IH.
Qed.

(** Worker [i] searches [i * step, (i + 1) * step). *)
Definition range_start (num_workers : option Z) (i : Z) : Z := i * nonce_step num_workers.
Definition range_stop (num_workers : option Z) (i : Z) : Z := (i + 1) * nonce_step num_workers.

Lemma mine_result_spec (bd : loc) (difficulty : Z) (num_workers : option Z) (h : store) :
  target_defined difficulty ->
  1 <= worker_count num_workers ->
  let d := deref h bd in
  let t := calculate_target difficulty in
  exists fresh r,
    mine bd difficulty num_workers h = (h ++ fresh, Ok r) /\
    match r with
    | Some l =>
        exists i n,
          0 <= i < worker_count num_workers /\
          first_accepted d t (range_start num_workers i) (range_stop num_workers i) n /\
          (forall i', 0 <= i' < i ->
             none_accepted d t (range_start num_workers i') (range_stop num_workers i')) /\
          l = (length h + Z.to_nat i)%nat /\
          (h ++ fresh) !! l = Some (sealed d n)
    | None =>
        forall i, 0 <= i < worker_count num_workers ->
          none_accepted d t (range_start num_workers i) (range_stop num_workers i)
    end.
Proof.
  intros Hd Hnw d t.
  destruct (mine_spec bd difficulty num_workers h Hd Hnw) as (fresh & rs & Hrun & Hlen & Hall).
  exists fresh, (first_result (h ++ fresh) rs). split; [done|].
  pose proof (first_result_spec _ _ _ _ Hall) as Hsel.
  assert (forall j r, rs !! j = Some r ->
            0 <= Z.of_nat j < worker_count num_workers /\
            worker_outcome d t (range_start num_workers (Z.of_nat j))
              (range_stop num_workers (Z.of_nat j)) (length h + j)%nat
              ((h ++ fresh) !! (length h + j)%nat) r) as Hat.
  { intros j r Hj.
    destruct (Forall2_lookup_r _ _ _ _ _ Hall Hj) as (a & Ha & Hout).
    rewrite worker_tasks_lookup in Ha.
    destruct (seqZ 0 (worker_count num_workers) !! j) as [i|] eqn:Hi; [|done].
    injection Ha as <-. apply lookup_seqZ in Hi as [-> Hi].
    split; [lia|]. exact Hout. }
  destruct (first_result (h ++ fresh) rs) as [l|].
  - destruct Hsel as (j & Hj & Hbefore).
    destruct (Hat j _ Hj) as (Hrange & -> & n & Hfirst & Hl).
    exists (Z.of_nat j), n. split; [done|]. split; [done|]. split.
    + intros i' Hi'.
      destruct (Hat (Z.to_nat i') None) as (_ & Hnone & _).
      { apply Hbefore. lia. }
      by rewrite Z2Nat.id in Hnone by lia.
    + split; [by rewrite Nat2Z.id|]. done.
  - intros i Hi.
    assert (is_Some (rs !! Z.to_nat i)) as [r Hr].
    { apply lookup_lt_is_Some. rewrite <- (Forall2_length _ _ _ Hall).
      unfold worker_tasks. rewrite length_imap, length_seqZ. lia. }
    pose proof (Hsel _ _ Hr) as ->.
    destruct (Hat _ _ Hr) as (_ & Hnone & _).
    by rewrite Z2Nat.id in Hnone by lia.
Qed.

(** Without a worker, [mine] raises before anything is created. *)
Lemma mine_no_worker (bd : loc) (difficulty : Z) (num_workers : option Z) (h : store) :
  worker_count num_workers < 1 ->
  exists e, mine bd difficulty num_workers h = (h, Raise e).
Proof.
  intros Hnw. unfold mine. fold (worker_count num_workers).
  destruct (decide (~ target_defined difficulty)); [eauto|].
  destruct (decide (worker_count num_workers = 0)); [eauto|].
  destruct (decide (worker_count num_workers < 1)); [eauto|lia].
Qed.

Lemma nonce_step_bounds (num_workers : option Z) (i : Z) :
  1 <= worker_count num_workers -> 0 <= i < worker_count num_workers ->
  0 <= range_start num_workers i /\ range_stop num_workers i <= max_nonce.
Proof.
  intros Hnw Hi. unfold range_start, range_stop, nonce_step.
  set (w := worker_count num_workers) in *.
  assert (0 <= max_nonce `div` w) by (apply Z.div_pos; [done | lia]).
  assert (w * (max_nonce `div` w) <= max_nonce) by (apply Z.mul_div_le; lia).
  nia.
Qed.


(** ** calculate_target *)

Lemma Zc_lt (a b : Z) : a < b <-> (Zc a < Zc b)%Qc.
Proof.
  unfold Zc, Qclt. simpl. rewrite !Qred_correct. by rewrite <- Zlt_Qlt.
Qed.

Lemma calculate_target_int (difficulty : Z) :
  difficulty <= 256 -> calculate_target difficulty = Zc (2 ^ (256 - difficulty)).
Proof.
  intros Hd. unfold calculate_target, pow2.
  destruct (decide (0 <= 256 - difficulty)); [done | lia].
Qed.

Lemma calculate_target_decreasing (d1 d2 : Z) :
  d1 < d2 <= 256 -> (calculate_target d2 < calculate_target d1)%Qc.
Proof.
  intros Hd. rewrite !calculate_target_int by lia. apply (proj1 (Zc_lt _ _)).
  apply Z.pow_lt_mono_r; lia.
Qed.

(** The difficulty levels the program offers. *)
Definition supported_difficulties : list Z := map snd DIFFICULTIES.

Lemma supported_difficulties_range (d : Z) : d ∈ supported_difficulties -> 2 <= d <= 4.
Proof.
  unfold supported_difficulties. simpl. rewrite !elem_of_cons, elem_of_nil. lia.
Qed.

Lemma lookup_difficulty_supported (v : value) (d : Z) :
  lookup_difficulty v = Ok d -> d ∈ supported_difficulties.
Proof.
  destruct v as [| | | |name| |]; try discriminate.
  unfold lookup_difficulty, supported_difficulties, DIFFICULTIES. cbn [find map fst snd].
  repeat (destruct (String.eqb name _);
          [simpl; intros [= <-]; rewrite !elem_of_cons; tauto|]).
  discriminate.
Qed.

(** Every difficulty the table offers has a target. *)
Lemma lookup_difficulty_defined (v : value) (d : Z) :
  lookup_difficulty v = Ok d -> target_defined d.
Proof.
  intros Hd%lookup_difficulty_supported%supported_difficulties_range.
  apply target_defined_below. lia.
Qed.

(** C7. For every supported difficulty the target is [2 ^ (256 - difficulty)],
    and a larger supported difficulty has a strictly smaller target. *)
Theorem calculate_target_supported (d1 d2 : Z) :
  d1 ∈ supported_difficulties -> d2 ∈ supported_difficulties ->
  calculate_target d1 = Zc (2 ^ (256 - d1)) /\
  (d1 < d2 -> (calculate_target d2 < calculate_target d1)%Qc).
Proof.
  intros H1%supported_difficulties_range H2%supported_difficulties_range. split.
  - apply calculate_target_int. lia.
  - intros Hlt. apply calculate_target_decreasing. lia.
Qed.

(** ** The caller's template *)

Lemma mine_extends_store (bd : loc) (difficulty : Z) (num_workers : option Z) (h : store) :
  exists fresh, (mine bd difficulty num_workers h).1 = h ++ fresh.
Proof.
  destruct (decide (target_defined difficulty)) as [Hd|Hd].
  2:{ rewrite mine_overflow by done. exists []. by rewrite app_nil_r. }
  destruct (decide (1 <= worker_count num_workers)) as [Hnw|Hnw].
  - destruct (mine_spec bd difficulty num_workers h Hd Hnw) as (fresh & rs & -> & _).
    by exists fresh.
  - destruct (mine_no_worker bd difficulty num_workers h) as [e ->]; [lia|].
    exists []. by rewrite app_nil_r.
Qed.

(** C10. [mine] leaves the caller's dict as it was: every worker gets a new
    object holding a copy of the template, a worker writes to its own object
    only, and the store after [mine] is the store before it plus new
    objects. *)
Theorem mine_keeps_template (bd : loc) (difficulty : Z) (num_workers : option Z)
    (h : store) (d : dict) :
  h !! bd = Some d ->
  (mine bd difficulty num_workers h).1 !! bd = Some d /\
  (exists fresh, (mine bd difficulty num_workers h).1 = h ++ fresh) /\
  (forall step t indices,
     let '(h1, args) := make_args bd step t indices h in
     NoDup (map task_loc args) /\
     forall a, a ∈ args -> task_loc a <> bd /\ h1 !! task_loc a = Some d) /\
  (forall l start stop t q hw dw l',
     hw !! l = Some dw -> l' <> l ->
     (mine_nonce (l, start, stop, t, q) hw).1 !! l' = hw !! l').
Proof.
  intros Hbd. split; [|split; [|split]].
  - destruct (mine_extends_store bd difficulty num_workers h) as [fresh ->].
    by apply lookup_app_l_Some.
  - apply mine_extends_store.
  - intros step t indices. rewrite make_args_spec. split.
    + rewrite worker_tasks_locs. apply NoDup_seq.
    + intros a Ha. apply list_elem_of_lookup in Ha as [j Hj].
      rewrite worker_tasks_lookup in Hj.
      destruct (indices !! j) as [i|] eqn:Hi; [|done].
      injection Hj as <-. change (task_loc _) with (length h + j)%nat.
      apply lookup_lt_Some in Hi. apply lookup_lt_Some in Hbd as Hlt. split; [lia|].
      rewrite lookup_app_r by lia. unfold deref. rewrite Hbd. simpl.
      apply lookup_replicate. split; [done | lia].
  - intros l start stop t q hw dw l' Hl Hne.
    destruct (mine_nonce_spec l start stop t q hw dw Hl) as (d' & r & -> & _).
    by apply list_lookup_insert_ne.
Qed.

(** ** The search *)

(** C5. With at least one worker, and a difficulty for which
    [calculate_target] returns (any below [2 ^ 1024 - 2 ^ 970 + 256], where
    it raises OverflowError): a worker returns its object sealed with the
    first accepted nonce of its range, or [None] when its range has no
    accepted nonce; [mine] returns the block of the lowest-indexed worker
    that found one, and [None] exactly when no worker found one. *)
Theorem mine_first_accepted (bd : loc) (difficulty : Z) (num_workers : option Z)
    (h : store) :
  difficulty < 2 ^ 1024 - 2 ^ 970 + 256 ->
  1 <= worker_count num_workers ->
  let d := deref h bd in
  let t := calculate_target difficulty in
  (forall l start stop q hw dw, hw !! l = Some dw ->
     exists d' r,
       mine_nonce (l, start, stop, t, q) hw = (<[l := d']> hw, Ok r) /\
       match r with
       | Some l' => l' = l /\ exists n, first_accepted dw t start stop n /\ d' = sealed dw n
       | None => none_accepted dw t start stop
       end) /\
  exists h' r,
    mine bd difficulty num_workers h = (h', Ok r) /\
    match r with
    | Some l =>
        exists i n,
          0 <= i < worker_count num_workers /\
          first_accepted d t (range_start num_workers i) (range_stop num_workers i) n /\
          (forall i', 0 <= i' < i ->
             none_accepted d t (range_start num_workers i') (range_stop num_workers i')) /\
          h' !! l = Some (sealed d n)
    | None =>
        forall i, 0 <= i < worker_count num_workers ->
          none_accepted d t (range_start num_workers i) (range_stop num_workers i)
    end.
Proof.
  intros Hd%target_defined_iff Hnw d t. split.
  - intros l start stop q hw dw Hl.
    destruct (mine_nonce_spec l start stop t q hw dw Hl) as (d' & r & Hrun & Hout).
    exists d', r. split; [done|]. destruct r as [l'|]; simpl in Hout.
    + destruct Hout as (-> & n & Hfirst & [= ->]). eauto.
    + tauto.
  - destruct (mine_result_spec bd difficulty num_workers h Hd Hnw) as (fresh & r & Hrun & Hres).
    exists (h ++ fresh), r. split; [done|]. destruct r as [l|]; [|done].
    destruct Hres as (i & n & Hi & Hfirst & Hbefore & _ & Hl). eauto 10.
Qed.

Lemma dict_get_sealed_hash (d : dict) (n : Z) :
  dict_get "hash" (sealed d n) = Some (VStr (candidate_hash d n)).
Proof. apply dict_get_set_eq. Qed.

Lemma dict_get_sealed_nonce (d : dict) (n : Z) :
  dict_get "nonce" (sealed d n) = Some (VInt n).
Proof.
  unfold sealed. rewrite dict_get_set_ne by done. apply dict_get_set_eq.
Qed.

(** C6. A block returned by [mine] records the digest of the template with
    its nonce; that digest, read as an integer, is below the target, and the
    nonce lies in [0, 2^32). *)
Theorem mined_block_meets_target (bd : loc) (difficulty : Z) (num_workers : option Z)
    (h h' : store) (l : loc) :
  mine bd difficulty num_workers h = (h', Ok (Some l)) ->
  exists block new_hash nonce v,
    h' !! l = Some block /\
    dict_get "hash" block = Some (VStr new_hash) /\
    dict_get "nonce" block = Some (VInt nonce) /\
    new_hash = SHA256 (to_string (VDict (dict_set "nonce" (VInt nonce) (deref h bd)))) /\
    int16 new_hash = Some v /\
    (Zc v < calculate_target difficulty)%Qc /\
    0 <= nonce < 2 ^ 32.
Proof.
  intros Hrun. pose proof (mine_ok_defined _ _ _ _ _ _ Hrun) as Hd.
  destruct (decide (1 <= worker_count num_workers)) as [Hnw|Hnw].
  2:{ destruct (mine_no_worker bd difficulty num_workers h) as [e He]; [lia|].
      congruence. }
  destruct (mine_result_spec bd difficulty num_workers h Hd Hnw) as (fresh & r & Hrun' & Hres).
  rewrite Hrun in Hrun'. injection Hrun' as -> <-.
  destruct Hres as (i & n & Hi & (Hn & Hacc & _) & _ & _ & Hl).
  exists (sealed (deref h bd) n), (candidate_hash (deref h bd) n), n, (hash_int (deref h bd) n).
  split; [done|]. split; [apply dict_get_sealed_hash|].
  split; [apply dict_get_sealed_nonce|]. split; [done|].
  split; [apply int16_candidate_hash|]. split; [done|].
  pose proof (nonce_step_bounds num_workers i Hnw Hi) as [Hlo Hhi].
  unfold max_nonce in Hhi. lia.
Qed.


(** ** The nonce ranges *)

Definition task_range (a : task) : Z * Z := (a.1.1.1.2, a.1.1.2).

(** The ranges of the tasks [mine] hands to the pool. *)
Definition nonce_ranges (bd : loc) (difficulty : Z) (num_workers : option Z) (h : store)
    : list (Z * Z) :=
  map task_range
    (make_args bd (nonce_step num_workers) (calculate_target difficulty)
       (seqZ 0 (worker_count num_workers)) h).2.

Definition in_range (n : Z) (r : Z * Z) : Prop := r.1 <= n < r.2.

Lemma nonce_ranges_spec (bd : loc) (difficulty : Z) (num_workers : option Z) (h : store) :
  nonce_ranges bd difficulty num_workers h =
    map (fun i => (range_start num_workers i, range_stop num_workers i))
        (seqZ 0 (worker_count num_workers)).
Proof.
  unfold nonce_ranges. rewrite make_args_spec. cbn [snd]. unfold worker_tasks.
  generalize (length h). generalize (seqZ 0 (worker_count num_workers)).
  induction l as [|i l IH]; intros base; [done|].
  rewrite imap_cons. cbn [map]. f_equal. rewrite <- (IH (S base)). f_equal.
  apply imap_ext. intros j x _. simpl. do 4 f_equal. lia.
Qed.

(** The ranges are contiguous and pairwise disjoint, and together they are
    [0, worker_count * nonce_step). *)
Lemma nonce_ranges_contiguous (num_workers : option Z) (i : Z) :
  range_stop num_workers i = range_start num_workers (i + 1).
Proof. done. Qed.

Lemma nonce_ranges_disjoint (num_workers : option Z) (i j n : Z) :
  1 <= worker_count num_workers ->
  range_start num_workers i <= n < range_stop num_workers i ->
  range_start num_workers j <= n < range_stop num_workers j ->
  i = j.
Proof.
  unfold range_start, range_stop, nonce_step. intros Hnw Hi Hj.
  assert (0 <= max_nonce `div` worker_count num_workers) by (apply Z.div_pos; [done | lia]).
  nia.
Qed.

Lemma nonce_ranges_union (num_workers : option Z) (n : Z) :
  1 <= worker_count num_workers ->
  (exists i, 0 <= i < worker_count num_workers /\
             range_start num_workers i <= n < range_stop num_workers i) <->
  0 <= n < worker_count num_workers * nonce_step num_workers.
Proof.
  intros Hnw. unfold range_start, range_stop.
  assert (0 <= nonce_step num_workers) as Hstep
    by (unfold nonce_step; apply Z.div_pos; [done | lia]).
  split.
  - intros (i & Hi & Hn). nia.
  - intros Hn. assert (0 < nonce_step num_workers) as Hpos by nia.
    exists (n `div` nonce_step num_workers).
    pose proof (Z.div_mod n (nonce_step num_workers) ltac:(lia)) as Hdm.
    pose proof (Z.mod_pos_bound n (nonce_step num_workers) Hpos) as Hmod.
    assert (0 <= n `div` nonce_step num_workers) by (apply Z.div_pos; lia).
    assert (n `div` nonce_step num_workers < worker_count num_workers).
    { apply Z.div_lt_upper_bound; lia. }
    split; [lia|]. lia.
Qed.

(** The union is all of [0, 2^32) exactly when the worker count divides 2^32. *)
Lemma nonce_ranges_exhaustive_iff (num_workers : option Z) :
  1 <= worker_count num_workers ->
  worker_count num_workers * nonce_step num_workers = max_nonce <->
  max_nonce `mod` worker_count num_workers = 0.
Proof.
  intros Hnw. unfold nonce_step.
  pose proof (Z.div_mod max_nonce (worker_count num_workers) ltac:(lia)). lia.
Qed.

(** No nonce at or above [worker_count * nonce_step] is ever returned. *)
Lemma mine_result_below_step_total (bd : loc) (difficulty : Z) (num_workers : option Z)
    (h h' : store) (l : loc) (d : dict) (n : Z) :
  mine bd difficulty num_workers h = (h', Ok (Some l)) ->
  h' !! l = Some d -> dict_get "nonce" d = Some (VInt n) ->
  0 <= n < worker_count num_workers * nonce_step num_workers.
Proof.
  intros Hrun Hl Hn. pose proof (mine_ok_defined _ _ _ _ _ _ Hrun) as Hd.
  destruct (decide (1 <= worker_count num_workers)) as [Hnw|Hnw].
  2:{ destruct (mine_no_worker bd difficulty num_workers h) as [e He]; [lia|]. congruence. }
  destruct (mine_result_spec bd difficulty num_workers h Hd Hnw) as (fresh & r & Hrun' & Hres).
  rewrite Hrun in Hrun'. injection Hrun' as -> <-.
  destruct Hres as (i & n' & Hi & (Hn' & _) & _ & _ & Hl').
  rewrite Hl in Hl'. injection Hl' as ->. rewrite dict_get_sealed_nonce in Hn.
  injection Hn as ->. apply nonce_ranges_union; eauto.
Qed.


(** ** The monad *)

Lemma bind_ok {A B} (m : M A) (k : A -> M B) (w w' : world) (a : A) :
  m w = (w', Ok a) -> bind m k w = k a w'.
Proof. intros H. unfold bind. by rewrite H. Qed.

Lemma bind_raise {A B} (m : M A) (k : A -> M B) (w w' : world) (e : exn) :
  m w = (w', Raise e) -> bind m k w = (w', Raise e).
Proof. intros H. unfold bind. by rewrite H. Qed.

Lemma deref_setitem_eq (l : loc) (k : string) (v : value) (h : store) (d : dict) :
  h !! l = Some d -> deref (setitem l k v h) l = dict_set k v d.
Proof. intros Hl. rewrite (setitem_insert _ _ _ _ _ Hl). by eapply deref_insert. Qed.

Lemma lookup_setitem_eq (l : loc) (k : string) (v : value) (h : store) (d : dict) :
  h !! l = Some d -> setitem l k v h !! l = Some (dict_set k v d).
Proof.
  intros Hl. rewrite (setitem_insert _ _ _ _ _ Hl).
  apply list_lookup_insert_eq. by eapply lookup_lt_Some.
Qed.

Lemma lookup_setitem_ne (l l' : loc) (k : string) (v : value) (h : store) :
  l <> l' -> setitem l k v h !! l' = h !! l'.
Proof. intros Hne. unfold setitem. by apply list_lookup_alter_ne. Qed.

Lemma setitem_app_r (l : loc) (k : string) (v : value) (h fresh : store) :
  (length h <= l)%nat -> exists fresh', setitem l k v (h ++ fresh) = h ++ fresh'.
Proof.
  intros Hl. unfold setitem. exists (alter (dict_set k v) (l - length h)%nat fresh).
  by rewrite alter_app_r_alt.
Qed.

(** ** add_block_to_chain *)

Lemma add_block_to_chain_world (block : loc) (w : world) :
  (add_block_to_chain block w).1 = World (heap w) (CHAIN w ++ [block]) (REWARD w).
Proof.
  unfold add_block_to_chain, bind, getitem, ret. simpl.
  by destruct (dict_get "block_number" (deref (heap w) block)).
Qed.

Lemma add_block_to_chain_result (block : loc) (w : world) :
  (add_block_to_chain block w).2 =
    match dict_get "block_number" (deref (heap w) block) with
    | Some _ => Ok tt
    | None => Raise KeyError
    end.
Proof.
  unfold add_block_to_chain, bind, getitem, ret. simpl.
  by destruct (dict_get "block_number" (deref (heap w) block)).
Qed.

(** What [start_mining] reads as the previous hash. *)
Definition expected_previous_hash (w : world) : res value :=
  match last (CHAIN w) with
  | Some tail => of_option KeyError (dict_get "hash" (deref (heap w) tail))
  | None => Ok (VStr zeros64)
  end.

Definition previous_hash_matches (w : world) (block : loc) : Prop :=
  exists ph, expected_previous_hash w = Ok ph /\
             dict_get "previous_hash" (deref (heap w) block) = Some ph.

(** C2, as the code has it. [add_block_to_chain] compares nothing: for every
    state and every block, whatever its previous hash, the block is appended
    and the chain grows by exactly one; the store and the reward are not
    touched, and the call only fails, after the append, for a block without
    a block number. *)
Theorem add_block_to_chain_appends (block : loc) (w : world) :
  CHAIN (add_block_to_chain block w).1 = CHAIN w ++ [block] /\
  length (CHAIN (add_block_to_chain block w).1) = S (length (CHAIN w)) /\
  heap (add_block_to_chain block w).1 = heap w /\
  REWARD (add_block_to_chain block w).1 = REWARD w /\
  (is_Some (dict_get "block_number" (deref (heap w) block)) ->
   (add_block_to_chain block w).2 = Ok tt).
Proof.
  rewrite add_block_to_chain_world, add_block_to_chain_result. simpl.
  rewrite length_app. simpl. repeat split; try lia.
  by intros [v ->].
Qed.

(** ** Rounding to the nearest double *)










































Lemma Q2Qc_le (a b : Q) : (Q2Qc a <= Q2Qc b)%Qc <-> (a <= b)%Q.
Proof. unfold Qcle. simpl. by rewrite !Qred_correct. Qed.













(** A float result known by its value. *)
Lemma float_is (f : float64) (q : Qc) :
  stored_float f == q -> (forall b, f <> Infinity b) -> f = Finite q.
Proof. destruct f as [a|b]; intros Ha Hb; [|by destruct (Hb b)]. f_equal. by apply Qc_is_canon. Qed.

(** ** The rounding error *)







(** ** Sums of non-negative floats *)











(** ** retarget_difficulty *)

Lemma retarget_difficulty_world (w : world) : (retarget_difficulty w).1 = w.
Proof.
  unfold retarget_difficulty.
  destruct (decide _); [|done].
  destruct (res_bind _ _); [|done].
  repeat destruct (decide _); done.
Qed.

(** The mining time recorded on a block by [start_mining]: a float. *)
Definition mining_time_of (h : store) (block : loc) : option Qc :=
  match dict_get "mining_time" (deref h block) with
  | Some (VFloat x) => Some x
  | _ => None
  end.

(** The exact sum and the arithmetic mean. *)
Definition total (ts : list Qc) : Qc := foldr Qcplus (Zc 0) ts.

Definition mean (ts : list Qc) : Qc := (total ts / Zc (Z.of_nat (length ts)))%Qc.

(** The sum as floats add up, one rounding per term from left to right, and
    the quotient of that sum by the number of terms, rounded once more. *)
Definition float_total (ts : list Qc) : float64 := foldl float_add (Finite (Zc 0)) ts.

Definition float_mean (ts : list Qc) : float64 :=
  float_div (float_total ts) (Zc (Z.of_nat (length ts))).

Lemma mining_time_of_Some (h : store) (b : loc) (x : Qc) :
  mining_time_of h b = Some x -> dict_get "mining_time" (deref h b) = Some (VFloat x).
Proof.
  unfold mining_time_of.
  destruct (dict_get "mining_time" (deref h b)) as [[]|]; congruence.
Qed.

Lemma sum_mining_time_floats (h : store) (blocks : list loc) (ts : list Qc) (f : float64) :
  Forall2 (fun b x => mining_time_of h b = Some x) blocks ts ->
  sum_mining_time h blocks (FloatTotal f) = Ok (FloatTotal (foldl float_add f ts)).
Proof.
  intros Hall. revert f.
  induction Hall as [|b x blocks ts Hb Hall IH]; intros f; [reflexivity|].
  cbn [sum_mining_time foldl]. rewrite (mining_time_of_Some _ _ _ Hb). cbn.
  apply IH.
Qed.

Lemma float_of_int_0 : float_of_int 0 = Ok (Zc 0).
Proof. reflexivity. Qed.

Lemma sum_mining_time_spec (h : store) (blocks : list loc) (ts : list Qc) :
  Forall2 (fun b x => mining_time_of h b = Some x) blocks ts -> ts <> [] ->
  sum_mining_time h blocks (IntTotal 0) = Ok (FloatTotal (float_total ts)).
Proof.
  intros Hall Hne. destruct Hall as [|b x blocks ts Hb Hall]; [done|].
  cbn [sum_mining_time]. rewrite (mining_time_of_Some _ _ _ Hb).
  cbn [of_option res_bind add_item]. rewrite float_of_int_0. cbn [res_bind].
  by rewrite (sum_mining_time_floats _ _ _ _ Hall).
Qed.

Lemma length_last_n {A} (n : nat) (l : list A) :
  (n <= length l)%nat -> length (last_n n l) = n.
Proof. intros Hn. unfold last_n. rewrite length_drop. lia. Qed.

(** The chain is at a batch boundary. *)
Definition batch_boundary (w : world) : Prop :=
  length (CHAIN w) <> 0%nat /\ (Z.of_nat (length (CHAIN w))) `mod` 10 = 0.









Lemma retarget_difficulty_at_boundary (w : world) (ts : list Qc) :
  batch_boundary w ->
  Forall2 (fun b x => mining_time_of (heap w) b = Some x) (last_n 10 (CHAIN w)) ts ->
  length ts = 10%nat /\
  (retarget_difficulty w).2 =
    Ok (if decide (float_lt (float_mean ts) (Zc TARGET_TIME)) then 1
        else if decide (float_gt (float_mean ts) (Zc TARGET_TIME)) then -1
        else 0).
Proof.
  intros [Hne Hmod] Hts.
  assert (length ts = 10%nat) as Hlen.
  { rewrite <- (Forall2_length _ _ _ Hts). apply length_last_n.
    apply Z.mod_divide in Hmod as [q Hq]; lia. }
  split; [done|].
  unfold retarget_difficulty.
  destruct (decide _) as [_|Hno].
  2:{ exfalso. apply Hno. split; [|done].
      apply Z.mod_divide in Hmod as [q Hq]; lia. }
  rewrite (sum_mining_time_spec _ _ _ Hts) by (by destruct ts).
  cbn [res_bind divide_total]. unfold float_mean. rewrite Hlen.
  change (Z.of_nat 10) with 10.
  by repeat destruct (decide _).
Qed.



(** ** start_mining *)

Global Arguments mine : simpl never.
Global Arguments for_range : simpl never.

Lemma credit_and_append_ok (block : loc) (t : Qc) (w : world) (d : dict) :
  heap w !! block = Some d -> is_Some (dict_get "block_number" d) ->
  credit_and_append block t w =
    (World (setitem block "reward" (value_of_number (REWARD w))
              (setitem block "mining_time" (VFloat t) (heap w)))
           (CHAIN w ++ [block]) (REWARD w), Ok tt).
Proof.
  intros Hl Hbn.
  unfold credit_and_append, add_block_to_chain, bind, setitem_w, getitem, ret. cbn.
  pose proof (lookup_setitem_eq block "mining_time" (VFloat t) _ _ Hl) as Hl1.
  rewrite (deref_setitem_eq block "reward" _ _ _ Hl1).
  destruct (dict_get_is_Some_set "reward" "block_number" (value_of_number (REWARD w)) _
              (dict_get_is_Some_set "mining_time" "block_number" (VFloat t) _ Hbn))
    as [v ->].
  done.
Qed.

(** The reward after the halving check on a chain of [n] blocks. *)
Definition reward_after (n : nat) (r : number) : number :=
  if decide (Z.of_nat n `mod` HALVING_INTERVAL = 0) then halve r else r.

Lemma finish_mining_effect (block : loc) (t : Qc) (w : world) (d : dict) :
  heap w !! block = Some d -> is_Some (dict_get "block_number" d) ->
  exists r,
    (credit_and_append block t ;;; halving_check ;;;
     _ <- retarget_difficulty ;; ret (Some block)) w =
    (World (setitem block "reward" (value_of_number (REWARD w))
              (setitem block "mining_time" (VFloat t) (heap w)))
           (CHAIN w ++ [block])
           (reward_after (length (CHAIN w ++ [block])) (REWARD w)), r).
Proof.
  intros Hl Hbn.
  rewrite (bind_ok _ _ _ _ _ (credit_and_append_ok block t w d Hl Hbn)).
  set (w1 := World _ _ _).
  assert (halving_check w1 =
          (World (heap w1) (CHAIN w1) (reward_after (length (CHAIN w1)) (REWARD w1)), Ok tt))
    as Hhalf.
  { unfold halving_check, reward_after. destruct (decide _); [done|]. by destruct w1. }
  rewrite (bind_ok _ _ _ _ _ Hhalf).
  set (w2 := World _ _ _).
  pose proof (retarget_difficulty_world w2) as Hw2.
  unfold bind, ret. destruct (retarget_difficulty w2) as [w3 [z|e]]; simpl in Hw2; subst w3; eauto.
Qed.

Definition request_template (data : dict) (w : world) (previous_hash : value) : dict :=
  [("block_number", VInt (Z.of_nat (length (CHAIN w)) + 1));
   ("transactions", default (VStr "Example transaction") (dict_get "transactions" data));
   ("previous_hash", previous_hash)].

(** What a request does to the state: the store only gains objects; either
    the chain and the reward are untouched, or exactly one new block is
    appended, credited with the reward in force, and the reward goes through
    the halving check once. *)
Lemma start_mining_effect (data : dict) (t : Qc) (w : world) :
  let w' := (start_mining data t w).1 in
  (exists fresh, heap w' = heap w ++ fresh) /\
  ((CHAIN w' = CHAIN w /\ REWARD w' = REWARD w) \/
   (exists block blk ph,
      CHAIN w' = CHAIN w ++ [block] /\
      (length (heap w) <= block)%nat /\
      heap w' !! block = Some blk /\
      dict_get "reward" blk = Some (value_of_number (REWARD w)) /\
      dict_get "mining_time" blk = Some (VFloat t) /\
      expected_previous_hash w = Ok ph /\
      dict_get "previous_hash" blk = Some ph /\
      dict_get "block_number" blk = Some (VInt (Z.of_nat (length (CHAIN w)) + 1)) /\
      is_Some (dict_get "hash" blk) /\
      REWARD w' = reward_after (length (CHAIN w ++ [block])) (REWARD w))).
Proof.
  assert (forall h : store, exists fresh, h = h ++ fresh) as Hnil
    by (intros h; exists []; by rewrite app_nil_r).
  intros w'. subst w'. remember (start_mining data t w) as out eqn:Hout.
  unfold start_mining in Hout.
  (* previous_hash *)
  set (prev := match last (CHAIN w) with
               | Some tail => getitem tail "hash"
               | None => ret (VStr zeros64)
               end) in Hout.
  assert (prev w = (w, expected_previous_hash w)) as Hprev.
  { unfold prev, expected_previous_hash. by destruct (last (CHAIN w)). }
  destruct (expected_previous_hash w) as [ph|e] eqn:Hph.
  2:{ rewrite (bind_raise _ _ _ _ _ Hprev) in Hout. subst out. simpl. eauto. }
  rewrite (bind_ok _ _ _ _ _ Hprev) in Hout.
  (* block_data *)
  fold (request_template data w ph) in Hout.
  set (tmpl := request_template data w ph) in *.
  unfold bind at 1 in Hout. unfold new_dict at 1 in Hout.
  set (bd := length (heap w)) in *.
  set (w1 := World (heap w ++ [tmpl]) (CHAIN w) (REWARD w)) in *.
  assert (exists fresh, heap w1 = heap w ++ fresh) as Hw1 by (by exists [tmpl]).
  (* the difficulty and the worker count *)
  unfold bind at 1, lift at 1 in Hout.
  destruct (lookup_difficulty _) as [difficulty|e] eqn:Hdiff; [|subst out; simpl; eauto].
  apply lookup_difficulty_defined in Hdiff.
  unfold bind at 1, lift at 1 in Hout.
  destruct (as_num_workers _) as [workers|e]; [|subst out; simpl; eauto].
  (* mine *)
  unfold bind at 1, mine_w at 1 in Hout.
  destruct (decide (1 <= worker_count workers)) as [Hnw|Hnw].
  2:{ destruct (mine_no_worker bd difficulty workers (heap w1)) as [e He]; [lia|].
      rewrite He in Hout. subst out. simpl. eauto. }
  destruct (mine_result_spec bd difficulty workers (heap w1) Hdiff Hnw)
    as (fresh & r & Hrun & Hres).
  rewrite Hrun in Hout.
  assert (deref (heap w1) bd = tmpl) as Htmpl.
  { unfold deref, w1, bd. simpl. by rewrite list_lookup_middle. }
  rewrite Htmpl in Hres.
  set (w2 := World (heap w1 ++ fresh) (CHAIN w1) (REWARD w1)) in *.
  assert (exists fresh', heap w2 = heap w ++ fresh') as Hw2.
  { exists ([tmpl] ++ fresh). unfold w2, w1. simpl. by rewrite <- app_assoc. }
  unfold bind at 1, result_truthy at 1 in Hout.
  destruct r as [block|]; [|subst out; simpl; eauto].
  destruct Hres as (i & n & Hi & Hfirst & _ & -> & Hblock).
  assert (object_truthy (heap w2) (Some (length (heap w1) + Z.to_nat i)%nat) = true) as Htrue.
  { unfold object_truthy, deref. change (heap w2) with (heap w1 ++ fresh).
    rewrite Hblock. apply sealed_truthy. }
  rewrite Htrue in Hout.
  set (block := (length (heap w1) + Z.to_nat i)%nat) in *.
  assert (is_Some (dict_get "block_number" (sealed tmpl n))) as Hbn.
  { unfold sealed, candidate. rewrite !dict_get_set_ne by done. by eexists. }
  destruct (finish_mining_effect block t w2 (sealed tmpl n) Hblock Hbn) as [r Hfin].
  rewrite Hfin in Hout. subst out.
  set (blk := dict_set "reward" (value_of_number (REWARD w))
                (dict_set "mining_time" (VFloat t) (sealed tmpl n))).
  assert (length (heap w) <= block)%nat as Hfreshloc.
  { unfold block, w1. simpl. rewrite length_app. lia. }
  cbn [fst heap CHAIN REWARD]. split.
  - destruct Hw2 as [fresh' ->].
    destruct (setitem_app_r block "mining_time" (VFloat t) (heap w) fresh' Hfreshloc)
      as [fresh1 ->].
    destruct (setitem_app_r block "reward" (value_of_number (REWARD w2)) (heap w) fresh1
                Hfreshloc) as [fresh2 ->].
    by exists fresh2.
  - right. exists block, blk, ph. split; [done|]. split; [done|]. split.
    { pose proof (lookup_setitem_eq block "mining_time" (VFloat t) _ _ Hblock) as H1.
      apply (lookup_setitem_eq block "reward" (value_of_number (REWARD w)) _ _ H1). }
    unfold blk, sealed, candidate, tmpl, request_template.
    split; [apply dict_get_set_eq|].
    split; [rewrite dict_get_set_ne by done; apply dict_get_set_eq|].
    split; [done|].
    split; [by rewrite !dict_get_set_ne by done|].
    split; [by rewrite !dict_get_set_ne by done|].
    split; [|done].
    rewrite !(dict_get_set_ne _ "hash") by done. rewrite dict_get_set_eq. by eexists.
Qed.


Lemma main_effect (bd_items : dict) (difficulty : string) (num_workers : option Z) (t : Qc) :
  let w' := (main bd_items difficulty num_workers t initial_world).1 in
  REWARD w' = Int 50 /\
  (CHAIN w' = [] \/
   exists block blk,
     CHAIN w' = [block] /\ heap w' !! block = Some blk /\
     dict_get "reward" blk = Some (VInt 50)).
Proof.
  intros w'. subst w'. remember (main bd_items difficulty num_workers t initial_world) as out eqn:Hout.
  unfold main in Hout.
  unfold bind at 1, new_dict at 1 in Hout.
  change (heap initial_world ++ [bd_items]) with [bd_items] in Hout.
  change (length (heap initial_world)) with 0%nat in Hout.
  set (w1 := World [bd_items] (CHAIN initial_world) (REWARD initial_world)) in *.
  unfold bind at 1, lift at 1 in Hout.
  destruct (lookup_difficulty _) as [bits|e] eqn:Hdiff; [|subst out; simpl; eauto].
  apply lookup_difficulty_defined in Hdiff.
  unfold bind at 1, getitem at 1 in Hout.
  change (deref (heap w1) 0%nat) with bd_items in Hout.
  destruct (dict_get "block_number" bd_items) as [bn|] eqn:Hbn0; [|subst out; simpl; eauto].
  cbn [of_option] in Hout.
  unfold bind at 1, mine_w at 1 in Hout.
  destruct (decide (1 <= worker_count num_workers)) as [Hnw|Hnw].
  2:{ destruct (mine_no_worker 0%nat bits num_workers (heap w1)) as [e He]; [lia|].
      rewrite He in Hout. subst out. simpl. eauto. }
  destruct (mine_result_spec 0%nat bits num_workers (heap w1) Hdiff Hnw)
    as (fresh & r & Hrun & Hres).
  rewrite Hrun in Hout.
  change (deref (heap w1) 0%nat) with bd_items in Hres.
  set (w2 := World (heap w1 ++ fresh) (CHAIN w1) (REWARD w1)) in *.
  unfold bind at 1, result_truthy at 1 in Hout.
  destruct r as [block|]; [|subst out; simpl; eauto].
  destruct Hres as (i & n & Hi & Hfirst & _ & -> & Hblock).
  assert (object_truthy (heap w2) (Some (length (heap w1) + Z.to_nat i)%nat) = true) as Htrue.
  { unfold object_truthy, deref. change (heap w2) with (heap w1 ++ fresh).
    rewrite Hblock. apply sealed_truthy. }
  rewrite Htrue in Hout.
  set (block := (length (heap w1) + Z.to_nat i)%nat) in *.
  assert (is_Some (dict_get "block_number" (sealed bd_items n))) as Hbn.
  { unfold sealed, candidate. rewrite !dict_get_set_ne by done. by eexists. }
  rewrite (credit_and_append_ok block t w2 (sealed bd_items n) Hblock Hbn) in Hout.
  subst out. cbn [fst heap CHAIN REWARD]. split; [done|]. right.
  exists block. eexists. split; [done|]. split.
  { pose proof (lookup_setitem_eq block "mining_time" (VFloat t) _ _ Hblock) as H1.
    apply (lookup_setitem_eq block "reward" (value_of_number (REWARD w2)) _ _ H1). }
  apply dict_get_set_eq.
Qed.

(** A block appended by a request is linked to the tail it was mined on and
    numbered one past the length of the chain. *)
Lemma start_mining_appends_linked (data : dict) (t : Qc) (w : world) (block : loc) :
  CHAIN (start_mining data t w).1 = CHAIN w ++ [block] ->
  exists blk ph,
    heap (start_mining data t w).1 !! block = Some blk /\
    expected_previous_hash w = Ok ph /\
    dict_get "previous_hash" blk = Some ph /\
    dict_get "block_number" blk = Some (VInt (Z.of_nat (length (CHAIN w)) + 1)).
Proof.
  intros Hchain.
  destruct (start_mining_effect data t w) as (_ & [[Hsame _] | Happ]).
  - rewrite Hsame in Hchain. apply (f_equal length) in Hchain.
    rewrite length_app in Hchain. simpl in Hchain. lia.
  - destruct Happ as (b & blk & ph & Hchain' & _ & Hblk & _ & _ & Hph & Hprev & Hbn & _).
    rewrite Hchain' in Hchain. apply app_inj_tail in Hchain as [_ ->].
    exists blk, ph. split; [exact Hblk|]. split; [exact Hph|]. split; [exact Hprev | exact Hbn].
Qed.

(** ** The reward schedule *)

(** The reward for the block at position [k] of the chain (from 0): 50,
    halved once for every full interval before it. *)
Definition reward_at (k : Z) : Qc :=
  Nat.iter (Z.to_nat (k `div` HALVING_INTERVAL)) (fun q => q / 2)%Qc (Zc 50).

(** The reward recorded on a block, as a number. *)
Definition credited (w : world) (block : loc) : res Qc :=
  res_bind (of_option KeyError (dict_get "reward" (deref (heap w) block))) to_number.

Definition chain_inv (w : world) : Prop :=
  (forall block, block ∈ CHAIN w -> (block < length (heap w))%nat) /\
  number_val (REWARD w) = reward_at (Z.of_nat (length (CHAIN w))) /\
  (forall k block, CHAIN w !! k = Some block -> credited w block = Ok (reward_at (Z.of_nat k))).

Lemma reward_at_succ (n : Z) :
  0 <= n ->
  reward_at (n + 1) =
    if decide ((n + 1) `mod` HALVING_INTERVAL = 0)
    then (reward_at n / 2)%Qc else reward_at n.
Proof.
  intros Hn. unfold reward_at, HALVING_INTERVAL.
  destruct (decide ((n + 1) `mod` 210000 = 0)) as [Hz|Hnz].
  - replace (Z.to_nat ((n + 1) `div` 210000))
      with (S (Z.to_nat (n `div` 210000))); [done|].
    Z.div_mod_to_equations. lia.
  - f_equal. Z.div_mod_to_equations. lia.
Qed.

Lemma to_number_value_of_number (r : number) :
  to_number (value_of_number r) = Ok (number_val r).
Proof. by destruct r. Qed.

Lemma reward_after_val (n : nat) (r : number) :
  number_val r = reward_at (Z.of_nat n) ->
  number_val (reward_after (S n) r) = reward_at (Z.of_nat (S n)).
Proof.
  intros Hr. rewrite Nat2Z.inj_succ, <- Z.add_1_r, reward_at_succ by lia.
  unfold reward_after. rewrite Nat2Z.inj_succ, <- Z.add_1_r.
  destruct (decide _); [|done]. simpl. by rewrite Hr.
Qed.

Lemma chain_inv_initial : chain_inv initial_world.
Proof.
  split; [|split].
  - intros block Hb. by apply elem_of_nil in Hb.
  - done.
  - intros k block Hk. by destruct k.
Qed.

Lemma credited_extend (w w' : world) (fresh : store) (block : loc) :
  heap w' = heap w ++ fresh -> (block < length (heap w))%nat ->
  credited w' block = credited w block.
Proof.
  intros Hh Hb. unfold credited, deref. rewrite Hh. by rewrite lookup_app_l.
Qed.

Lemma chain_inv_request (data : dict) (t : Qc) (w : world) :
  chain_inv w -> chain_inv (start_mining data t w).1.
Proof.
  intros (Hlocs & Hreward & Hblocks).
  destruct (start_mining_effect data t w) as ([fresh Hheap] & Hcases).
  set (w' := (start_mining data t w).1) in *.
  assert (length (heap w) <= length (heap w'))%nat as Hgrow.
  { rewrite Hheap, length_app. lia. }
  destruct Hcases as [[Hchain Hrew] | (block & blk & ph & Hchain & Hfresh & Hblk & Hrw & _ & _ & _ & _ & _ & Hrew)].
  - split; [|split].
    + rewrite Hchain. intros block Hb. specialize (Hlocs block Hb). lia.
    + by rewrite Hchain, Hrew.
    + rewrite Hchain. intros k block Hk.
      rewrite (credited_extend w w' fresh block Hheap); [by apply Hblocks|].
      apply Hlocs. by eapply list_elem_of_lookup_2.
  - split; [|split].
    + rewrite Hchain. intros b Hb. apply elem_of_app in Hb as [Hb|Hb].
      * specialize (Hlocs b Hb). lia.
      * apply list_elem_of_singleton in Hb as ->. by eapply lookup_lt_Some.
    + rewrite Hrew, Hchain, length_app. simpl. rewrite Nat.add_1_r.
      by apply reward_after_val.
    + rewrite Hchain. intros k b Hk.
      apply lookup_app_Some in Hk as [Hk | [Hlen Hk]].
      * rewrite (credited_extend w w' fresh b Hheap); [by apply Hblocks|].
        apply Hlocs. by eapply list_elem_of_lookup_2.
      * apply list_lookup_singleton_Some in Hk as [Hk ->].
        replace k with (length (CHAIN w)) by lia.
        unfold credited, deref. rewrite Hblk. simpl. rewrite Hrw. simpl.
        rewrite to_number_value_of_number. by rewrite Hreward.
Qed.

Lemma chain_inv_main (bd_items : dict) (difficulty : string) (num_workers : option Z)
    (t : Qc) :
  chain_inv (main bd_items difficulty num_workers t initial_world).1.
Proof.
  destruct (main_effect bd_items difficulty num_workers t) as (Hrew & Hcases).
  set (w' := (main bd_items difficulty num_workers t initial_world).1) in *.
  destruct Hcases as [Hchain | (block & blk & Hchain & Hblk & Hrw)].
  - split; [|split]; rewrite Hchain.
    + intros block Hb. by apply elem_of_nil in Hb.
    + by rewrite Hrew.
    + intros k block Hk. by destruct k.
  - split; [|split]; rewrite Hchain.
    + intros b Hb. apply list_elem_of_singleton in Hb as ->. by eapply lookup_lt_Some.
    + by rewrite Hrew.
    + intros k b Hk. apply list_lookup_singleton_Some in Hk as [-> ->].
      unfold credited, deref. rewrite Hblk. simpl. by rewrite Hrw.
Qed.

Lemma reachable_chain_inv (w : world) : reachable w -> chain_inv w.
Proof.
  induction 1 as [| bd difficulty nw t | w data t _ IH].
  - apply chain_inv_initial.
  - apply chain_inv_main.
  - by apply chain_inv_request.
Qed.

Lemma reward_at_first_interval (k : Z) : 0 <= k < HALVING_INTERVAL -> reward_at k = Zc 50.
Proof.
  intros Hk. unfold reward_at. by rewrite Z.div_small by done.
Qed.

Lemma reward_at_next_interval (k : Z) :
  0 <= k -> reward_at (k + HALVING_INTERVAL) = (reward_at k / 2)%Qc.
Proof.
  intros Hk. unfold reward_at, HALVING_INTERVAL.
  replace (k + 210000) with (k + 1 * 210000) by lia.
  rewrite Z.div_add by lia.
  rewrite Z2Nat.inj_add by (try apply Z.div_pos; lia).
  rewrite Nat.add_comm. done.
Qed.

(** C4. In every state the process reaches, the block at position [k] of the
    chain (counted from 0) carries the reward 50 halved once per full
    interval of 210000 blocks before it: 50 for each of the first 210000
    blocks, 25 for the 210001st, and half the reward of the block 210000
    places earlier in general; the reward in force is the one for the next
    position. *)
Theorem reward_halving (w : world) :
  reachable w ->
  number_val (REWARD w) = reward_at (Z.of_nat (length (CHAIN w))) /\
  (forall k block, CHAIN w !! k = Some block ->
     credited w block = Ok (reward_at (Z.of_nat k))) /\
  (forall k, 0 <= k < 210000 -> reward_at k = Zc 50) /\
  reward_at 210000 = Zc 25 /\
  (forall k, 0 <= k -> reward_at (k + 210000) = (reward_at k / 2)%Qc).
Proof.
  intros Hw. destruct (reachable_chain_inv w Hw) as (_ & Hrew & Hblocks).
  split; [done|]. split; [done|]. split; [apply reward_at_first_interval|].
  split; [|apply reward_at_next_interval].
  change 210000 with (0 + HALVING_INTERVAL).
  rewrite (reward_at_next_interval 0), reward_at_first_interval by (unfold HALVING_INTERVAL; lia).
  apply Qc_is_canon. reflexivity.
Qed.


(** ** Difficulty validation *)



(** ** Serialization and hashing *)

(** C8. Serialization and hashing depend on the fields of the template and
    not on their insertion order: two dicts with the same items give the
    same text, the same digest for every nonce and the same verdict against
    every target, also when they are two different objects in two different
    stores. *)
Theorem hashing_ignores_insertion_order (d1 d2 : dict) (nonce : Z) :
  NoDup (keys d1) -> d1 ≡ₚ d2 ->
  to_string (VDict d1) = to_string (VDict d2) /\
  candidate_hash d1 nonce = candidate_hash d2 nonce /\
  (forall target, accepted d1 target nonce <-> accepted d2 target nonce) /\
  (forall h1 h2 l1 l2 target,
     h1 !! l1 = Some d1 -> h2 !! l2 = Some d2 ->
     (try_nonce l1 target nonce h1).2 = None <-> (try_nonce l2 target nonce h2).2 = None).
Proof.
  intros Hnd Hp.
  assert (to_string (VDict (candidate d1 nonce)) = to_string (VDict (candidate d2 nonce)))
    as Htext.
  { apply to_string_Permutation.
    - by apply dict_set_NoDup.
    - by apply dict_set_Permutation_proper. }
  assert (forall target, accepted d1 target nonce <-> accepted d2 target nonce) as Hacc.
  { intros target. unfold accepted, hash_int. by rewrite Htext. }
  split; [by apply to_string_Permutation|].
  split; [unfold candidate_hash; by rewrite Htext|].
  split; [done|].
  intros h1 h2 l1 l2 target Hl1 Hl2.
  rewrite (try_nonce_spec l1 target nonce h1 d1 d1 Hl1 eq_refl).
  rewrite (try_nonce_spec l2 target nonce h2 d2 d2 Hl2 eq_refl).
  specialize (Hacc target).
  destruct (decide (accepted d1 target nonce)), (decide (accepted d2 target nonce));
    simpl; try tauto; split; intros; try done; tauto.
Qed.

(** * Further properties *)

(** ** The search returns the least accepted nonce *)

Lemma first_accepted_unique (d : dict) (t : Qc) (start stop n n' : Z) :
  first_accepted d t start stop n -> first_accepted d t start stop n' -> n = n'.
Proof.
  intros (Hn & Hacc & Hbefore) (Hn' & Hacc' & Hbefore').
  destruct (Z.lt_trichotomy n n') as [Hlt | [-> | Hgt]]; [|done|].
  - exfalso. apply (Hbefore' n); [lia | done].
  - exfalso. apply (Hbefore n'); [lia | done].
Qed.

(** The nonces some worker scans: [0, worker_count * nonce_step). *)
Definition scanned (num_workers : option Z) : Z :=
  worker_count num_workers * nonce_step num_workers.

Lemma range_order (num_workers : option Z) (i j : Z) :
  1 <= worker_count num_workers -> i < j ->
  range_stop num_workers i <= range_start num_workers j.
Proof.
  intros Hnw Hij. unfold range_start, range_stop.
  assert (0 <= nonce_step num_workers)
    by (unfold nonce_step; apply Z.div_pos; [done | lia]).
  nia.
Qed.

Lemma mine_least_accepted (bd : loc) (difficulty : Z) (num_workers : option Z) (h : store) :
  target_defined difficulty ->
  1 <= worker_count num_workers ->
  let d := deref h bd in
  let t := calculate_target difficulty in
  exists fresh r,
    mine bd difficulty num_workers h = (h ++ fresh, Ok r) /\
    match r with
    | Some l =>
        (length h <= l)%nat /\
        exists n, first_accepted d t 0 (scanned num_workers) n /\
                  (h ++ fresh) !! l = Some (sealed d n)
    | None => none_accepted d t 0 (scanned num_workers)
    end.
Proof.
  intros Hd Hnw d t.
  destruct (mine_result_spec bd difficulty num_workers h Hd Hnw) as (fresh & r & Hrun & Hres).
  exists fresh, r. split; [exact Hrun|].
  destruct r as [l|].
  - destruct Hres as (i & n & Hi & (Hn & Hacc & Hfirst) & Hbefore & -> & Hl).
    split; [lia|]. exists n. split; [|exact Hl].
    assert (0 <= n < scanned num_workers) as Hscan
      by (apply nonce_ranges_union; eauto).
    split; [exact Hscan|]. split; [exact Hacc|].
    intros m Hm.
    destruct (proj2 (nonce_ranges_union num_workers m Hnw)) as (j & Hj & Hmj);
      [unfold scanned in Hscan; lia|].
    destruct (Z.lt_trichotomy j i) as [Hlt | [-> | Hgt]].
    + apply (Hbefore j); [lia | exact Hmj].
    + apply Hfirst. lia.
    + pose proof (range_order num_workers i j Hnw Hgt). lia.
  - intros m Hm.
    destruct (proj2 (nonce_ranges_union num_workers m Hnw)) as (j & Hj & Hmj);
      [exact Hm|].
    by apply (Hres j).
Qed.


Lemma deref_Some (h : store) (l : loc) (d : dict) : h !! l = Some d -> deref h l = d.
Proof. intros Hl. unfold deref. by rewrite Hl. Qed.

Lemma candidate_text_Permutation (d1 d2 : dict) (n : Z) :
  NoDup (keys d1) -> d1 ≡ₚ d2 ->
  to_string (VDict (candidate d1 n)) = to_string (VDict (candidate d2 n)).
Proof.
  intros Hnd Hp. apply to_string_Permutation.
  - by apply dict_set_NoDup.
  - by apply dict_set_Permutation_proper.
Qed.

Lemma accepted_Permutation (d1 d2 : dict) (t : Qc) (n : Z) :
  NoDup (keys d1) -> d1 ≡ₚ d2 -> accepted d1 t n <-> accepted d2 t n.
Proof.
  intros Hnd Hp. unfold accepted, hash_int.
  rewrite (candidate_text_Permutation d1 d2 n Hnd Hp). tauto.
Qed.

Lemma first_accepted_Permutation (d1 d2 : dict) (t : Qc) (start stop n : Z) :
  NoDup (keys d1) -> d1 ≡ₚ d2 ->
  first_accepted d1 t start stop n -> first_accepted d2 t start stop n.
Proof.
  intros Hnd Hp (Hn & Hacc & Hbefore).
  split; [exact Hn|]. split; [exact (proj1 (accepted_Permutation d1 d2 t n Hnd Hp) Hacc)|].
  intros m Hm Hacc'. exact (Hbefore m Hm (proj2 (accepted_Permutation d1 d2 t m Hnd Hp) Hacc')).
Qed.

Lemma none_accepted_Permutation (d1 d2 : dict) (t : Qc) (start stop : Z) :
  NoDup (keys d1) -> d1 ≡ₚ d2 ->
  none_accepted d1 t start stop -> none_accepted d2 t start stop.
Proof.
  intros Hnd Hp Hnone m Hm Hacc.
  exact (Hnone m Hm (proj2 (accepted_Permutation d1 d2 t m Hnd Hp) Hacc)).
Qed.

(** The nonce and the hash recorded on a block. *)
Definition block_nonce (h : store) (l : loc) : option value := dict_get "nonce" (deref h l).
Definition block_hash (h : store) (l : loc) : option value := dict_get "hash" (deref h l).

(** X1. The least accepted nonce. With a worker and a difficulty that has a
    target (any below [2 ^ 1024 - 2 ^ 970 + 256]), [mine] returns the block
    for the least accepted nonce of the scanned part
    [0, worker_count * nonce_step) of the universe, and [None] when that
    part has no accepted nonce: splitting the search among workers does not
    change which nonce is found. *)
Theorem mine_returns_least_accepted (bd : loc) (difficulty : Z) (num_workers : option Z)
    (h : store) :
  difficulty < 2 ^ 1024 - 2 ^ 970 + 256 ->
  1 <= worker_count num_workers ->
  let d := deref h bd in
  let t := calculate_target difficulty in
  exists h' r,
    mine bd difficulty num_workers h = (h', Ok r) /\
    match r with
    | Some l =>
        exists n, first_accepted d t 0 (scanned num_workers) n /\
                  h' !! l = Some (sealed d n) /\
                  block_nonce h' l = Some (VInt n)
    | None => none_accepted d t 0 (scanned num_workers)
    end.
Proof.
  intros Hd%target_defined_iff Hnw d t.
  destruct (mine_least_accepted bd difficulty num_workers h Hd Hnw) as (fresh & r & Hrun & Hres).
  exists (h ++ fresh), r. split; [exact Hrun|].
  destruct r as [l|]; [|exact Hres].
  destruct Hres as (_ & n & Hfirst & Hl). exists n.
  split; [exact Hfirst|]. split; [exact Hl|].
  unfold block_nonce. rewrite (deref_Some _ _ _ Hl). apply dict_get_sealed_nonce.
Qed.

(** X2. What the outcome depends on. Two runs of [mine] at the same
    difficulty (one that has a target: any below [2 ^ 1024 - 2 ^ 970 + 256])
    on templates with the same items scan the same part of the universe
    when [worker_count * nonce_step] agree (as for any two worker counts
    that divide 2^32); they then both return [None] or return blocks with
    the same nonce and the same hash, whatever the insertion order of the
    fields, the objects and stores holding the templates, and the worker
    counts. *)
Theorem mine_outcome_determined (bd1 bd2 : loc) (difficulty : Z) (nw1 nw2 : option Z)
    (h1 h2 : store) :
  difficulty < 2 ^ 1024 - 2 ^ 970 + 256 ->
  1 <= worker_count nw1 -> 1 <= worker_count nw2 ->
  scanned nw1 = scanned nw2 ->
  NoDup (keys (deref h1 bd1)) -> deref h1 bd1 ≡ₚ deref h2 bd2 ->
  match (mine bd1 difficulty nw1 h1).2, (mine bd2 difficulty nw2 h2).2 with
  | Ok (Some l1), Ok (Some l2) =>
      block_nonce (mine bd1 difficulty nw1 h1).1 l1 = block_nonce (mine bd2 difficulty nw2 h2).1 l2 /\
      block_hash (mine bd1 difficulty nw1 h1).1 l1 = block_hash (mine bd2 difficulty nw2 h2).1 l2 /\
      is_Some (block_nonce (mine bd1 difficulty nw1 h1).1 l1)
  | Ok None, Ok None => True
  | _, _ => False
  end.
Proof.
  intros Hd%target_defined_iff Hnw1 Hnw2 Hscan Hnd Hp.
  destruct (mine_least_accepted bd1 difficulty nw1 h1 Hd Hnw1) as (f1 & r1 & -> & Hres1).
  destruct (mine_least_accepted bd2 difficulty nw2 h2 Hd Hnw2) as (f2 & r2 & -> & Hres2).
  cbn [fst snd]. rewrite <- Hscan in Hres2.
  destruct r1 as [l1|], r2 as [l2|].
  - destruct Hres1 as (_ & n1 & Hf1 & Hl1). destruct Hres2 as (_ & n2 & Hf2 & Hl2).
    apply (first_accepted_Permutation _ _ _ _ _ _ Hnd Hp) in Hf1.
    pose proof (first_accepted_unique _ _ _ _ _ _ Hf1 Hf2) as <-.
    unfold block_nonce, block_hash.
    rewrite (deref_Some _ _ _ Hl1), (deref_Some _ _ _ Hl2).
    rewrite !dict_get_sealed_nonce, !dict_get_sealed_hash.
    split; [done|]. split; [|by eexists].
    unfold candidate_hash. by rewrite (candidate_text_Permutation _ _ n1 Hnd Hp).
  - destruct Hres1 as (_ & n1 & Hf1 & _).
    apply (first_accepted_Permutation _ _ _ _ _ _ Hnd Hp) in Hf1.
    destruct Hf1 as (Hn & Hacc & _). exact (Hres2 n1 Hn Hacc).
  - destruct Hres2 as (_ & n2 & (Hn & Hacc & _) & _).
    apply (none_accepted_Permutation _ _ _ _ _ Hnd Hp) in Hres1. exact (Hres1 n2 Hn Hacc).
  - exact I.
Qed.


(** ** The target at the ends of the difficulty scale *)

(** [2 ** e] as a fraction. *)
Definition pow2_fraction (e : Z) : Q :=
  if decide (0 <= e) then inject_Z (2 ^ e)
  else if decide (-1074 <= e) then 1 # Z.to_pos (2 ^ (- e))
  else inject_Z 0.

Lemma pow2_fraction_spec (e : Z) : pow2 e = Q2Qc (pow2_fraction e).
Proof. unfold pow2, pow2_fraction, Zc. by repeat destruct (decide _). Qed.

Lemma pow2_fraction_mono (e1 e2 : Z) : e1 <= e2 -> (pow2_fraction e1 <= pow2_fraction e2)%Q.
Proof.
  intros He. unfold pow2_fraction, Qle.
  destruct (decide (0 <= e1)), (decide (0 <= e2)); try lia; cbn [Qnum Qden inject_Z].
  - assert (2 ^ e1 <= 2 ^ e2) by (apply Z.pow_le_mono_r; lia). lia.
  - assert (0 < 2 ^ e2) by (apply Z.pow_pos_nonneg; lia).
    destruct (decide (-1074 <= e1)); cbn [Qnum Qden inject_Z]; nia.
  - destruct (decide (-1074 <= e1)), (decide (-1074 <= e2)); try lia;
      cbn [Qnum Qden inject_Z]; try lia.
    assert (0 < 2 ^ (- e2)) by (apply Z.pow_pos_nonneg; lia).
    assert (2 ^ (- e2) <= 2 ^ (- e1)) by (apply Z.pow_le_mono_r; lia).
    rewrite !Z2Pos.id by lia. lia.
Qed.

Lemma calculate_target_mono (d1 d2 : Z) :
  d1 <= d2 -> (calculate_target d2 <= calculate_target d1)%Qc.
Proof.
  intros Hd. unfold calculate_target. rewrite !pow2_fraction_spec.
  apply Q2Qc_le, pow2_fraction_mono. lia.
Qed.

Lemma accepted_mono (d : dict) (d1 d2 n : Z) :
  d1 <= d2 -> accepted d (calculate_target d2) n -> accepted d (calculate_target d1) n.
Proof.
  intros Hd Hacc. unfold accepted in *.
  eapply Qclt_le_trans; [exact Hacc|]. by apply calculate_target_mono.
Qed.

Lemma hash_int_range (d : dict) (n : Z) : 0 <= hash_int d n < 2 ^ 256.
Proof. apply digest_int_range. Qed.

Lemma accepted_nonpositive_difficulty (d : dict) (difficulty n : Z) :
  difficulty <= 0 -> accepted d (calculate_target difficulty) n.
Proof.
  intros Hd. unfold accepted. rewrite calculate_target_int by lia.
  apply (proj1 (Zc_lt _ _)).
  pose proof (hash_int_range d n).
  assert (2 ^ 256 <= 2 ^ (256 - difficulty)) by (apply Z.pow_le_mono_r; lia). lia.
Qed.



(** X3. Easy end. For a difficulty of 0 or below the target exceeds every
    digest: with between 1 and 2^32 workers [mine] returns the template
    sealed with nonce 0. *)
Theorem mine_nonpositive_difficulty (bd : loc) (difficulty : Z) (num_workers : option Z)
    (h : store) :
  difficulty <= 0 -> 1 <= worker_count num_workers <= max_nonce ->
  exists h' l,
    mine bd difficulty num_workers h = (h', Ok (Some l)) /\
    h' !! l = Some (sealed (deref h bd) 0).
Proof.
  intros Hd [Hnw Hmax].
  assert (target_defined difficulty) as Hdef by (apply target_defined_below; lia).
  destruct (mine_least_accepted bd difficulty num_workers h Hdef Hnw)
    as (fresh & r & Hrun & Hres).
  assert (0 < scanned num_workers) as Hpos.
  { unfold scanned, nonce_step.
    assert (1 <= max_nonce `div` worker_count num_workers).
    { apply Z.div_le_lower_bound; lia. }
    nia. }
  destruct r as [l|].
  - destruct Hres as (_ & n & (Hn & _ & Hbefore) & Hl).
    assert (n = 0) as ->.
    { destruct (decide (n = 0)) as [|Hne]; [done|]. exfalso.
      apply (Hbefore 0); [lia|]. by apply accepted_nonpositive_difficulty. }
    exists (h ++ fresh), l. split; [exact Hrun | exact Hl].
  - exfalso. apply (Hres 0); [lia|]. by apply accepted_nonpositive_difficulty.
Qed.


(** X5. Easier is never worse. If [mine] finds a block at some difficulty, it
    finds one at every lower difficulty on the same template and workers,
    with a nonce that is not larger. *)
Theorem mine_easier_difficulty (bd : loc) (d1 d2 : Z) (num_workers : option Z)
    (h h2 : store) (l2 : loc) :
  d1 <= d2 ->
  mine bd d2 num_workers h = (h2, Ok (Some l2)) ->
  exists h1 l1 n1 n2,
    mine bd d1 num_workers h = (h1, Ok (Some l1)) /\
    block_nonce h1 l1 = Some (VInt n1) /\
    block_nonce h2 l2 = Some (VInt n2) /\
    n1 <= n2.
Proof.
  intros Hd Hrun2. pose proof (mine_ok_defined _ _ _ _ _ _ Hrun2) as Hdef2.
  assert (target_defined d1) as Hdef1.
  { apply target_defined_iff. apply target_defined_iff in Hdef2. lia. }
  destruct (decide (1 <= worker_count num_workers)) as [Hnw|Hnw].
  2:{ destruct (mine_no_worker bd d2 num_workers h) as [e He]; [lia|]. congruence. }
  destruct (mine_least_accepted bd d2 num_workers h Hdef2 Hnw) as (f2 & r2 & Hrun2' & Hres2).
  rewrite Hrun2 in Hrun2'. injection Hrun2' as -> <-.
  destruct Hres2 as (_ & n2 & (Hn2 & Hacc2 & _) & Hl2).
  destruct (mine_least_accepted bd d1 num_workers h Hdef1 Hnw) as (f1 & r1 & Hrun1 & Hres1).
  pose proof (accepted_mono _ _ _ _ Hd Hacc2) as Hacc1.
  destruct r1 as [l1|].
  - destruct Hres1 as (_ & n1 & (Hn1 & _ & Hbefore1) & Hl1).
    exists (h ++ f1), l1, n1, n2. split; [exact Hrun1|].
    unfold block_nonce. rewrite (deref_Some _ _ _ Hl1), (deref_Some _ _ _ Hl2).
    rewrite !dict_get_sealed_nonce. split; [reflexivity|]. split; [reflexivity|].
    destruct (decide (n1 <= n2)) as [|Hgt]; [done|]. exfalso.
    apply (Hbefore1 n2); [lia | exact Hacc1].
  - exfalso. exact (Hres1 n2 Hn2 Hacc1).
Qed.


(** ** The block returned by the search *)

Lemma dict_set_new_key (k : string) (v : value) (d : dict) :
  k ∉ keys d -> dict_set k v d = d ++ [(k, v)].
Proof.
  induction d as [|[k' x] d IH]; intros Hk; [done|].
  change (keys ((k', x) :: d)) with (k' :: keys d) in Hk.
  apply not_elem_of_cons in Hk as [Hne Hk]. cbn [dict_set].
  assert (String.eqb k k' = false) as -> by (by apply String.eqb_neq).
  by rewrite IH.
Qed.

Lemma keys_app_singleton (d : dict) (k : string) (v : value) :
  keys (d ++ [(k, v)]) = keys d ++ [k].
Proof. unfold keys. by rewrite map_app. Qed.

(** X6. Frame of the search. The block [mine] returns is a new object, not the
    caller's dict; every field other than 'nonce' and 'hash' has the value
    it has in the template, and for a template without these two keys the
    block is the template followed by the nonce and the hash, in this
    order. *)
Theorem mine_block_extends_template (bd : loc) (difficulty : Z) (num_workers : option Z)
    (h h' : store) (l : loc) (d : dict) :
  mine bd difficulty num_workers h = (h', Ok (Some l)) ->
  h !! bd = Some d ->
  l <> bd /\
  exists block,
    h' !! l = Some block /\
    (forall k, k <> "nonce"%string -> k <> "hash"%string -> dict_get k block = dict_get k d) /\
    ("nonce"%string ∉ keys d -> "hash"%string ∉ keys d ->
     exists n new_hash, block = d ++ [("nonce", VInt n); ("hash", VStr new_hash)]%string).
Proof.
  intros Hrun Hbd. pose proof (mine_ok_defined _ _ _ _ _ _ Hrun) as Hd.
  destruct (decide (1 <= worker_count num_workers)) as [Hnw|Hnw].
  2:{ destruct (mine_no_worker bd difficulty num_workers h) as [e He]; [lia|]. congruence. }
  destruct (mine_least_accepted bd difficulty num_workers h Hd Hnw) as (fresh & r & Hrun' & Hres).
  rewrite Hrun in Hrun'. injection Hrun' as -> <-.
  destruct Hres as (Hfresh & n & _ & Hl).
  rewrite (deref_Some _ _ _ Hbd) in Hl.
  split; [apply lookup_lt_Some in Hbd; lia|].
  exists (sealed d n). split; [exact Hl|]. split.
  - intros k Hk1 Hk2. unfold sealed, candidate.
    rewrite !dict_get_set_ne by congruence. reflexivity.
  - intros Hn Hh. exists n, (candidate_hash d n). unfold sealed, candidate.
    rewrite (dict_set_new_key "nonce" _ d Hn).
    rewrite dict_set_new_key.
    + by rewrite <- app_assoc.
    + rewrite keys_app_singleton, elem_of_app, list_elem_of_singleton.
      intros [?|?]; [tauto | discriminate].
Qed.

(** ** Hashing a serialized value never fails *)

Lemma length_hex_fixed (n : nat) (x : Z) (acc : string) :
  String.length (hex_fixed n x acc) = (n + String.length acc)%nat.
Proof.
  revert x acc. induction n as [|n IH]; intros x acc; [done|].
  cbn [hex_fixed]. rewrite IH. simpl. lia.
Qed.

(** X7. Whatever JSON value is serialized, [to_string] gives pure ASCII, so that
    [text.encode("ascii")] in [SHA256] cannot fail, and the digest has 64
    characters and parses with [int(_, 16)] to a number in [0, 2^256). *)
Theorem digest_of_serialized_value (data : value) :
  ascii_only (to_string data) /\
  String.length (SHA256 (to_string data)) = 64%nat /\
  exists v, int16 (SHA256 (to_string data)) = Some v /\ 0 <= v < 2 ^ 256.
Proof.
  split; [apply to_string_ascii|]. split.
  - unfold SHA256. by rewrite length_hex_fixed.
  - exists (digest_int (to_string data)). split; [apply int16_SHA256 | apply digest_int_range].
Qed.

(** ** How much of the universe is scanned *)

(** X8. The ranges never overlap, they cover [0, worker_count * nonce_step),
    and exactly [2^32 mod worker_count] nonces at the top of the universe,
    fewer than the number of workers, belong to no range; the universe is
    covered whole exactly when the worker count divides 2^32. *)
Theorem nonce_ranges_coverage (num_workers : option Z) :
  1 <= worker_count num_workers ->
  (forall i j n,
     range_start num_workers i <= n < range_stop num_workers i ->
     range_start num_workers j <= n < range_stop num_workers j -> i = j) /\
  (forall n,
     (exists i, 0 <= i < worker_count num_workers /\
                range_start num_workers i <= n < range_stop num_workers i) <->
     0 <= n < scanned num_workers) /\
  max_nonce - scanned num_workers = max_nonce `mod` worker_count num_workers /\
  0 <= max_nonce - scanned num_workers < worker_count num_workers /\
  (scanned num_workers = max_nonce <-> max_nonce `mod` worker_count num_workers = 0).
Proof.
  intros Hnw.
  assert (max_nonce - scanned num_workers = max_nonce `mod` worker_count num_workers) as Hrest.
  { unfold scanned, nonce_step.
    pose proof (Z.div_mod max_nonce (worker_count num_workers) ltac:(lia)). lia. }
  pose proof (Z.mod_pos_bound max_nonce (worker_count num_workers) ltac:(lia)) as Hmod.
  split; [|split; [|split; [|split]]].
  - intros i j n Hi Hj. by eapply nonce_ranges_disjoint.
  - intros n. by apply nonce_ranges_union.
  - exact Hrest.
  - lia.
  - lia.
Qed.


(** ** The block a request appends *)


(** The block a request appends: its template, then the nonce, the hash,
    the mining time and the reward. *)
Definition request_block (tmpl : dict) (n : Z) (t : Qc) (r : number) : dict :=
  tmpl ++ [("nonce", VInt n); ("hash", VStr (candidate_hash tmpl n));
           ("mining_time", VFloat t); ("reward", value_of_number r)]%string.

Lemma request_block_spec (data : dict) (w : world) (ph : value) (n : Z) (t : Qc)
    (r : number) :
  dict_set "reward" (value_of_number r)
    (dict_set "mining_time" (VFloat t) (sealed (request_template data w ph) n))
  = request_block (request_template data w ph) n t r.
Proof.
  unfold request_block, sealed.
  generalize (candidate_hash (request_template data w ph) n). intros new_hash.
  unfold candidate, request_template. reflexivity.
Qed.


(** ** The well-formed chain *)

(** A block as the program appends it: a hash below the easiest target, a
    float mining time and a block number. *)
Definition block_ok (blk : dict) : Prop :=
  (exists new_hash v,
     dict_get "hash" blk = Some (VStr new_hash) /\
     int16 new_hash = Some v /\ 0 <= v < 2 ^ 254) /\
  (exists t, dict_get "mining_time" blk = Some (VFloat t)) /\
  is_Some (dict_get "block_number" blk).

(** [blk] names the hash of [prev] as its previous hash. *)
Definition linked (prev blk : dict) : Prop :=
  exists ph, dict_get "hash" prev = Some ph /\ dict_get "previous_hash" blk = Some ph.

Definition chain_wf (w : world) : Prop :=
  (forall block, block ∈ CHAIN w -> (block < length (heap w))%nat) /\
  (forall k block, CHAIN w !! k = Some block -> block_ok (deref (heap w) block)) /\
  (forall k b1 b2,
     CHAIN w !! k = Some b1 -> CHAIN w !! S k = Some b2 ->
     linked (deref (heap w) b1) (deref (heap w) b2) /\
     dict_get "block_number" (deref (heap w) b2) = Some (VInt (Z.of_nat (S k) + 1))).

Lemma accepted_supported_below (d : dict) (bits n : Z) :
  bits ∈ supported_difficulties -> accepted d (calculate_target bits) n ->
  0 <= hash_int d n < 2 ^ 254.
Proof.
  intros Hbits%supported_difficulties_range Hacc.
  pose proof (hash_int_range d n) as Hrange. split; [lia|].
  assert (accepted d (calculate_target 2) n) as Hacc2 by (apply (accepted_mono d 2 bits); [lia|done]).
  unfold accepted in Hacc2. rewrite calculate_target_int in Hacc2 by lia.
  by apply Zc_lt in Hacc2.
Qed.

Lemma sealed_block_ok (tmpl : dict) (bits n : Z) (t : Qc) (r : value) :
  bits ∈ supported_difficulties -> accepted tmpl (calculate_target bits) n ->
  is_Some (dict_get "block_number" tmpl) ->
  block_ok (dict_set "reward" r (dict_set "mining_time" (VFloat t) (sealed tmpl n))).
Proof.
  intros Hbits Hacc Hbn. split; [|split].
  - exists (candidate_hash tmpl n), (hash_int tmpl n).
    rewrite !dict_get_set_ne by done. rewrite dict_get_sealed_hash.
    split; [reflexivity|]. split; [apply int16_candidate_hash|].
    by eapply accepted_supported_below.
  - exists t. rewrite dict_get_set_ne by done. apply dict_get_set_eq.
  - unfold sealed, candidate. by repeat apply dict_get_is_Some_set.
Qed.

Lemma deref_extend (h fresh : store) (l : loc) :
  (l < length h)%nat -> deref (h ++ fresh) l = deref h l.
Proof. intros Hl. unfold deref. by rewrite lookup_app_l. Qed.

Lemma chain_wf_initial : chain_wf initial_world.
Proof.
  split; [|split].
  - intros block Hb. by apply elem_of_nil in Hb.
  - intros k block Hk. by destruct k.
  - intros k b1 b2 Hk. by destruct k.
Qed.


Lemma request_block_fields (data : dict) (w : world) (ph : value) (n : Z) (t : Qc)
    (r : number) :
  dict_get "previous_hash" (request_block (request_template data w ph) n t r) = Some ph /\
  dict_get "block_number" (request_block (request_template data w ph) n t r)
    = Some (VInt (Z.of_nat (length (CHAIN w)) + 1)).
Proof.
  unfold request_block.
  generalize (candidate_hash (request_template data w ph) n). intros new_hash.
  unfold request_template. split; reflexivity.
Qed.


(** ** retarget_difficulty on a well-formed chain *)

Lemma sum_mining_time_total (h : store) (blocks : list loc) :
  (forall b, b ∈ blocks -> exists t, dict_get "mining_time" (deref h b) = Some (VFloat t)) ->
  exists ts, Forall2 (fun b x => mining_time_of h b = Some x) blocks ts.
Proof.
  induction blocks as [|b blocks IH]; intros Hall; [by exists []|].
  destruct (Hall b) as [t Ht]; [by left|].
  destruct IH as [ts Hts]; [intros b' Hb'; apply Hall; by right|].
  exists (t :: ts). constructor; [|done]. unfold mining_time_of. by rewrite Ht.
Qed.

Lemma retarget_difficulty_ok (w : world) :
  chain_wf w ->
  exists z, (retarget_difficulty w).2 = Ok z /\ (z = 1 \/ z = 0 \/ z = -1) /\
            (Z.of_nat (length (CHAIN w)) `mod` 10 <> 0 -> z = 0) /\
            (CHAIN w = [] -> z = 0).
Proof.
  intros (_ & Hok & _).
  destruct (sum_mining_time_total (heap w) (last_n 10 (CHAIN w))) as [ts Hts].
  { intros b Hb. unfold last_n in Hb.
    apply list_elem_of_lookup in Hb as [k Hk]. rewrite lookup_drop in Hk.
    destruct (Hok _ _ Hk) as (_ & Ht & _). exact Ht. }
  destruct (decide (length (CHAIN w) <> 0%nat /\ Z.of_nat (length (CHAIN w)) `mod` 10 = 0))
    as [Hb|Hno].
  - destruct (retarget_difficulty_at_boundary w ts Hb Hts) as [_ ->].
    destruct Hb as [Hne Hmod].
    eexists. split; [reflexivity|]. split; [repeat case_decide; tauto|].
    split; [intros; lia|]. intros Hnil. by rewrite Hnil in Hne.
  - unfold retarget_difficulty.
    destruct (decide _) as [[Hgt Hmod]|_].
    { exfalso. apply Hno. split; [lia | done]. }
    exists 0. simpl. split; [reflexivity|]. split; [tauto|]. split; done.
Qed.


(** ** The monitoring record and the saved files *)

Lemma sbind_ok {A B} (m : SM A) (k : A -> SM B) (s s' : system) (a : A) :
  m s = (s', Ok a) -> sbind m k s = k a s'.
Proof. intros Hm. unfold sbind. by rewrite Hm. Qed.

Lemma sbind_raise {A B} (m : SM A) (k : A -> SM B) (s s' : system) (e : exn) :
  m s = (s', Raise e) -> sbind m k s = (s', Raise e).
Proof. intros Hm. unfold sbind. by rewrite Hm. Qed.

Lemma on_core_run {A} (m : M A) (s : system) (w : world) (r : res A) :
  m (core s) = (w, r) -> on_core m s = (System w (mining_info s) (files s), r).
Proof. intros Hm. unfold on_core. by rewrite Hm. Qed.

(** What [mine] writes to the monitoring record. *)
Definition info_after_mine (elapsed_time : Qc) (r : option loc) (info : dict) : dict :=
  let hash_rate := float_div (Finite (Zc max_nonce)) elapsed_time in
  let info := dict_set "hash_rate" (VFloat (stored_float hash_rate)) info in
  match r with
  | Some _ => dict_set "mining_time" (VFloat elapsed_time) info
  | None => info
  end.

Lemma mine_full_no_worker (bd : loc) (difficulty : Z) (num_workers : option Z) (e : Qc)
    (s : system) :
  worker_count num_workers < 1 ->
  exists x, mine_full bd difficulty num_workers e s = (s, Raise x) /\
            mine bd difficulty num_workers (heap (core s)) = (heap (core s), Raise x).
Proof.
  intros Hnw. unfold mine_full, mine. fold (worker_count num_workers).
  destruct (decide (~ target_defined difficulty)); [by eexists|].
  destruct (decide (worker_count num_workers = 0)); [by eexists|].
  destruct (decide (worker_count num_workers < 1)); [by eexists | lia].
Qed.

Lemma mine_full_overflow (bd : loc) (difficulty : Z) (num_workers : option Z) (e : Qc)
    (s : system) :
  ~ target_defined difficulty ->
  mine_full bd difficulty num_workers e s = (s, Raise OverflowError).
Proof. intros Hd. unfold mine_full. by destruct (decide (~ target_defined difficulty)). Qed.

Lemma mine_full_worker (bd : loc) (difficulty : Z) (num_workers : option Z) (e : Qc)
    (s : system) (h' : store) (r : option loc) :
  1 <= worker_count num_workers ->
  mine bd difficulty num_workers (heap (core s)) = (h', Ok r) ->
  mine_full bd difficulty num_workers e s =
    let w' := World h' (CHAIN (core s)) (REWARD (core s)) in
    if decide (e = 0%Qc) then (System w' (mining_info s) (files s), Raise ZeroDivisionError)
    else (System w' (info_after_mine e r (mining_info s)) (files s), Ok r).
Proof.
  intros Hnw. unfold mine_full, mine. fold (worker_count num_workers).
  destruct (decide (~ target_defined difficulty)); [discriminate|].
  destruct (decide (worker_count num_workers = 0)); [lia|].
  destruct (decide (worker_count num_workers < 1)); [lia|].
  destruct (make_args _ _ _ _ _) as [h1 args].
  destruct (pool_map args h1) as [h2 [results|x]]; [|discriminate].
  intros Hrun. injection Hrun as -> <-.
  cbn zeta. destruct (decide (e = 0%Qc)); [reflexivity|].
  unfold info_after_mine, set_info. cbn [fst core mining_info files].
  by destruct (first_result h' results).
Qed.


(** The monitoring record once a request has passed the difficulty lookup. *)
Definition info_mining (data : dict) (s : system) : dict :=
  dict_set "difficulty" (default (VStr "Medium") (dict_get "difficulty" data))
    (dict_set "current_block" (VInt (Z.of_nat (length (CHAIN (core s))) + 1))
       (dict_set "status" (VStr "mining") (mining_info s))).

Definition info_idle (info : dict) : dict := dict_set "status" (VStr "idle") info.

(** The arguments of a request as [mine] receives them. *)
Definition request_difficulty (data : dict) : res Z :=
  lookup_difficulty (default (VStr "Medium") (dict_get "difficulty" data)).

Definition request_workers (data : dict) : res (option Z) :=
  as_num_workers (default VNone (dict_get "num_workers" data)).


Lemma add_block_to_chain_ok (block : loc) (w : world) :
  is_Some (dict_get "block_number" (deref (heap w) block)) ->
  add_block_to_chain block w = (World (heap w) (CHAIN w ++ [block]) (REWARD w), Ok tt).
Proof.
  intros [v Hv].
  pose proof (add_block_to_chain_world block w) as H1.
  pose proof (add_block_to_chain_result block w) as H2.
  rewrite Hv in H2. destruct (add_block_to_chain block w) as [w' r].
  simpl in H1, H2. by subst.
Qed.

(** The tail of a request once a block has been found. *)
Lemma finish_mining_full_outcome (block : loc) (t : Qc) (name : string) (s : system)
    (d : dict) :
  heap (core s) !! block = Some d -> is_Some (dict_get "block_number" d) ->
  let blk := dict_set "reward" (value_of_number (REWARD (core s)))
               (dict_set "mining_time" (VFloat t) d) in
  let w' := World (setitem block "reward" (value_of_number (REWARD (core s)))
                     (setitem block "mining_time" (VFloat t) (heap (core s))))
                  (CHAIN (core s) ++ [block])
                  (reward_after (length (CHAIN (core s) ++ [block])) (REWARD (core s))) in
  let fs' := <[name := dumps_indent 0 (VDict blk)]> (files s) in
  (on_core (setitem_w block "mining_time" (VFloat t)) ;;;
   on_core (fun w => setitem_w block "reward" (value_of_number (REWARD w)) w) ;;;
   save_block_data block name ;;;
   on_core (add_block_to_chain block) ;;;
   on_core halving_check ;;;
   _ <- on_core retarget_difficulty ;;
   set_info "status" (VStr "idle") ;;;
   sret (Some block))%sys s
  = match (retarget_difficulty w').2 with
    | Ok _ => (System w' (info_idle (mining_info s)) fs', Ok (Some block))
    | Raise x => (System w' (mining_info s) fs', Raise x)
    end.
Proof.
  intros Hl Hbn blk w' fs'. destruct s as [w info fs]. cbn [core mining_info files] in *.
  pose proof (lookup_setitem_eq block "mining_time" (VFloat t) _ _ Hl) as Hl1.
  pose proof (lookup_setitem_eq block "reward" (value_of_number (REWARD w)) _ _ Hl1) as Hl2.
  fold blk in Hl2.
  set (h2 := setitem block "reward" (value_of_number (REWARD w))
               (setitem block "mining_time" (VFloat t) (heap w))) in *.
  erewrite sbind_ok by reflexivity.
  erewrite sbind_ok by reflexivity.
  cbn [core mining_info files heap CHAIN REWARD].
  fold h2.
  erewrite sbind_ok.
  2:{ unfold save_block_data. cbn [core mining_info files heap].
      rewrite (deref_Some _ _ _ Hl2). reflexivity. }
  fold fs'.
  erewrite sbind_ok.
  2:{ apply on_core_run. cbn [core]. apply add_block_to_chain_ok. cbn [heap].
      rewrite (deref_Some _ _ _ Hl2). unfold blk. by repeat apply dict_get_is_Some_set. }
  cbn [core mining_info files heap CHAIN REWARD].
  rewrite (sbind_ok _ _ _ (System w' info fs') tt).
  2:{ apply on_core_run. cbn [core]. unfold halving_check. cbn [heap CHAIN REWARD].
      unfold w', reward_after. by destruct (decide _). }
  cbn [core mining_info files].
  pose proof (retarget_difficulty_world w') as Hw'.
  destruct (retarget_difficulty w') as [w3 [z|x]] eqn:Hret; simpl in Hw'; subst w3.
  - erewrite sbind_ok by (apply on_core_run; exact Hret). reflexivity.
  - erewrite sbind_raise by (apply on_core_run; exact Hret). reflexivity.
Qed.

Lemma start_mining_full_outcome (data : dict) (e t : Qc) (s : system) :
  exists s' r,
    start_mining_full data e t s = (s', r) /\
    (exists fresh, heap (core s') = heap (core s) ++ fresh) /\
    ((CHAIN (core s') = CHAIN (core s) /\ REWARD (core s') = REWARD (core s) /\
      files s' = files s /\
      ((mining_info s' = mining_info s /\
        exists x, r = Raise x /\
          (expected_previous_hash (core s) = Raise x \/
           request_difficulty data = Raise x)) \/
       (mining_info s' = info_mining data s /\
        (exists bits, request_difficulty data = Ok bits) /\
        exists x, r = Raise x /\
          (request_workers data = Raise x \/
           (exists workers, request_workers data = Ok workers /\ worker_count workers < 1) \/
           (exists workers, request_workers data = Ok workers /\
              1 <= worker_count workers /\ e = 0%Qc /\ x = ZeroDivisionError))) \/
       (mining_info s' = info_idle (info_after_mine e None (info_mining data s)) /\
        r = Ok None /\ e <> 0%Qc /\
        (exists bits, request_difficulty data = Ok bits) /\
        exists workers, request_workers data = Ok workers /\ 1 <= worker_count workers))) \/
     (exists block ph bits n workers,
        e <> 0%Qc /\
        expected_previous_hash (core s) = Ok ph /\
        request_difficulty data = Ok bits /\
        request_workers data = Ok workers /\ 1 <= worker_count workers /\
        accepted (request_template data (core s) ph) (calculate_target bits) n /\
        (length (heap (core s)) <= block)%nat /\
        heap (core s') !! block =
          Some (request_block (request_template data (core s) ph) n t (REWARD (core s))) /\
        CHAIN (core s') = CHAIN (core s) ++ [block] /\
        REWARD (core s') =
          reward_after (length (CHAIN (core s) ++ [block])) (REWARD (core s)) /\
        files s' =
          <[block_file (Z.of_nat (length (CHAIN (core s))) + 1) :=
              dumps_indent 0 (VDict (request_block (request_template data (core s) ph) n t
                                       (REWARD (core s))))]> (files s) /\
        match (retarget_difficulty (core s')).2 with
        | Ok _ =>
            r = Ok (Some block) /\
            mining_info s' = info_idle (info_after_mine e (Some block) (info_mining data s))
        | Raise x =>
            r = Raise x /\
            mining_info s' = info_after_mine e (Some block) (info_mining data s)
        end)).
Proof.
  destruct s as [w info fs].
  assert (forall h : store, exists fresh, h = h ++ fresh) as Hnil
    by (intros h; exists []; by rewrite app_nil_r).
  set (s := System w info fs).
  remember (start_mining_full data e t s) as out eqn:Hout.
  unfold start_mining_full in Hout.
  set (prev := match last (CHAIN (core s)) with
               | Some tail => getitem tail "hash"
               | None => ret (VStr zeros64)
               end) in Hout.
  assert (on_core prev s = (s, expected_previous_hash w)) as Hprev.
  { unfold on_core, prev, expected_previous_hash, s. cbn [core mining_info files].
    by destruct (last (CHAIN w)). }
  unfold request_difficulty, request_workers.
  change (core s) with w. change (files s) with fs. change (mining_info s) with info.
  destruct (expected_previous_hash w) as [ph|x] eqn:Hph.
  2:{ rewrite (sbind_raise _ _ _ _ _ Hprev) in Hout. subst out.
      exists s, (Raise x). split; [done|]. split; [apply Hnil|]. left.
      split; [done|]. split; [done|]. split; [done|]. left. split; [done|]. eauto. }
  rewrite (sbind_ok _ _ _ _ _ Hprev) in Hout.
  change (core s) with w in Hout.
  fold (request_template data w ph) in Hout.
  set (tmpl := request_template data w ph) in *.
  unfold sbind at 1, on_core at 1, new_dict at 1 in Hout.
  change (core s) with w in Hout. change (files s) with fs in Hout.
  change (mining_info s) with info in Hout.
  set (w1 := World (heap w ++ [tmpl]) (CHAIN w) (REWARD w)) in *.
  set (bd := length (heap w)) in *.
  assert (exists fresh, heap w1 = heap w ++ fresh) as Hw1 by (by exists [tmpl]).
  unfold sbind at 1, on_core at 1, lift at 1 in Hout.
  cbn [core mining_info files] in Hout.
  destruct (lookup_difficulty _) as [bits|x] eqn:Hbits.
  2:{ subst out. exists (System w1 info fs), (Raise x). split; [done|]. split; [exact Hw1|].
      left. split; [done|]. split; [done|]. split; [done|]. left. split; [done|].
      exists x. split; [done|]. by right. }
  unfold sbind at 1, set_info at 1 in Hout. cbn [core mining_info files] in Hout.
  unfold sbind at 1, set_info at 1 in Hout. cbn [core mining_info files] in Hout.
  unfold sbind at 1, set_info at 1 in Hout. cbn [core mining_info files] in Hout.
  change (dict_set "difficulty" _ (dict_set "current_block" _ (dict_set "status" _ info)))
    with (info_mining data s) in Hout.
  change (info_mining data (System w info fs)) with (info_mining data s).
  set (s1 := System w1 (info_mining data s) fs) in *.
  unfold sbind at 1, on_core at 1, lift at 1 in Hout.
  cbn [core mining_info files] in Hout.
  destruct (as_num_workers _) as [workers|x] eqn:Hworkers.
  2:{ subst out. exists s1, (Raise x). split; [done|]. split; [exact Hw1|].
      left. split; [done|]. split; [done|]. split; [done|]. right. left. split; [done|].
      split; [by eexists|]. exists x. split; [done|]. by left. }
  unfold sbind at 1 in Hout.
  change (System (core s1) (mining_info s1) (files s1)) with s1 in Hout.
  destruct (decide (1 <= worker_count workers)) as [Hnw|Hnw].
  2:{ destruct (mine_full_no_worker bd bits workers e s1) as (x & Hx & _); [lia|].
      rewrite Hx in Hout. subst out. exists s1, (Raise x).
      split; [done|]. split; [exact Hw1|].
      left. split; [done|]. split; [done|]. split; [done|]. right. left. split; [done|].
      split; [by eexists|]. exists x. split; [done|]. right. left. exists workers.
      split; [done|lia]. }
  destruct (mine_least_accepted bd bits workers (heap w1)
              (lookup_difficulty_defined _ _ Hbits) Hnw) as (fresh & r & Hrun & Hres).
  rewrite (mine_full_worker bd bits workers e s1 _ _ Hnw Hrun) in Hout.
  cbn zeta in Hout. change (core s1) with w1 in Hout.
  change (mining_info s1) with (info_mining data s) in Hout.
  change (files s1) with fs in Hout.
  assert (deref (heap w1) bd = tmpl) as Htmpl.
  { unfold deref, w1, bd. simpl. by rewrite list_lookup_middle. }
  rewrite Htmpl in Hres.
  set (w2 := World (heap w1 ++ fresh) (CHAIN w1) (REWARD w1)) in *.
  assert (exists fresh', heap w2 = heap w ++ fresh') as Hw2.
  { exists ([tmpl] ++ fresh). unfold w2, w1. simpl. by rewrite <- app_assoc. }
  destruct (decide (e = 0%Qc)) as [He|He].
  { subst out. eexists _, _. split; [reflexivity|]. split; [exact Hw2|].
    left. split; [done|]. split; [done|]. split; [done|]. right. left. split; [done|].
    split; [by eexists|]. exists ZeroDivisionError. split; [done|]. right. right.
    exists workers. done. }
  set (s2 := System w2 (info_after_mine e r (info_mining data s)) fs) in *.
  unfold sbind at 1, on_core at 1, result_truthy at 1 in Hout.
  change (core s2) with w2 in Hout. cbn [mining_info files] in Hout.
  change (System w2 (mining_info s2) (files s2)) with s2 in Hout.
  destruct r as [block|].
  2:{ subst out. eexists _, _. split; [reflexivity|]. split; [exact Hw2|].
      left. split; [done|]. split; [done|]. split; [done|]. right. right.
      split; [done|]. split; [done|]. split; [done|]. split; [by eexists|].
      exists workers. done. }
  destruct Hres as (Hfreshloc & n & (_ & Hacc & _) & Hblock).
  assert (object_truthy (heap w2) (Some block) = true) as Htrue.
  { unfold object_truthy, deref. change (heap w2) with (heap w1 ++ fresh).
    rewrite Hblock. apply sealed_truthy. }
  rewrite Htrue in Hout.
  assert (is_Some (dict_get "block_number" (sealed tmpl n))) as Hbn.
  { unfold sealed, candidate. rewrite !dict_get_set_ne by done. by eexists. }
  rewrite (finish_mining_full_outcome block t _ s2 (sealed tmpl n) Hblock Hbn) in Hout.
  cbn zeta in Hout. change (core s2) with w2 in Hout.
  change (REWARD w2) with (REWARD w) in Hout. change (CHAIN w2) with (CHAIN w) in Hout.
  change (files s2) with fs in Hout.
  change (mining_info s2) with (info_after_mine e (Some block) (info_mining data s)) in Hout.
  assert (length (heap w) <= block)%nat as Hloc.
  { unfold w1 in Hfreshloc. simpl in Hfreshloc. rewrite length_app in Hfreshloc. lia. }
  unfold tmpl in Hout at 1. rewrite request_block_spec in Hout. fold tmpl in Hout.
  set (w3 := World _ (CHAIN w ++ [block]) _) in Hout.
  assert (heap w3 !! block = Some (request_block tmpl n t (REWARD w))) as Hblk.
  { pose proof (lookup_setitem_eq block "mining_time" (VFloat t) _ _ Hblock) as H1.
    pose proof (lookup_setitem_eq block "reward" (value_of_number (REWARD w)) _ _ H1) as H2.
    unfold tmpl in H2. rewrite request_block_spec in H2. exact H2. }
  assert (exists fresh', heap w3 = heap w ++ fresh') as Hw3.
  { destruct Hw2 as [fresh' Hw2]. unfold w3. cbn [heap]. rewrite Hw2.
    destruct (setitem_app_r block "mining_time" (VFloat t) (heap w) fresh' Hloc)
      as [fresh1 ->].
    destruct (setitem_app_r block "reward" (value_of_number (REWARD w)) (heap w) fresh1 Hloc)
      as [fresh2 ->].
    by exists fresh2. }
  destruct (retarget_difficulty w3) as [w4 [z|x]] eqn:Hret; cbn [snd] in Hout; subst out.
  - eexists _, _. split; [reflexivity|]. cbn [core mining_info files]. split; [exact Hw3|].
    right. exists block, ph, bits, n, workers. rewrite Hret. cbn [snd].
    split; [done|]. split; [done|]. split; [done|]. split; [done|]. split; [done|].
    split; [exact Hacc|].
    split; [done|]. split; [exact Hblk|]. split; [done|]. split; [done|]. split; done.
  - eexists _, _. split; [reflexivity|]. cbn [core mining_info files]. split; [exact Hw3|].
    right. exists block, ph, bits, n, workers. rewrite Hret. cbn [snd].
    split; [done|]. split; [done|]. split; [done|]. split; [done|]. split; [done|].
    split; [exact Hacc|].
    split; [done|]. split; [exact Hblk|]. split; [done|]. split; [done|]. split; done.
Qed.


(** The script body, in full: at most one block, credited 50 and saved to
    [save_file]; the monitoring record only learns what [mine] reports. *)
Lemma main_full_outcome (bd_items : dict) (difficulty : string) (num_workers : option Z)
    (save_file : string) (e t : Qc) (disk : gmap string string) :
  exists s' r,
    main_full bd_items difficulty num_workers save_file e t (initial_system disk) = (s', r) /\
    REWARD (core s') = Int 50 /\
    (mining_info s' = initial_mining_info \/
     exists o, mining_info s' = info_after_mine e o initial_mining_info) /\
    ((CHAIN (core s') = [] /\ files s' = disk /\ (r = Ok tt \/ exists x, r = Raise x)) \/
     (exists block bits n,
        e <> 0%Qc /\
        lookup_difficulty (VStr difficulty) = Ok bits /\
        accepted bd_items (calculate_target bits) n /\
        is_Some (dict_get "block_number" bd_items) /\
        CHAIN (core s') = [block] /\
        heap (core s') !! block =
          Some (dict_set "reward" (VInt 50)
                  (dict_set "mining_time" (VFloat t) (sealed bd_items n))) /\
        files s' =
          <[save_file := dumps_indent 0
                           (VDict (dict_set "reward" (VInt 50)
                                     (dict_set "mining_time" (VFloat t)
                                        (sealed bd_items n))))]> disk /\
        r = Ok tt)).
Proof.
  set (s := initial_system disk).
  remember (main_full bd_items difficulty num_workers save_file e t s) as out eqn:Hout.
  unfold main_full in Hout.
  unfold sbind at 1, on_core at 1, new_dict at 1 in Hout.
  cbn [core mining_info files s initial_system heap CHAIN REWARD initial_world] in Hout.
  change ([] ++ [bd_items]) with [bd_items] in Hout.
  change (length (@nil dict)) with 0%nat in Hout.
  set (w1 := World [bd_items] [] (Int 50)) in *.
  set (s1 := System w1 initial_mining_info disk) in *.
  unfold sbind at 1, on_core at 1, lift at 1 in Hout.
  change (System (core s1) (mining_info s1) (files s1)) with s1 in Hout.
  destruct (lookup_difficulty _) as [bits|x] eqn:Hbits.
  2:{ subst out. exists s1, (Raise x). split; [done|]. split; [done|]. split; [by left|].
      left. eauto. }
  unfold sbind at 1, on_core at 1, getitem at 1 in Hout.
  change (deref (heap (core s1)) 0%nat) with bd_items in Hout.
  change (System (core s1) (mining_info s1) (files s1)) with s1 in Hout.
  destruct (dict_get "block_number" bd_items) as [bn|] eqn:Hbn0.
  2:{ subst out. exists s1, (Raise KeyError). split; [done|]. split; [done|].
      split; [by left|]. left. eauto. }
  cbn [of_option] in Hout.
  unfold sbind at 1 in Hout.
  destruct (decide (1 <= worker_count num_workers)) as [Hnw|Hnw].
  2:{ destruct (mine_full_no_worker 0%nat bits num_workers e s1) as (x & Hx & _); [lia|].
      rewrite Hx in Hout. subst out. exists s1, (Raise x).
      split; [done|]. split; [done|]. split; [by left|]. left. eauto. }
  destruct (mine_least_accepted 0%nat bits num_workers (heap w1)
              (lookup_difficulty_defined _ _ Hbits) Hnw) as (fresh & r & Hrun & Hres).
  rewrite (mine_full_worker 0%nat bits num_workers e s1 _ _ Hnw Hrun) in Hout.
  cbn zeta in Hout. change (core s1) with w1 in Hout.
  change (mining_info s1) with initial_mining_info in Hout.
  change (files s1) with disk in Hout.
  change (deref (heap w1) 0%nat) with bd_items in Hres.
  set (w2 := World (heap w1 ++ fresh) (CHAIN w1) (REWARD w1)) in *.
  destruct (decide (e = 0%Qc)) as [He|He].
  { subst out. eexists _, _. split; [reflexivity|]. split; [done|]. split; [by left|].
    left. eauto. }
  set (s2 := System w2 (info_after_mine e r initial_mining_info) disk) in *.
  unfold sbind at 1, on_core at 1, result_truthy at 1 in Hout.
  change (core s2) with w2 in Hout.
  change (System w2 (mining_info s2) (files s2)) with s2 in Hout.
  destruct r as [block|].
  2:{ subst out. exists s2, (Ok tt). split; [done|]. split; [done|]. split; [right; by eexists|].
      left. eauto. }
  destruct Hres as (Hfreshloc & n & (_ & Hacc & _) & Hblock).
  assert (object_truthy (heap w2) (Some block) = true) as Htrue.
  { unfold object_truthy, deref. change (heap w2) with (heap w1 ++ fresh).
    rewrite Hblock. apply sealed_truthy. }
  rewrite Htrue in Hout.
  assert (is_Some (dict_get "block_number" (sealed bd_items n))) as Hbn.
  { unfold sealed, candidate. rewrite !dict_get_set_ne by done. by eexists. }
  pose proof (lookup_setitem_eq block "mining_time" (VFloat t) _ _ Hblock) as Hl1.
  pose proof (lookup_setitem_eq block "reward" (VInt 50) _ _ Hl1) as Hl2.
  erewrite sbind_ok in Hout by reflexivity.
  erewrite sbind_ok in Hout by reflexivity.
  cbn [core mining_info files heap CHAIN REWARD s2 w2 w1 value_of_number] in Hout, Hl2.
  erewrite sbind_ok in Hout.
  2:{ unfold save_block_data. cbn [core mining_info files heap].
      rewrite (deref_Some _ _ _ Hl2). reflexivity. }
  erewrite on_core_run in Hout.
  2:{ apply add_block_to_chain_ok. cbn [core heap]. rewrite (deref_Some _ _ _ Hl2).
      by repeat apply dict_get_is_Some_set. }
  subst out. eexists _, _. split; [reflexivity|]. cbn [core mining_info files heap CHAIN REWARD].
  split; [done|]. split; [right; by eexists|]. right. exists block, bits, n.
  split; [done|]. split; [done|]. split; [exact Hacc|]. split; [by eexists|].
  split; [done|]. split; [exact Hl2|]. split; done.
Qed.


(** ** The chain in every state of the process *)

Lemma chain_wf_frame (w w' : world) (fresh : store) :
  chain_wf w -> heap w' = heap w ++ fresh -> CHAIN w' = CHAIN w -> chain_wf w'.
Proof.
  intros (Hlocs & Hok & Hlink) Hheap Hchain.
  assert (forall b, b ∈ CHAIN w -> deref (heap w') b = deref (heap w) b) as Hold.
  { intros b Hb. rewrite Hheap. apply deref_extend. by apply Hlocs. }
  unfold chain_wf. rewrite Hchain. split; [|split].
  - intros b Hb. specialize (Hlocs b Hb). rewrite Hheap, length_app. lia.
  - intros k b Hk. rewrite Hold by (by eapply list_elem_of_lookup_2). by eapply Hok.
  - intros k b1 b2 Hk1 Hk2.
    rewrite !Hold by (by eapply list_elem_of_lookup_2). by eapply Hlink.
Qed.

Lemma chain_wf_append (data : dict) (w w' : world) (fresh : store) (block : loc)
    (ph : value) (bits n : Z) (t : Qc) :
  chain_wf w -> heap w' = heap w ++ fresh ->
  expected_previous_hash w = Ok ph ->
  request_difficulty data = Ok bits ->
  accepted (request_template data w ph) (calculate_target bits) n ->
  heap w' !! block = Some (request_block (request_template data w ph) n t (REWARD w)) ->
  CHAIN w' = CHAIN w ++ [block] ->
  chain_wf w'.
Proof.
  intros (Hlocs & Hok & Hlink) Hheap Hph Hbits Hacc Hblk Hchain.
  assert (forall b, b ∈ CHAIN w -> deref (heap w') b = deref (heap w) b) as Hold.
  { intros b Hb. rewrite Hheap. apply deref_extend. by apply Hlocs. }
  unfold chain_wf. rewrite Hchain. split; [|split].
  - intros b Hb. apply elem_of_app in Hb as [Hb|Hb].
    + specialize (Hlocs b Hb). rewrite Hheap, length_app. lia.
    + apply list_elem_of_singleton in Hb as ->. by eapply lookup_lt_Some.
  - intros k b Hk. apply lookup_app_Some in Hk as [Hk | [_ Hk]].
    + rewrite Hold by (by eapply list_elem_of_lookup_2). by eapply Hok.
    + apply list_lookup_singleton_Some in Hk as [_ ->].
      rewrite (deref_Some _ _ _ Hblk), <- request_block_spec.
      eapply sealed_block_ok; [|exact Hacc|].
      * by eapply lookup_difficulty_supported.
      * unfold request_template. by eexists.
  - intros k b1 b2 Hk1 Hk2.
    apply lookup_app_Some in Hk2 as [Hk2 | [Hlen Hk2]].
    + assert (CHAIN w !! k = Some b1) as Hk1'.
      { apply lookup_lt_Some in Hk2. rewrite lookup_app_l in Hk1 by lia. done. }
      rewrite !Hold by (by eapply list_elem_of_lookup_2). by eapply Hlink.
    + apply list_lookup_singleton_Some in Hk2 as [Hk ->].
      assert (S k = length (CHAIN w)) as Hlast by lia.
      assert (CHAIN w !! k = Some b1) as Hk1'.
      { rewrite lookup_app_l in Hk1 by lia. done. }
      rewrite (Hold b1) by (by eapply list_elem_of_lookup_2).
      rewrite (deref_Some _ _ _ Hblk).
      destruct (request_block_fields data w ph n t (REWARD w)) as [Hprev Hnum].
      split.
      * exists ph. split; [|exact Hprev].
        unfold expected_previous_hash in Hph. rewrite last_lookup in Hph.
        replace (Nat.pred (length (CHAIN w))) with k in Hph by lia.
        rewrite Hk1' in Hph.
        destruct (dict_get "hash" (deref (heap w) b1)); [|discriminate].
        by injection Hph as ->.
      * rewrite Hnum, Hlast. reflexivity.
Qed.

Lemma chain_wf_request_full (data : dict) (e t : Qc) (s : system) :
  chain_wf (core s) -> chain_wf (core (start_mining_full data e t s).1).
Proof.
  intros Hwf.
  destruct (start_mining_full_outcome data e t s) as (s' & r & -> & [fresh Hheap] & Hcases).
  cbn [fst].
  destruct Hcases as [(Hchain & _) |
    (block & ph & bits & n & workers & _ & Hph & Hbits & _ & _ & Hacc & _ & Hblk & Hchain & _)].
  - by eapply chain_wf_frame.
  - by eapply chain_wf_append.
Qed.

Lemma chain_wf_main_full (bd_items : dict) (difficulty : string) (num_workers : option Z)
    (save_file : string) (e t : Qc) (disk : gmap string string) :
  chain_wf (core (main_full bd_items difficulty num_workers save_file e t
                    (initial_system disk)).1).
Proof.
  destruct (main_full_outcome bd_items difficulty num_workers save_file e t disk)
    as (s' & r & -> & _ & _ & Hcases).
  cbn [fst].
  destruct Hcases as [[Hchain _] |
    (block & bits & n & _ & Hbits & Hacc & Hbn & Hchain & Hblk & _)].
  - split; [|split]; rewrite Hchain.
    + intros block Hb. by apply elem_of_nil in Hb.
    + intros k block Hk. by destruct k.
    + intros k b1 b2 Hk. by destruct k.
  - split; [|split]; rewrite Hchain.
    + intros b Hb. apply list_elem_of_singleton in Hb as ->. by eapply lookup_lt_Some.
    + intros k b Hk. apply list_lookup_singleton_Some in Hk as [-> ->].
      rewrite (deref_Some _ _ _ Hblk).
      eapply sealed_block_ok; [|exact Hacc|exact Hbn].
      by eapply lookup_difficulty_supported.
    + intros k b1 b2 Hk1 Hk2. by destruct k.
Qed.

Lemma reachable_full_chain_wf (s : system) : reachable_full s -> chain_wf (core s).
Proof.
  induction 1 as [disk | disk bd difficulty nw save_file e t | s data e t _ IH].
  - apply chain_wf_initial.
  - apply chain_wf_main_full.
  - by apply chain_wf_request_full.
Qed.

(** X10. The chain invariant. In every state the process reaches, every block of
    the chain has a hash below 2^254 (two leading zero bits, the easiest
    difficulty on offer), a float mining time and a block number; and from
    the second block on, every block names the hash of its predecessor as
    its previous hash and carries its position (from 1) as its number. *)
Theorem chain_blocks_linked (s : system) :
  reachable_full s ->
  (forall k block,
     CHAIN (core s) !! k = Some block -> block_ok (deref (heap (core s)) block)) /\
  (forall k b1 b2,
     CHAIN (core s) !! k = Some b1 -> CHAIN (core s) !! S k = Some b2 ->
     linked (deref (heap (core s)) b1) (deref (heap (core s)) b2) /\
     dict_get "block_number" (deref (heap (core s)) b2) = Some (VInt (Z.of_nat (S k) + 1))).
Proof.
  intros Hs.
  assert (chain_wf (core s)) as (_ & Hok & Hlink).
  { induction Hs as [disk | disk bd difficulty nw save_file e t | s data e t Hs IH].
    - apply chain_wf_initial.
    - apply chain_wf_main_full.
    - apply chain_wf_request_full, IH. }
  split.
  - intros k block Hk. exact (Hok k block Hk).
  - intros k b1 b2 Hk1 Hk2. exact (Hlink k b1 b2 Hk1 Hk2).
Qed.

(** X11. Retarget is total on the states of the process. There the query never
    raises, answers 1, 0 or -1, and answers 0 whenever the chain is empty or
    its length is not a multiple of 10. *)
Theorem retarget_difficulty_total (s : system) :
  reachable_full s ->
  exists z, (retarget_difficulty (core s)).2 = Ok z /\ (z = 1 \/ z = 0 \/ z = -1) /\
            (Z.of_nat (length (CHAIN (core s))) `mod` 10 <> 0 -> z = 0) /\
            (CHAIN (core s) = [] -> z = 0).
Proof.
  intros Hs.
  pose proof (reachable_full_chain_wf s Hs) as Hwf.
  destruct (retarget_difficulty_ok (core s) Hwf) as (z & Hrun & Hsign & Hoff & Hempty).
  exists z. split; [exact Hrun|]. split; [exact Hsign|]. split.
  - intros Hmod. exact (Hoff Hmod).
  - intros Hnil. exact (Hempty Hnil).
Qed.


(** ** Requests on a state of the process *)

Definition fails {A} (r : res A) : Prop := exists x, r = Raise x.

Lemma chain_wf_previous_hash (w : world) :
  chain_wf w -> exists ph, expected_previous_hash w = Ok ph.
Proof.
  intros (_ & Hok & _). unfold expected_previous_hash. rewrite last_lookup.
  destruct (CHAIN w !! Nat.pred (length (CHAIN w))) as [tail|] eqn:Htail; [|by eexists].
  destruct (Hok _ _ Htail) as ((new_hash & v & -> & _) & _). by eexists.
Qed.

Lemma info_after_mine_other (k : string) (e : Qc) (r : option loc) (info : dict) :
  k <> "hash_rate"%string -> k <> "mining_time"%string ->
  dict_get k (info_after_mine e r info) = dict_get k info.
Proof.
  intros H1 H2. unfold info_after_mine.
  destruct r; rewrite ?(dict_get_set_ne "mining_time" k) by congruence;
    by rewrite (dict_get_set_ne "hash_rate" k) by congruence.
Qed.

Lemma info_mining_status (data : dict) (s : system) :
  dict_get "status" (info_mining data s) = Some (VStr "mining").
Proof.
  unfold info_mining. rewrite !dict_get_set_ne by done. apply dict_get_set_eq.
Qed.

Lemma info_mining_current_block (data : dict) (s : system) :
  dict_get "current_block" (info_mining data s)
  = Some (VInt (Z.of_nat (length (CHAIN (core s))) + 1)).
Proof.
  unfold info_mining. rewrite dict_get_set_ne by done. apply dict_get_set_eq.
Qed.

(** The outcomes of a request on a state whose chain is well formed. *)
Lemma start_mining_full_cases (data : dict) (e t : Qc) (s : system) :
  chain_wf (core s) ->
  exists s' r,
    start_mining_full data e t s = (s', r) /\
    chain_wf (core s') /\
    (exists fresh, heap (core s') = heap (core s) ++ fresh) /\
    ((CHAIN (core s') = CHAIN (core s) /\ REWARD (core s') = REWARD (core s) /\
      files s' = files s /\
      ((mining_info s' = mining_info s /\
        exists x, r = Raise x /\ request_difficulty data = Raise x) \/
       (mining_info s' = info_mining data s /\
        (exists bits, request_difficulty data = Ok bits) /\
        exists x, r = Raise x /\
          (request_workers data = Raise x \/
           (exists workers, request_workers data = Ok workers /\ worker_count workers < 1) \/
           (exists workers, request_workers data = Ok workers /\
              1 <= worker_count workers /\ e = 0%Qc /\ x = ZeroDivisionError))) \/
       (mining_info s' = info_idle (info_after_mine e None (info_mining data s)) /\
        r = Ok None /\ e <> 0%Qc /\
        (exists bits, request_difficulty data = Ok bits) /\
        exists workers, request_workers data = Ok workers /\ 1 <= worker_count workers))) \/
     (exists block ph bits n workers,
        e <> 0%Qc /\
        expected_previous_hash (core s) = Ok ph /\
        request_difficulty data = Ok bits /\
        request_workers data = Ok workers /\ 1 <= worker_count workers /\
        accepted (request_template data (core s) ph) (calculate_target bits) n /\
        (length (heap (core s)) <= block)%nat /\
        heap (core s') !! block =
          Some (request_block (request_template data (core s) ph) n t (REWARD (core s))) /\
        CHAIN (core s') = CHAIN (core s) ++ [block] /\
        REWARD (core s') =
          reward_after (length (CHAIN (core s) ++ [block])) (REWARD (core s)) /\
        files s' =
          <[block_file (Z.of_nat (length (CHAIN (core s))) + 1) :=
              dumps_indent 0 (VDict (request_block (request_template data (core s) ph) n t
                                       (REWARD (core s))))]> (files s) /\
        r = Ok (Some block) /\
        mining_info s' = info_idle (info_after_mine e (Some block) (info_mining data s)))).
Proof.
  intros Hwf.
  pose proof (chain_wf_request_full data e t s Hwf) as Hwf'.
  destruct (chain_wf_previous_hash _ Hwf) as [ph0 Hph0].
  destruct (start_mining_full_outcome data e t s) as (s' & r & Hrun & Hheap & Hcases).
  rewrite Hrun in Hwf'. cbn [fst] in Hwf'.
  exists s', r. split; [exact Hrun|]. split; [exact Hwf'|]. split; [exact Hheap|].
  destruct Hcases as [(Hchain & Hreward & Hfiles & Hcases) | Happend].
  - left. split; [done|]. split; [done|]. split; [done|].
    destruct Hcases as [(Hinfo & x & -> & [Hprev|Hbits]) | [Hmine | Hnone]].
    + congruence.
    + left. eauto.
    + right. left. exact Hmine.
    + right. right. exact Hnone.
  - right.
    destruct Happend as (block & ph & bits & n & workers & He & Hph & Hbits & Hworkers & Hnw &
                         Hacc & Hloc & Hblk & Hchain & Hreward & Hfiles & Hret).
    destruct (retarget_difficulty_ok _ Hwf') as (z & Hz & _).
    rewrite Hz in Hret. destruct Hret as [-> Hinfo].
    exists block, ph, bits, n, workers.
    split; [done|]. split; [done|]. split; [done|]. split; [done|]. split; [done|].
    split; [exact Hacc|]. split; [done|]. split; [exact Hblk|]. split; [done|].
    split; [done|]. split; [done|]. split; done.
Qed.


(** X12. A request by its answer. On a state of the process, a request that
    answers with a block has appended exactly that block, a new object
    credited with the reward in force and the measured time, has put the
    reward through the halving check once and left the monitor idle; a
    request that answers [None] or raises leaves the chain, the reward and
    the files as they were. A request that raises for its difficulty leaves
    the monitoring record untouched; one that raises later leaves it at
    status 'mining' for the block it did not mine. *)
Theorem request_answer (data : dict) (e t : Qc) (s : system) :
  reachable_full s ->
  let s' := (start_mining_full data e t s).1 in
  match (start_mining_full data e t s).2 with
  | Ok (Some block) =>
      (length (heap (core s)) <= block)%nat /\
      CHAIN (core s') = CHAIN (core s) ++ [block] /\
      REWARD (core s') = reward_after (length (CHAIN (core s'))) (REWARD (core s)) /\
      dict_get "reward" (deref (heap (core s')) block)
        = Some (value_of_number (REWARD (core s))) /\
      dict_get "mining_time" (deref (heap (core s')) block) = Some (VFloat t) /\
      dict_get "status" (mining_info s') = Some (VStr "idle")
  | Ok None =>
      CHAIN (core s') = CHAIN (core s) /\ REWARD (core s') = REWARD (core s) /\
      files s' = files s /\
      dict_get "status" (mining_info s') = Some (VStr "idle")
  | Raise x =>
      CHAIN (core s') = CHAIN (core s) /\ REWARD (core s') = REWARD (core s) /\
      files s' = files s /\
      ((request_difficulty data = Raise x /\ mining_info s' = mining_info s) \/
       ((exists bits, request_difficulty data = Ok bits) /\
        dict_get "status" (mining_info s') = Some (VStr "mining") /\
        dict_get "current_block" (mining_info s')
          = Some (VInt (Z.of_nat (length (CHAIN (core s))) + 1))))
  end.
Proof.
  intros Hs s'.
  destruct (start_mining_full_cases data e t s (reachable_full_chain_wf s Hs))
    as (s1 & r & Hrun & _ & _ & Hcases).
  subst s'. rewrite Hrun. cbn [fst snd].
  destruct Hcases as [(Hchain & Hreward & Hfiles & Hcases) | Happend].
  - destruct Hcases as [(Hinfo & x & -> & Hbits) |
                        [(Hinfo & Hbits & x & -> & _) | (Hinfo & -> & _)]].
    + split; [done|]. split; [done|]. split; [done|]. by left.
    + split; [done|]. split; [done|]. split; [done|]. right. split; [done|].
      rewrite Hinfo. split; [apply info_mining_status | apply info_mining_current_block].
    + split; [done|]. split; [done|]. split; [done|].
      rewrite Hinfo. apply dict_get_set_eq.
  - destruct Happend as (block & ph & bits & n & workers & _ & _ & _ & _ & _ & _ & Hloc &
                         Hblk & Hchain & Hreward & _ & -> & Hinfo).
    split; [done|]. split; [done|]. split; [by rewrite Hchain|].
    rewrite (deref_Some _ _ _ Hblk), <- request_block_spec.
    split; [apply dict_get_set_eq|].
    split; [rewrite dict_get_set_ne by done; apply dict_get_set_eq|].
    rewrite Hinfo. apply dict_get_set_eq.
Qed.

(** X13. When a request raises. On a state of the process a request raises
    exactly when the difficulty is not one of the names on offer, when
    num_workers is neither [None] nor an int or is below 1, or when the
    clock did not advance during the search. *)
Theorem request_raises_iff (data : dict) (e t : Qc) (s : system) :
  reachable_full s ->
  fails (start_mining_full data e t s).2 <->
  fails (request_difficulty data) \/ fails (request_workers data) \/
  (exists workers, request_workers data = Ok workers /\ worker_count workers < 1) \/
  e = 0%Qc.
Proof.
  intros Hs.
  destruct (start_mining_full_cases data e t s (reachable_full_chain_wf s Hs))
    as (s1 & r & Hrun & _ & _ & Hcases).
  rewrite Hrun. cbn [snd]. unfold fails.
  destruct Hcases as [(_ & _ & _ & Hcases) | Happend].
  - destruct Hcases as [(_ & x & -> & Hbits) |
                        [(_ & _ & x & -> & Hcause) |
                         (_ & -> & He & [bits Hbits] & workers & Hworkers & Hnw)]].
    + split; [eauto|]. eauto.
    + split; [|eauto]. intros _.
      destruct Hcause as [Hw | [Hw | (workers & _ & _ & He & _)]]; eauto.
    + split; [intros [x Hx]; discriminate|].
      intros [[x Hx] | [[x Hx] | [(workers' & Hw' & Hlt) | Hz]]]; [congruence..| |done].
      rewrite Hworkers in Hw'. injection Hw' as <-. lia.
  - destruct Happend as (block & ph & bits & n & workers & He & _ & Hbits & Hworkers & Hnw &
                         _ & _ & _ & _ & _ & _ & -> & _).
    split; [intros [x Hx]; discriminate|].
    intros [[x Hx] | [[x Hx] | [(workers' & Hw' & Hlt) | Hz]]]; [congruence..| |done].
    rewrite Hworkers in Hw'. injection Hw' as <-. lia.
Qed.

(** X14. The ledger only grows. A request never removes or reorders blocks,
    appends at most one, changes no object that existed before, and so
    leaves every block of the chain as it was. *)
Theorem chain_append_only (data : dict) (e t : Qc) (s : system) :
  reachable_full s ->
  let s' := (start_mining_full data e t s).1 in
  CHAIN (core s) `prefix_of` CHAIN (core s') /\
  (length (CHAIN (core s')) <= length (CHAIN (core s)) + 1)%nat /\
  (forall l, (l < length (heap (core s)))%nat ->
     heap (core s') !! l = heap (core s) !! l) /\
  (forall k block, CHAIN (core s) !! k = Some block ->
     CHAIN (core s') !! k = Some block /\
     deref (heap (core s')) block = deref (heap (core s)) block).
Proof.
  intros Hs s'.
  pose proof (reachable_full_chain_wf s Hs) as Hwf.
  destruct (start_mining_full_cases data e t s Hwf)
    as (s1 & r & Hrun & _ & [fresh Hheap] & Hcases).
  subst s'. rewrite Hrun. cbn [fst].
  assert (CHAIN (core s) `prefix_of` CHAIN (core s1) /\
          (length (CHAIN (core s1)) <= length (CHAIN (core s)) + 1)%nat) as [Hpre Hlen].
  { destruct Hcases as [(-> & _) | (block & ph & bits & n & workers & Hrest)].
    - split; [done | lia].
    - destruct Hrest as (_ & _ & _ & _ & _ & _ & _ & _ & -> & _).
      split; [by apply prefix_app_r|]. rewrite length_app. simpl. lia. }
  split; [exact Hpre|]. split; [exact Hlen|]. split.
  - intros l Hl. rewrite Hheap. by apply lookup_app_l.
  - intros k block Hk. split.
    + by eapply prefix_lookup_Some.
    + rewrite Hheap. apply deref_extend.
      destruct Hwf as (Hlocs & _). apply Hlocs. by eapply list_elem_of_lookup_2.
Qed.


(** ** The monitoring record in every state of the process *)

Lemma keys_dict_set_in (k : string) (v : value) (d : dict) :
  k ∈ keys d -> keys (dict_set k v d) = keys d.
Proof.
  induction d as [|[k' x] d IH]; intros Hk; [by apply elem_of_nil in Hk|].
  cbn [dict_set]. destruct (String.eqb k k') eqn:E.
  - apply String.eqb_eq in E. by subst k'.
  - change (keys ((k', x) :: d)) with (k' :: keys d) in *.
    change (keys ((k', x) :: dict_set k v d)) with (k' :: keys (dict_set k v d)).
    apply elem_of_cons in Hk as [->|Hk]; [by rewrite String.eqb_refl in E|].
    by rewrite IH.
Qed.

Definition info_keys : list string :=
  ["status"; "current_block"; "difficulty"; "hash_rate"; "mining_time"].

(** What /status can report when the chain has [len] blocks. *)
Definition info_ok (len : nat) (info : dict) : Prop :=
  keys info = info_keys /\
  (dict_get "status" info = Some (VStr "idle") \/
   dict_get "status" info = Some (VStr "mining")) /\
  (exists name bits,
     dict_get "difficulty" info = Some (VStr name) /\
     lookup_difficulty (VStr name) = Ok bits) /\
  (dict_get "current_block" info = Some VNone \/
   exists n, dict_get "current_block" info = Some (VInt n) /\
             1 <= n <= Z.of_nat len + 1).

Lemma keys_set_info (k : string) (v : value) (info : dict) :
  k ∈ info_keys -> keys info = info_keys -> keys (dict_set k v info) = info_keys.
Proof. intros Hk Hkeys. rewrite keys_dict_set_in; [done | by rewrite Hkeys]. Qed.

Lemma info_keys_elem (k : string) :
  k ∈ info_keys <->
  k = "status"%string \/ k = "current_block"%string \/ k = "difficulty"%string \/
  k = "hash_rate"%string \/ k = "mining_time"%string.
Proof. unfold info_keys. rewrite !elem_of_cons, elem_of_nil. tauto. Qed.

Lemma info_ok_initial : info_ok 0 initial_mining_info.
Proof.
  split; [reflexivity|]. split; [by left|]. split; [|by left].
  exists "Medium"%string, 3. by split.
Qed.

Lemma info_ok_mono (len len' : nat) (info : dict) :
  (len <= len')%nat -> info_ok len info -> info_ok len' info.
Proof.
  intros Hle (Hkeys & Hstatus & Hdiff & Hcur).
  split; [done|]. split; [done|]. split; [done|].
  destruct Hcur as [Hnone | (n & Hn & Hrange)]; [by left|].
  right. exists n. split; [done | lia].
Qed.

Lemma info_ok_set (len : nat) (k : string) (v : value) (info : dict) :
  k ∈ info_keys -> k <> "status"%string -> k <> "difficulty"%string ->
  k <> "current_block"%string ->
  info_ok len info -> info_ok len (dict_set k v info).
Proof.
  intros Hk H1 H2 H3 (Hkeys & Hstatus & Hdiff & Hcur).
  split; [by apply keys_set_info|].
  by rewrite !(dict_get_set_ne k) by done.
Qed.

Lemma info_ok_after_mine (len : nat) (e : Qc) (r : option loc) (info : dict) :
  info_ok len info -> info_ok len (info_after_mine e r info).
Proof.
  intros Hok. unfold info_after_mine. cbn zeta.
  set (rate := VFloat (stored_float _)).
  assert (info_ok len (dict_set "hash_rate" rate info)) as Hok1.
  { apply info_ok_set; [|done..]. apply info_keys_elem. tauto. }
  destruct r; [|done].
  apply info_ok_set; [|done..]. apply info_keys_elem. tauto.
Qed.

Lemma info_ok_idle (len : nat) (info : dict) :
  info_ok len info -> info_ok len (info_idle info).
Proof.
  intros (Hkeys & Hstatus & Hdiff & Hcur). unfold info_idle.
  split; [apply keys_set_info; [apply info_keys_elem; tauto | done]|].
  split; [left; apply dict_get_set_eq|].
  by rewrite !(dict_get_set_ne "status") by done.
Qed.

Lemma info_ok_mining (data : dict) (s : system) (bits : Z) :
  info_ok (length (CHAIN (core s))) (mining_info s) ->
  request_difficulty data = Ok bits ->
  info_ok (length (CHAIN (core s))) (info_mining data s).
Proof.
  intros (Hkeys & Hstatus & Hdiff & Hcur) Hbits. unfold info_mining.
  unfold request_difficulty in Hbits.
  destruct (default (VStr "Medium") (dict_get "difficulty" data))
    as [| | | |name| |] eqn:Hname; try discriminate Hbits.
  split.
  { repeat (apply keys_set_info; [apply info_keys_elem; tauto|]). exact Hkeys. }
  split.
  { right. rewrite !dict_get_set_ne by done. apply dict_get_set_eq. }
  split.
  { exists name, bits. split; [apply dict_get_set_eq | exact Hbits]. }
  right. exists (Z.of_nat (length (CHAIN (core s))) + 1).
  split; [|lia]. rewrite dict_get_set_ne by done. apply dict_get_set_eq.
Qed.

Definition monitor_ok (s : system) : Prop :=
  info_ok (length (CHAIN (core s))) (mining_info s).

Lemma monitor_ok_request (data : dict) (e t : Qc) (s : system) :
  chain_wf (core s) -> monitor_ok s -> monitor_ok (start_mining_full data e t s).1.
Proof.
  intros Hwf Hok. unfold monitor_ok in *.
  destruct (start_mining_full_cases data e t s Hwf) as (s' & r & -> & _ & _ & Hcases).
  cbn [fst].
  destruct Hcases as [(-> & _ & _ & Hcases) | Happend].
  - destruct Hcases as [(-> & _) | [(-> & [bits Hbits] & _) | (-> & _ & _ & [bits Hbits] & _)]].
    + done.
    + by eapply info_ok_mining.
    + apply info_ok_idle, info_ok_after_mine. by eapply info_ok_mining.
  - destruct Happend as (block & ph & bits & n & workers & _ & _ & Hbits & _ & _ & _ & _ & _ &
                         -> & _ & _ & _ & ->).
    apply info_ok_idle, info_ok_after_mine.
    apply (info_ok_mono (length (CHAIN (core s)))); [rewrite length_app; lia|].
    by eapply info_ok_mining.
Qed.

Lemma monitor_ok_main (bd_items : dict) (difficulty : string) (num_workers : option Z)
    (save_file : string) (e t : Qc) (disk : gmap string string) :
  monitor_ok (main_full bd_items difficulty num_workers save_file e t (initial_system disk)).1.
Proof.
  destruct (main_full_outcome bd_items difficulty num_workers save_file e t disk)
    as (s' & r & -> & _ & Hinfo & _).
  cbn [fst]. unfold monitor_ok.
  apply (info_ok_mono 0); [lia|].
  destruct Hinfo as [-> | [o ->]]; [apply info_ok_initial|].
  apply info_ok_after_mine, info_ok_initial.
Qed.

(** X15. What /status reports. In every state of the process the monitoring
    record has its five keys in the order of the source, its status is
    'idle' or 'mining', its difficulty is one of the names on offer, and its
    current block is [None] or a number between 1 and the chain length plus
    one; [status] returns this record and changes nothing. *)
Theorem status_reports (s : system) :
  reachable_full s ->
  status s = (s, Ok (mining_info s)) /\
  keys (mining_info s) = ["status"; "current_block"; "difficulty"; "hash_rate";
                          "mining_time"]%string /\
  (dict_get "status" (mining_info s) = Some (VStr "idle") \/
   dict_get "status" (mining_info s) = Some (VStr "mining")) /\
  (exists name bits,
     dict_get "difficulty" (mining_info s) = Some (VStr name) /\
     lookup_difficulty (VStr name) = Ok bits /\ bits ∈ supported_difficulties) /\
  (dict_get "current_block" (mining_info s) = Some VNone \/
   exists n, dict_get "current_block" (mining_info s) = Some (VInt n) /\
             1 <= n <= Z.of_nat (length (CHAIN (core s))) + 1).
Proof.
  intros Hs. split; [reflexivity|].
  assert (monitor_ok s) as (Hkeys & Hstatus & (name & bits & Hname & Hbits) & Hcur).
  { induction Hs as [disk | disk bd difficulty nw save_file e t | s data e t Hs IH].
    - apply info_ok_initial.
    - apply monitor_ok_main.
    - apply monitor_ok_request; [by apply reachable_full_chain_wf | exact IH]. }
  split; [exact Hkeys|]. split; [exact Hstatus|]. split; [|exact Hcur].
  exists name, bits. split; [done|]. split; [done|]. by eapply lookup_difficulty_supported.
Qed.


(** ** The saved files *)

Lemma list_ascii_of_string_app (s1 s2 : string) :
  list_ascii_of_string (s1 +:+ s2) = list_ascii_of_string s1 ++ list_ascii_of_string s2.
Proof. induction s1 as [|c s1 IH]; [done|]. simpl. by rewrite IH. Qed.

Lemma string_app_inj_r (s1 s2 t : string) : s1 +:+ t = s2 +:+ t -> s1 = s2.
Proof.
  intros Heq. apply (f_equal list_ascii_of_string) in Heq.
  rewrite !list_ascii_of_string_app in Heq. apply app_inv_tail in Heq.
  apply (f_equal string_of_list_ascii) in Heq.
  by rewrite !string_of_list_ascii_of_string in Heq.
Qed.

(** Distinct block numbers give distinct file names. *)
Lemma block_file_inj (a b : Z) : block_file a = block_file b -> a = b.
Proof.
  unfold block_file. intros Heq. apply String.app_inj in Heq.
  apply string_app_inj_r in Heq. by apply pretty_Z_inj in Heq.
Qed.

(** From the second block on, every block of the chain is on disk under its
    number. *)
Definition files_ok (s : system) : Prop :=
  forall k block,
    (1 <= k)%nat -> CHAIN (core s) !! k = Some block ->
    files s !! block_file (Z.of_nat k + 1)
    = Some (dumps_indent 0 (VDict (deref (heap (core s)) block))).

Lemma files_ok_request (data : dict) (e t : Qc) (s : system) :
  chain_wf (core s) -> files_ok s -> files_ok (start_mining_full data e t s).1.
Proof.
  intros Hwf Hok.
  destruct (start_mining_full_cases data e t s Hwf)
    as (s' & r & -> & _ & [fresh Hheap] & Hcases).
  cbn [fst].
  assert (forall b, b ∈ CHAIN (core s) ->
            deref (heap (core s')) b = deref (heap (core s)) b) as Hold.
  { intros b Hb. rewrite Hheap. apply deref_extend.
    destruct Hwf as (Hlocs & _). by apply Hlocs. }
  destruct Hcases as [(Hchain & _ & Hfiles & _) | Happend].
  - intros k block Hk Hl. rewrite Hchain in Hl. rewrite Hfiles.
    rewrite Hold by (by eapply list_elem_of_lookup_2). by apply Hok.
  - destruct Happend as (block & ph & bits & n & workers & _ & _ & _ & _ & _ & _ & _ &
                         Hblk & Hchain & _ & Hfiles & _).
    intros k b Hk Hl. rewrite Hchain in Hl. rewrite Hfiles.
    apply lookup_app_Some in Hl as [Hl | [Hlen Hl]].
    + rewrite lookup_insert_ne.
      * rewrite Hold by (by eapply list_elem_of_lookup_2). by apply Hok.
      * intros Heq%block_file_inj. apply lookup_lt_Some in Hl. lia.
    + apply list_lookup_singleton_Some in Hl as [Hk0 ->].
      assert (k = length (CHAIN (core s))) as -> by lia.
      rewrite lookup_insert_eq. by rewrite (deref_Some _ _ _ Hblk).
Qed.

Lemma files_ok_main (bd_items : dict) (difficulty : string) (num_workers : option Z)
    (save_file : string) (e t : Qc) (disk : gmap string string) :
  files_ok (main_full bd_items difficulty num_workers save_file e t (initial_system disk)).1.
Proof.
  destruct (main_full_outcome bd_items difficulty num_workers save_file e t disk)
    as (s' & r & -> & _ & _ & Hcases).
  cbn [fst]. intros k block Hk Hl.
  destruct Hcases as [(Hchain & _) | (b & bits & n & _ & _ & _ & _ & Hchain & _)];
    rewrite Hchain in Hl; (destruct k as [|k]; [lia|]); by destruct k.
Qed.

(** X16. The ledger on disk. In every state of the process each block of the
    chain from the second on has its file block_<number>.json, and the file
    holds the block as it is in memory, written with an indentation of 4:
    a block is saved complete, is never changed afterwards, and no later
    block reuses its file name. *)
Theorem saved_files_match_chain (s : system) :
  reachable_full s ->
  forall k block,
    (1 <= k)%nat -> CHAIN (core s) !! k = Some block ->
    files s !! block_file (Z.of_nat k + 1)
    = Some (dumps_indent 0 (VDict (deref (heap (core s)) block))).
Proof.
  induction 1 as [disk | disk bd difficulty nw save_file e t | s data e t Hs IH].
  - intros k block _ Hl. by destruct k.
  - apply files_ok_main.
  - apply files_ok_request; [by apply reachable_full_chain_wf | exact IH].
Qed.

(** X17. The script body. Before the server starts the script appends at most
    one block; the block is credited 50 and the measured time, saved to
    [save_file] as it is in memory, and its hash meets the difficulty asked
    for; the reward stays 50, the status stays 'idle', and when nothing is
    appended no file is written. *)
Theorem script_outcome (bd_items : dict) (difficulty : string) (num_workers : option Z)
    (save_file : string) (e t : Qc) (disk : gmap string string) :
  let s' := (main_full bd_items difficulty num_workers save_file e t
               (initial_system disk)).1 in
  REWARD (core s') = Int 50 /\
  dict_get "status" (mining_info s') = Some (VStr "idle") /\
  ((CHAIN (core s') = [] /\ files s' = disk) \/
   (exists block blk bits new_hash v,
      CHAIN (core s') = [block] /\
      heap (core s') !! block = Some blk /\
      files s' = <[save_file := dumps_indent 0 (VDict blk)]> disk /\
      dict_get "reward" blk = Some (VInt 50) /\
      dict_get "mining_time" blk = Some (VFloat t) /\
      lookup_difficulty (VStr difficulty) = Ok bits /\
      dict_get "hash" blk = Some (VStr new_hash) /\
      int16 new_hash = Some v /\ (Zc v < calculate_target bits)%Qc)).
Proof.
  intros s'.
  destruct (main_full_outcome bd_items difficulty num_workers save_file e t disk)
    as (s1 & r & Hrun & Hreward & Hinfo & Hcases).
  subst s'. rewrite Hrun. cbn [fst].
  split; [exact Hreward|]. split.
  { destruct Hinfo as [-> | [o ->]]; [reflexivity|].
    by rewrite info_after_mine_other by done. }
  destruct Hcases as [(Hchain & Hfiles & _) |
                      (block & bits & n & _ & Hbits & Hacc & _ & Hchain & Hblk & Hfiles & _)].
  - by left.
  - right. eexists block, _, bits, (candidate_hash bd_items n), (hash_int bd_items n).
    split; [done|]. split; [exact Hblk|]. split; [exact Hfiles|].
    split; [apply dict_get_set_eq|].
    split; [rewrite dict_get_set_ne by done; apply dict_get_set_eq|].
    split; [done|].
    split; [rewrite !dict_get_set_ne by done; apply dict_get_sealed_hash|].
    split; [apply int16_candidate_hash | exact Hacc].
Qed.


(** ** mine and its report to the monitor *)



(** ** The total reward *)

Lemma chain_inv_frame (w w' : world) (fresh : store) :
  chain_inv w -> heap w' = heap w ++ fresh -> CHAIN w' = CHAIN w -> REWARD w' = REWARD w ->
  chain_inv w'.
Proof.
  intros (Hlocs & Hreward & Hblocks) Hheap Hchain Hrew.
  unfold chain_inv. rewrite Hchain, Hrew. split; [|split].
  - intros block Hb. specialize (Hlocs block Hb). rewrite Hheap, length_app. lia.
  - done.
  - intros k block Hk.
    rewrite (credited_extend w w' fresh block Hheap); [by apply Hblocks|].
    apply Hlocs. by eapply list_elem_of_lookup_2.
Qed.

Lemma chain_inv_append (w w' : world) (fresh : store) (block : loc) (blk : dict) :
  chain_inv w -> heap w' = heap w ++ fresh ->
  heap w' !! block = Some blk ->
  dict_get "reward" blk = Some (value_of_number (REWARD w)) ->
  CHAIN w' = CHAIN w ++ [block] ->
  REWARD w' = reward_after (length (CHAIN w ++ [block])) (REWARD w) ->
  chain_inv w'.
Proof.
  intros (Hlocs & Hreward & Hblocks) Hheap Hblk Hrw Hchain Hrew.
  unfold chain_inv. rewrite Hchain, Hrew. split; [|split].
  - intros b Hb. apply elem_of_app in Hb as [Hb|Hb].
    + specialize (Hlocs b Hb). rewrite Hheap, length_app. lia.
    + apply list_elem_of_singleton in Hb as ->. by eapply lookup_lt_Some.
  - rewrite length_app. simpl. rewrite Nat.add_1_r. by apply reward_after_val.
  - intros k b Hk. apply lookup_app_Some in Hk as [Hk | [Hlen Hk]].
    + rewrite (credited_extend w w' fresh b Hheap); [by apply Hblocks|].
      apply Hlocs. by eapply list_elem_of_lookup_2.
    + apply list_lookup_singleton_Some in Hk as [Hk ->].
      replace k with (length (CHAIN w)) by lia.
      unfold credited, deref. rewrite Hblk. simpl. rewrite Hrw. simpl.
      rewrite to_number_value_of_number. by rewrite Hreward.
Qed.

Lemma reachable_full_chain_inv (s : system) : reachable_full s -> chain_inv (core s).
Proof.
  induction 1 as [disk | disk bd difficulty nw save_file e t | s data e t Hs IH].
  - apply chain_inv_initial.
  - destruct (main_full_outcome bd difficulty nw save_file e t disk)
      as (s' & r & -> & Hrew & _ & Hcases).
    cbn [fst].
    destruct Hcases as [(Hchain & _) | (block & bits & n & _ & _ & _ & _ & Hchain & Hblk & _)].
    + split; [|split]; rewrite Hchain.
      * intros block Hb. by apply elem_of_nil in Hb.
      * by rewrite Hrew.
      * intros k block Hk. by destruct k.
    + split; [|split]; rewrite Hchain.
      * intros b Hb. apply list_elem_of_singleton in Hb as ->. by eapply lookup_lt_Some.
      * by rewrite Hrew.
      * intros k b Hk. apply list_lookup_singleton_Some in Hk as [-> ->].
        unfold credited, deref. rewrite Hblk. simpl. by rewrite dict_get_set_eq.
  - destruct (start_mining_full_cases data e t s (reachable_full_chain_wf s Hs))
      as (s' & r & -> & _ & [fresh Hheap] & Hcases).
    cbn [fst].
    destruct Hcases as [(Hchain & Hrew & _) | Happend].
    + by eapply chain_inv_frame.
    + destruct Happend as (block & ph & bits & n & workers & _ & _ & _ & _ & _ & _ & _ &
                           Hblk & Hchain & Hrew & _).
      eapply chain_inv_append; [exact IH | exact Hheap | exact Hblk | | exact Hchain
                               | exact Hrew].
      rewrite <- request_block_spec. apply dict_get_set_eq.
Qed.

Lemma Zc_Qc_of_Z (z : Z) : Zc z = Qc_of_Z z.
Proof. apply Qc_is_canon. simpl. apply Qred_correct. Qed.

Lemma reward_at_pos (k : Z) : (0 < reward_at k)%Qc.
Proof.
  unfold reward_at. induction (Z.to_nat (k `div` HALVING_INTERVAL)) as [|n IH]; [done|].
  rewrite Nat.iter_succ. unfold Qcdiv. apply Qcmult_pos_pos; [exact IH | done].
Qed.

(** The sum of the rewards of the first [n] blocks. *)
Definition minted (n : nat) : Qc := total (map (fun k => reward_at (Z.of_nat k)) (seq 0 n)).

Lemma total_app (l1 l2 : list Qc) : total (l1 ++ l2) = (total l1 + total l2)%Qc.
Proof.
  unfold total. induction l1 as [|x l1 IH]; simpl.
  - change (Zc 0) with 0%Qc. ring.
  - rewrite IH. ring.
Qed.

Lemma minted_succ (n : nat) : minted (S n) = (minted n + reward_at (Z.of_nat n))%Qc.
Proof.
  unfold minted. rewrite seq_S, map_app, total_app. simpl.
  unfold total. simpl. change (Zc 0) with 0%Qc. ring.
Qed.

(** What is minted and what is left to mint add up to 21 million. *)
Lemma minted_identity (n : nat) :
  (minted n +
   Zc (2 * HALVING_INTERVAL - Z.of_nat n `mod` HALVING_INTERVAL) * reward_at (Z.of_nat n)
   = Zc 21000000)%Qc.
Proof.
  induction n as [|n IH].
  - apply Qc_is_canon. reflexivity.
  - rewrite minted_succ, Nat2Z.inj_succ, <- Z.add_1_r.
    rewrite reward_at_succ by lia. rewrite <- IH.
    set (r := reward_at (Z.of_nat n)). unfold HALVING_INTERVAL.
    destruct (decide ((Z.of_nat n + 1) `mod` 210000 = 0)) as [Hz|Hnz].
    + rewrite Hz.
      replace (Z.of_nat n `mod` 210000) with 209999 by (Z.div_mod_to_equations; lia).
      rewrite !Zc_Qc_of_Z.
      change (2 * 210000 - 0) with (2 * 210000).
      change (2 * 210000 - 209999) with (210000 + 1).
      rewrite Z2Qc_inj_mul, Z2Qc_inj_add, Z2Qc_inj_2, Z2Qc_inj_1.
      field. done.
    + replace ((Z.of_nat n + 1) `mod` 210000) with (Z.of_nat n `mod` 210000 + 1)
        by (Z.div_mod_to_equations; lia).
      rewrite !Zc_Qc_of_Z.
      replace (2 * 210000 - Z.of_nat n `mod` 210000)
        with ((2 * 210000 - (Z.of_nat n `mod` 210000 + 1)) + 1) by lia.
      rewrite (Z2Qc_inj_add _ 1), Z2Qc_inj_1. ring.
Qed.

Lemma minted_below_cap (n : nat) : (minted n < Zc 21000000)%Qc.
Proof.
  rewrite <- (minted_identity n).
  rewrite <- (Qcplus_0_r (minted n)) at 1.
  apply Qcplus_lt_mono_l. apply Qcmult_pos_pos; [|apply reward_at_pos].
  change 0%Qc with (Zc 0). apply (proj1 (Zc_lt _ _)).
  pose proof (Z.mod_pos_bound (Z.of_nat n) HALVING_INTERVAL ltac:(done)).
  unfold HALVING_INTERVAL in *. lia.
Qed.

Lemma reward_at_antitone (j k : Z) : 0 <= j <= k -> (reward_at k <= reward_at j)%Qc.
Proof.
  intros Hjk. unfold reward_at.
  assert (Z.to_nat (j `div` HALVING_INTERVAL) <= Z.to_nat (k `div` HALVING_INTERVAL))%nat
    as Hle.
  { apply Z2Nat.inj_le; [apply Z.div_pos; unfold HALVING_INTERVAL; lia..|].
    apply Z.div_le_mono; unfold HALVING_INTERVAL; lia. }
  induction Hle as [|m Hle IH]; [done|].
  rewrite Nat.iter_succ. etrans; [|exact IH].
  set (q := Nat.iter m _ _).
  assert (0 < q)%Qc as Hq.
  { unfold q. clear. induction m as [|m IH]; [done|].
    rewrite Nat.iter_succ. unfold Qcdiv. apply Qcmult_pos_pos; [exact IH | done]. }
  apply Qcle_minus_iff. replace (q + - (q / 2))%Qc with (q / 2)%Qc by (field; done).
  apply Qclt_le_weak. unfold Qcdiv. apply Qcmult_pos_pos; [exact Hq | done].
Qed.

(** X18. The supply is capped. In every state of the process the rewards
    credited to the blocks of the chain never increase along the chain, and
    their sum stays below 21 million, whatever the length of the chain. *)
Theorem reward_supply_capped (s : system) :
  reachable_full s ->
  exists rewards,
    Forall2 (fun block r => credited (core s) block = Ok r) (CHAIN (core s)) rewards /\
    (forall j k rj rk,
       (j <= k)%nat -> rewards !! j = Some rj -> rewards !! k = Some rk -> (rk <= rj)%Qc) /\
    (total rewards < Zc 21000000)%Qc.
Proof.
  intros Hs. destruct (reachable_full_chain_inv s Hs) as (_ & _ & Hblocks).
  set (n := length (CHAIN (core s))).
  exists (map (fun k => reward_at (Z.of_nat k)) (seq 0 n)).
  split; [|split].
  - apply Forall2_same_length_lookup. split; [by rewrite length_map, length_seq|].
    intros k block r Hk Hr. rewrite list_lookup_fmap in Hr.
    destruct (seq 0 n !! k) as [k'|] eqn:Hseq; [|discriminate].
    apply lookup_seq in Hseq as [-> _]. injection Hr as <-. by apply Hblocks.
  - intros j k rj rk Hjk Hj Hk. rewrite list_lookup_fmap in Hj, Hk.
    destruct (seq 0 n !! j) as [j'|] eqn:Hsj; [|discriminate].
    destruct (seq 0 n !! k) as [k'|] eqn:Hsk; [|discriminate].
    apply lookup_seq in Hsj as [-> _]. apply lookup_seq in Hsk as [-> _].
    injection Hj as <-. injection Hk as <-. apply reward_at_antitone. lia.
  - apply minted_below_cap.
Qed.


(** ** adjust_difficulty *)





(** ** The ledger does not depend on the monitor or the disk *)

(** A run on the whole state and a run on the ledger alone agree. *)
Definition agrees {A} (x : system * res A) (y : world * res A) : Prop :=
  core x.1 = y.1 /\ x.2 = y.2.

Lemma bind_assoc {A B C} (m : M A) (f : A -> M B) (g : B -> M C) (w : world) :
  bind (bind m f) g w = bind m (fun a => bind (f a) g) w.
Proof. unfold bind. by destruct (m w) as [w' [a|x]]. Qed.

Lemma agrees_on_core {A B} (m : M A) (kf : A -> SM B) (k : A -> M B)
    (w : world) (info : dict) (fs : gmap string string) :
  (forall a w', agrees (kf a (System w' info fs)) (k a w')) ->
  agrees (sbind (on_core m) kf (System w info fs)) (bind m k w).
Proof.
  intros Hk. unfold sbind, on_core, bind. cbn [core mining_info files].
  destruct (m w) as [w' [a|x]]; [apply Hk | by split].
Qed.

Lemma agrees_set_info {B} (key : string) (v : value) (kf : unit -> SM B)
    (w : world) (info : dict) (fs : gmap string string) (y : world * res B) :
  agrees (kf tt (System w (dict_set key v info) fs)) y ->
  agrees (sbind (set_info key v) kf (System w info fs)) y.
Proof. intros Hk. exact Hk. Qed.

Lemma agrees_save_block_data {B} (block : loc) (name : string) (kf : unit -> SM B)
    (w : world) (info : dict) (fs : gmap string string) (y : world * res B) :
  (forall fs', agrees (kf tt (System w info fs')) y) ->
  agrees (sbind (save_block_data block name) kf (System w info fs)) y.
Proof. intros Hk. apply Hk. Qed.

Lemma agrees_mine {B} (bd : loc) (difficulty : Z) (num_workers : option Z) (e : Qc)
    (kf : option loc -> SM B) (k : option loc -> M B)
    (w : world) (info : dict) (fs : gmap string string) :
  e <> 0%Qc ->
  (forall r w' info', agrees (kf r (System w' info' fs)) (k r w')) ->
  agrees (sbind (mine_full bd difficulty num_workers e) kf (System w info fs))
         (bind (mine_w bd difficulty num_workers) k w).
Proof.
  intros He Hk. unfold sbind, bind, mine_w.
  destruct (decide (target_defined difficulty)) as [Hd|Hd].
  2:{ rewrite mine_full_overflow, mine_overflow by done.
      split; [|reflexivity]. by destruct w. }
  destruct (decide (1 <= worker_count num_workers)) as [Hnw|Hnw].
  - destruct (mine_least_accepted bd difficulty num_workers (heap w) Hd Hnw)
      as (fresh & r & Hrun & _).
    rewrite (mine_full_worker bd difficulty num_workers e (System w info fs) _ _ Hnw Hrun).
    rewrite Hrun. cbn zeta. destruct (decide (e = 0%Qc)); [done|]. apply Hk.
  - destruct (mine_full_no_worker bd difficulty num_workers e (System w info fs))
      as (x & -> & Hrun); [lia|].
    cbn [core] in Hrun. rewrite Hrun. split; [|reflexivity]. by destruct w.
Qed.

Lemma start_mining_full_agrees (data : dict) (e t : Qc) (s : system) :
  e <> 0%Qc ->
  agrees (start_mining_full data e t s) (start_mining data t (core s)).
Proof.
  intros He. destruct s as [w info fs]. cbn [core].
  unfold start_mining_full, start_mining. cbn [core].
  apply agrees_on_core. intros previous_hash w1.
  apply agrees_on_core. intros block_data w2.
  apply agrees_on_core. intros target_difficulty w3.
  do 3 apply agrees_set_info.
  apply agrees_on_core. intros workers w4.
  apply agrees_mine; [exact He|]. intros mined_block w5 info5.
  apply agrees_on_core. intros ok w6.
  destruct mined_block as [block|]; [destruct ok|]; try (by split).
  unfold credit_and_append. rewrite !bind_assoc.
  apply agrees_on_core. intros [] w7.
  rewrite !bind_assoc.
  apply agrees_on_core. intros [] w8.
  apply agrees_save_block_data. intros fs'.
  apply agrees_on_core. intros [] w9.
  apply agrees_on_core. intros [] w10.
  apply agrees_on_core. intros z w11.
  by split.
Qed.


Lemma main_full_agrees (bd_items : dict) (difficulty : string) (num_workers : option Z)
    (save_file : string) (e t : Qc) (s : system) :
  e <> 0%Qc ->
  agrees (main_full bd_items difficulty num_workers save_file e t s)
         (main bd_items difficulty num_workers t (core s)).
Proof.
  intros He. destruct s as [w info fs]. cbn [core].
  unfold main_full, main.
  apply agrees_on_core. intros block_data w1.
  apply agrees_on_core. intros target_difficulty w2.
  apply agrees_on_core. intros bn w3.
  apply agrees_mine; [exact He|]. intros mined_block w4 info4.
  apply agrees_on_core. intros ok w5.
  destruct mined_block as [block|]; [destruct ok|]; try (by split).
  unfold credit_and_append.
  apply agrees_on_core. intros [] w6.
  apply agrees_on_core. intros [] w7.
  apply agrees_save_block_data. intros fs'.
  unfold agrees, on_core. cbn [core mining_info files].
  by destruct (add_block_to_chain block w7) as [w8 r8].
Qed.

(** X20. The ledger does not depend on the monitor or the disk. When the
    clock advances during the search, what a request does to the store, to
    CHAIN and to REWARD, and what it answers, is what [start_mining] does on
    the ledger alone: it is the same for any two states with the same
    ledger, whatever their monitoring records and files and whatever the
    elapsed times; the same holds for the script body. *)
Theorem ledger_ignores_monitor (data : dict) (e1 e2 t : Qc) (s1 s2 : system) :
  e1 <> 0%Qc -> e2 <> 0%Qc -> core s1 = core s2 ->
  core (start_mining_full data e1 t s1).1 = (start_mining data t (core s1)).1 /\
  (start_mining_full data e1 t s1).2 = (start_mining data t (core s1)).2 /\
  core (start_mining_full data e1 t s1).1 = core (start_mining_full data e2 t s2).1 /\
  (start_mining_full data e1 t s1).2 = (start_mining_full data e2 t s2).2 /\
  (forall bd_items difficulty num_workers save_file,
     core (main_full bd_items difficulty num_workers save_file e1 t s1).1
       = (main bd_items difficulty num_workers t (core s1)).1 /\
     (main_full bd_items difficulty num_workers save_file e1 t s1).2
       = (main bd_items difficulty num_workers t (core s1)).2).
Proof.
  intros He1 He2 Hcore.
  destruct (start_mining_full_agrees data e1 t s1 He1) as [Hw1 Hr1].
  destruct (start_mining_full_agrees data e2 t s2 He2) as [Hw2 Hr2].
  split; [exact Hw1|]. split; [exact Hr1|].
  split; [by rewrite Hw1, Hw2, Hcore|]. split; [by rewrite Hr1, Hr2, Hcore|].
  intros bd_items difficulty num_workers save_file.
  exact (main_full_agrees bd_items difficulty num_workers save_file e1 t s1 He1).
Qed.

(** ** Blocks can be verified again *)

Definition block_keys : list string :=
  ["block_number"; "transactions"; "previous_hash"; "nonce"; "hash"; "mining_time";
   "reward"].

(** The hash of the block is the digest of its first four fields. *)
Definition hash_verifies (blk : dict) : Prop :=
  keys blk = block_keys /\
  dict_get "hash" blk = Some (VStr (SHA256 (to_string (VDict (take 4 blk))))).

Lemma request_block_verifies (data : dict) (w : world) (ph : value) (n : Z) (t : Qc)
    (r : number) :
  hash_verifies (request_block (request_template data w ph) n t r).
Proof.
  unfold hash_verifies, request_block, candidate_hash, candidate.
  rewrite dict_set_new_key.
  2:{ unfold keys, request_template. simpl. rewrite !elem_of_cons, elem_of_nil.
      intros [H|[H|[H|H]]]; (discriminate H || exact H). }
  set (new_hash := SHA256 _).
  replace (take 4 (request_template data w ph ++
                   [("nonce"%string, VInt n); ("hash"%string, VStr new_hash);
                    ("mining_time"%string, VFloat t); ("reward"%string, value_of_number r)]))
    with (request_template data w ph ++ [("nonce"%string, VInt n)])
    by (unfold request_template; reflexivity).
  fold new_hash. clearbody new_hash.
  unfold request_template. split; reflexivity.
Qed.


Definition hashes_ok (s : system) : Prop :=
  forall k block,
    (1 <= k)%nat -> CHAIN (core s) !! k = Some block ->
    hash_verifies (deref (heap (core s)) block).

Lemma hashes_ok_request (data : dict) (e t : Qc) (s : system) :
  chain_wf (core s) -> hashes_ok s -> hashes_ok (start_mining_full data e t s).1.
Proof.
  intros Hwf Hok.
  destruct (start_mining_full_cases data e t s Hwf)
    as (s' & r & -> & _ & [fresh Hheap] & Hcases).
  cbn [fst].
  assert (forall b, b ∈ CHAIN (core s) ->
            deref (heap (core s')) b = deref (heap (core s)) b) as Hold.
  { intros b Hb. rewrite Hheap. apply deref_extend.
    destruct Hwf as (Hlocs & _). by apply Hlocs. }
  destruct Hcases as [(Hchain & _) | Happend].
  - intros k block Hk Hl. rewrite Hchain in Hl.
    rewrite Hold by (by eapply list_elem_of_lookup_2). by eapply Hok.
  - destruct Happend as (block & ph & bits & n & workers & _ & _ & _ & _ & _ & _ & _ &
                         Hblk & Hchain & _).
    intros k b Hk Hl. rewrite Hchain in Hl.
    apply lookup_app_Some in Hl as [Hl | [Hlen Hl]].
    + rewrite Hold by (by eapply list_elem_of_lookup_2). by eapply Hok.
    + apply list_lookup_singleton_Some in Hl as [_ ->].
      rewrite (deref_Some _ _ _ Hblk). apply request_block_verifies.
Qed.

(** X21. Blocks can be verified again. In every state of the process each
    block of the chain from the second on has exactly the seven fields
    block_number, transactions, previous_hash, nonce, hash, mining_time and
    reward, in this order, and its hash is the SHA-256 digest of the
    serialization of its first four fields: the time and the reward added
    after the search are not covered by the hash. *)
Theorem chain_hashes_verifiable (s : system) :
  reachable_full s ->
  forall k block,
    (1 <= k)%nat -> CHAIN (core s) !! k = Some block ->
    keys (deref (heap (core s)) block)
      = ["block_number"; "transactions"; "previous_hash"; "nonce"; "hash"; "mining_time";
         "reward"]%string /\
    dict_get "hash" (deref (heap (core s)) block)
      = Some (VStr (SHA256 (to_string (VDict (take 4 (deref (heap (core s)) block)))))).
Proof.
  induction 1 as [disk | disk bd difficulty nw save_file e t | s data e t Hs IH].
  - intros k block _ Hl. by destruct k.
  - destruct (main_full_outcome bd difficulty nw save_file e t disk)
      as (s' & r & -> & _ & _ & Hcases).
    cbn [fst]. intros k block Hk Hl.
    destruct Hcases as [(Hchain & _) | (b & bits & n & _ & _ & _ & _ & Hchain & _)];
      rewrite Hchain in Hl; (destruct k as [|k]; [lia|]); by destruct k.
  - apply hashes_ok_request; [by apply reachable_full_chain_wf | exact IH].
Qed.

End Environment.

(** * Concrete runs *)

(** Known digests. *)
Example SHA256_empty :
  SHA256 "" = "e3b0c44298fc1c149afbf4c8996fb92427ae41e4649b934ca495991b7852b855"%string.
Proof. vm_compute. reflexivity. Qed.

Example SHA256_abc :
  SHA256 "abc" = "ba7816bf8f01cfea414140de5dae2223b00361a396177a9cb410ff61f20015ad"%string.
Proof. vm_compute. reflexivity. Qed.

(** Texts as [json.dumps] prints them; [sq] turns the single quotes of a
    literal into double quotes. *)
Definition sq (s : string) : string :=
  string_of_list_ascii
    (map (fun c => if Ascii.eqb c "'"%char then dquote else c) (list_ascii_of_string s)).

Example to_string_template :
  to_string (fun _ => "") (VDict [("block_number", VInt 1); ("transactions", VStr "A->B:10");
                      ("previous_hash", VStr "00"); ("nonce", VInt 3)])
  = sq "{'block_number': 1, 'nonce': 3, 'previous_hash': '00', 'transactions': 'A->B:10'}".
Proof. vm_compute. reflexivity. Qed.

Example to_string_nested :
  to_string (fun _ => "")
    (VDict [("b", VStr (String "x" (String dquote (String backslash (String "010" (String "009"
               (String "127" (String "001" (String "233" EmptyString)))))))));
            ("a", VList [VInt 1; VInt (-2); VNone; VBool true; VDict [("z", VInt 1); ("y", VList [])]]);
            ("c", VDict [])])
  = sq "{'a': [1, -2, null, true, {'y': [], 'z': 1}], 'b': 'x\'\\\n\t\u007f\u0001\u00e9', 'c': {}}".
Proof. vm_compute. reflexivity. Qed.

(** The template of the specification's scenario, alone in the store. *)
Definition scenario_template : dict :=
  [("block_number", VInt 1); ("transactions", VStr "A->B:10"); ("previous_hash", VStr zeros64)].

Definition scenario_store : store := [scenario_template].

(** No float is serialized in the runs below, so the rendering of floats
    does not matter there. *)
Definition no_floats : Qc -> string := fun _ => "".

Example mine_scenario :
  (mine no_floats 8 0%nat 2 (Some 4) scenario_store).2 = Ok (Some 1%nat) /\
  (mine no_floats 8 0%nat 2 (Some 4) scenario_store).1 !! 1%nat =
    Some (scenario_template ++
          [("nonce", VInt 3);
           ("hash", VStr "30c2f168e4396bc0ecefa97049d9b44c5577924e0abeb19e50a02b908da1aafb")]).
Proof. vm_compute. done. Qed.

(** C1. With three workers the ranges handed to the pool stop one short of
    2^32: the nonce 4294967295 belongs to the nonce universe and to no
    range, and no range absorbs the remainder of the division. *)
Theorem three_workers_miss_last_nonce :
  nonce_ranges 8 0%nat 2 (Some 3) scenario_store =
    [(0, 1431655765); (1431655765, 2863311530); (2863311530, 4294967295)] /\
  0 <= 4294967295 < max_nonce /\
  Forall (fun r => ~ in_range 4294967295 r) (nonce_ranges 8 0%nat 2 (Some 3) scenario_store).
Proof.
  assert (nonce_ranges 8 0%nat 2 (Some 3) scenario_store =
          [(0, 1431655765); (1431655765, 2863311530); (2863311530, 4294967295)]) as Heq
    by (vm_compute; reflexivity).
  rewrite Heq. split; [done|]. split; [unfold max_nonce; lia|].
  repeat constructor; unfold in_range; simpl; lia.
Qed.

(** A chain of one block, and a second block whose previous hash is not the
    hash of the first. *)
Definition unlinked_world : world :=
  World [ [("block_number", VInt 1); ("previous_hash", VStr zeros64); ("hash", VStr "aa")];
          [("block_number", VInt 2); ("previous_hash", VStr "bb"); ("hash", VStr "cc")] ]
        [0%nat] (Int 50).

(** C2, counterexample. A block whose previous hash differs from the tail's
    hash is appended without complaint. *)
Lemma add_block_to_chain_accepts_unlinked :
  ~ previous_hash_matches unlinked_world 1%nat /\
  add_block_to_chain 1%nat unlinked_world =
    (World (heap unlinked_world) [0%nat; 1%nat] (Int 50), Ok tt).
Proof.
  split; [|reflexivity].
  intros (ph & Hexp & Hprev). vm_compute in Hexp, Hprev. congruence.
Qed.

Lemma add_block_to_chain_appends_witness :
  length (CHAIN (add_block_to_chain 1%nat unlinked_world).1) = 2%nat /\
  (add_block_to_chain 1%nat unlinked_world).2 = Ok tt.
Proof.
  destruct (add_block_to_chain_appends 1%nat unlinked_world) as (_ & Hlen & _ & _ & Hok).
  split; [exact Hlen|]. apply Hok. vm_compute. eauto.
Defined.



(** One request served from the initial state. *)
Definition first_request : dict := [("difficulty", VStr "Easy"); ("num_workers", VInt 3)].

Definition after_first_request : world :=
  (start_mining no_floats 8 first_request (Q2Qc (3 # 2)) initial_world).1.

Lemma reward_halving_witness :
  reachable no_floats 8 after_first_request /\
  CHAIN after_first_request = [1%nat] /\
  credited after_first_request 1%nat = Ok (Zc 50).
Proof.
  assert (reachable no_floats 8 after_first_request) as Hreach
    by (apply reach_request, reach_initial).
  split; [exact Hreach|].
  destruct (reward_halving no_floats 8 after_first_request Hreach)
    as (_ & Hblocks & Hfirst & _).
  assert (CHAIN after_first_request = [1%nat]) as Hchain by (vm_compute; reflexivity).
  split; [exact Hchain|].
  rewrite (Hblocks 0%nat 1%nat) by (rewrite Hchain; reflexivity).
  rewrite (Hfirst (Z.of_nat 0)) by (simpl; lia). reflexivity.
Defined.

Lemma mine_first_accepted_witness :
  2 < 2 ^ 1024 - 2 ^ 970 + 256 /\
  1 <= worker_count 8 (Some 4) /\
  exists h' l n,
    mine no_floats 8 0%nat 2 (Some 4) scenario_store = (h', Ok (Some l)) /\
    h' !! l = Some (sealed no_floats scenario_template n) /\
    accepted no_floats scenario_template (calculate_target 2) n.
Proof.
  split; [lia|]. split; [done|].
  destruct (mine_first_accepted no_floats 8 0%nat 2 (Some 4) scenario_store)
    as [_ (h' & r & Hrun & Hres)]; [lia | done |].
  destruct r as [l|].
  - destruct Hres as (i & n & _ & (_ & Hacc & _) & _ & Hl). exists h', l, n.
    split; [exact Hrun|]. split; [exact Hl | exact Hacc].
  - exfalso. assert ((mine no_floats 8 0%nat 2 (Some 4) scenario_store).2 = Ok (Some 1%nat))
      as Hcomp by (vm_compute; reflexivity).
    rewrite Hrun in Hcomp. discriminate.
Defined.

Lemma mined_block_meets_target_witness :
  exists block new_hash nonce v,
    (mine no_floats 8 0%nat 2 (Some 4) scenario_store).1 !! 1%nat = Some block /\
    dict_get "hash" block = Some (VStr new_hash) /\
    dict_get "nonce" block = Some (VInt nonce) /\
    int16 new_hash = Some v /\
    (Zc v < calculate_target 2)%Qc /\
    0 <= nonce < 2 ^ 32.
Proof.
  destruct (mined_block_meets_target no_floats 8 0%nat 2 (Some 4) scenario_store
              (mine no_floats 8 0%nat 2 (Some 4) scenario_store).1 1%nat)
    as (block & new_hash & nonce & v & H1 & H2 & H3 & _ & H5 & H6 & H7).
  { vm_compute. reflexivity. }
  exists block, new_hash, nonce, v.
  split; [exact H1|]. split; [exact H2|]. split; [exact H3|].
  split; [exact H5|]. split; [exact H6 | exact H7].
Defined.

Lemma calculate_target_supported_witness :
  2 ∈ supported_difficulties /\ 3 ∈ supported_difficulties /\
  calculate_target 2 = Zc (2 ^ 254) /\ (calculate_target 3 < calculate_target 2)%Qc.
Proof.
  assert (2 ∈ supported_difficulties) as H2
    by (unfold supported_difficulties, DIFFICULTIES; cbn [map snd];
        rewrite !elem_of_cons; tauto).
  assert (3 ∈ supported_difficulties) as H3
    by (unfold supported_difficulties, DIFFICULTIES; cbn [map snd];
        rewrite !elem_of_cons; tauto).
  destruct (calculate_target_supported 2 3 H2 H3) as [Heq Hlt].
  split; [exact H2|]. split; [exact H3|]. split; [exact Heq|]. apply Hlt. lia.
Defined.

(** The scenario template with its fields inserted in the opposite order. *)
Definition scenario_template_reversed : dict := rev scenario_template.

Lemma hashing_ignores_insertion_order_witness :
  NoDup (keys scenario_template) /\
  scenario_template ≡ₚ scenario_template_reversed /\
  to_string no_floats (VDict scenario_template) =
    to_string no_floats (VDict scenario_template_reversed) /\
  candidate_hash no_floats scenario_template 3 =
    candidate_hash no_floats scenario_template_reversed 3.
Proof.
  assert (NoDup (keys scenario_template)) as Hnd.
  { unfold keys, scenario_template. simpl.
    repeat (apply NoDup_cons; split; [rewrite ?elem_of_cons, ?elem_of_nil; intros H;
      repeat (destruct H as [H|H]; [discriminate H|]); exact H|]).
    apply NoDup_nil_2. }
  assert (scenario_template ≡ₚ scenario_template_reversed) as Hp
    by (apply Permutation_rev).
  destruct (hashing_ignores_insertion_order no_floats scenario_template
              scenario_template_reversed 3 Hnd Hp) as (Htext & Hhash & _).
  split; [exact Hnd|]. split; [exact Hp|]. split; [exact Htext | exact Hhash].
Defined.

(** Ten blocks mined in 100 seconds each. *)
Definition timed_block (t : Qc) : dict := [("block_number", VInt 1); ("mining_time", VFloat t)].

Definition timed_chain (ts : list Qc) : world :=
  World (map timed_block ts) (seq 0 (length ts)) (Int 50).



(** C9, counterexample. The double next below 600.0 is [600 - 2 ^ -43],
    printed 599.9999999999999. Nine blocks mined in 600.0 seconds and one in
    that time have an arithmetic mean strictly below the target of 600
    seconds; the float sum of the ten times is 6000.0, [avg_time] is 600.0
    and the recommendation is 0 (unchanged), not 1 (increase). *)
Definition just_under_target : Qc := (Zc 600 - Q2Qc (1 # 2 ^ 43))%Qc.

Definition near_times : list Qc := replicate 9 (Zc 600) ++ [just_under_target].

Definition near_chain : world := timed_chain near_times.

Lemma retarget_mean_below_target :
  round_float just_under_target = Finite just_under_target /\
  batch_boundary near_chain /\
  Forall2 (fun b x => mining_time_of (heap near_chain) b = Some x)
    (last_n 10 (CHAIN near_chain)) near_times /\
  (mean near_times < Zc TARGET_TIME)%Qc /\
  float_total near_times = Finite (Zc 6000) /\
  float_mean near_times = Finite (Zc TARGET_TIME) /\
  (retarget_difficulty near_chain).2 = Ok 0.
Proof.
  pose proof float_is as Hfin.
  split; [apply Hfin; [vm_compute; reflexivity | by vm_compute]|].
  split; [split; [discriminate | reflexivity]|].
  split; [vm_compute; repeat constructor|].
  split; [vm_compute; reflexivity|].
  split; [apply Hfin; [vm_compute; reflexivity | by vm_compute]|].
  split; [apply Hfin; [vm_compute; reflexivity | by vm_compute]|].
  vm_compute. reflexivity.
Qed.

Lemma mine_keeps_template_witness :
  scenario_store !! 0%nat = Some scenario_template /\
  (mine no_floats 8 0%nat 2 (Some 4) scenario_store).1 !! 0%nat = Some scenario_template.
Proof.
  split; [reflexivity|].
  destruct (mine_keeps_template no_floats 8 0%nat 2 (Some 4) scenario_store scenario_template)
    as (Hkeep & _); [reflexivity|].
  exact Hkeep.
Defined.
(** ** The monitoring record and the saved files *)

(** Texts as [json.dump] writes them with [indent=4]; [lines] joins the
    lines of a literal. *)
Definition lines (l : list string) : string := String.concat (String newline EmptyString) l.

Example dumps_indent_block :
  dumps_indent no_floats 0
    (VDict [("block_number", VInt 1); ("transactions", VStr "A->B:10"); ("nonce", VInt 3)])
  = lines [ "{";
            sq "    'block_number': 1,";
            sq "    'transactions': 'A->B:10',";
            sq "    'nonce': 3";
            "}" ].
Proof. vm_compute. reflexivity. Qed.

Example dumps_indent_nested :
  dumps_indent no_floats 0
    (VDict [("b", VList [VInt 1; VDict []; VList [VNone; VBool false]]); ("a", VDict [("z", VList [])])])
  = lines [ "{";
            sq "    'b': [";
            "        1,";
            "        {},";
            "        [";
            "            null,";
            "            false";
            "        ]";
            "    ],";
            sq "    'a': {";
            sq "        'z': []";
            "    }";
            "}" ].
Proof. vm_compute. reflexivity. Qed.


(** The script on the scenario template at the easiest difficulty, and one
    request served after it. *)
Definition after_script : system :=
  (main_full no_floats 8 scenario_template "Easy" (Some 4) "mined_block.json"
     (Zc 2) (Zc 3) (initial_system ∅)).1.

Definition after_script_and_request : system :=
  (start_mining_full no_floats 8 first_request (Zc 2) (Zc 3) after_script).1.

Lemma after_script_reachable : reachable_full no_floats 8 after_script.
Proof. unfold after_script. apply reach_full_main. Qed.

Lemma after_script_and_request_reachable :
  reachable_full no_floats 8 after_script_and_request.
Proof.
  unfold after_script_and_request. apply reach_full_request, after_script_reachable.
Qed.

Example after_script_chain : CHAIN (core after_script) = [1%nat].
Proof. vm_compute. reflexivity. Qed.

Example after_script_and_request_chain :
  CHAIN (core after_script_and_request) = [1%nat; 6%nat].
Proof. vm_compute. reflexivity. Qed.

Example after_script_and_request_status :
  dict_get "status" (mining_info after_script_and_request) = Some (VStr "idle") /\
  dict_get "current_block" (mining_info after_script_and_request) = Some (VInt 2) /\
  dict_get "difficulty" (mining_info after_script_and_request) = Some (VStr "Easy").
Proof. vm_compute. done. Qed.

(** ** Instances of the further properties *)

Lemma scenario_template_NoDup : NoDup (keys scenario_template).
Proof.
  unfold keys, scenario_template. simpl.
  repeat (apply NoDup_cons; split; [rewrite ?elem_of_cons, ?elem_of_nil; intros H;
    repeat (destruct H as [H|H]; [discriminate H|]); exact H|]).
  apply NoDup_nil_2.
Qed.

Lemma mine_scenario_run :
  mine no_floats 8 0%nat 2 (Some 4) scenario_store =
    ((mine no_floats 8 0%nat 2 (Some 4) scenario_store).1, Ok (Some 1%nat)).
Proof. vm_compute. reflexivity. Qed.

Lemma mine_returns_least_accepted_witness :
  2 < 2 ^ 1024 - 2 ^ 970 + 256 /\
  1 <= worker_count 8 (Some 4) /\
  exists h' r,
    mine no_floats 8 0%nat 2 (Some 4) scenario_store = (h', Ok r) /\
    match r with
    | Some l =>
        exists n,
          first_accepted no_floats scenario_template (calculate_target 2) 0
            (scanned 8 (Some 4)) n /\
          h' !! l = Some (sealed no_floats scenario_template n) /\
          block_nonce h' l = Some (VInt n)
    | None =>
        none_accepted no_floats scenario_template (calculate_target 2) 0 (scanned 8 (Some 4))
    end.
Proof.
  split; [lia|]. split; [done|].
  apply (mine_returns_least_accepted no_floats 8 0%nat 2 (Some 4) scenario_store);
    [lia | done].
Defined.

Lemma mine_outcome_determined_witness :
  2 < 2 ^ 1024 - 2 ^ 970 + 256 /\
  scanned 8 (Some 4) = scanned 8 (Some 8) /\
  scenario_template ≡ₚ scenario_template_reversed /\
  block_nonce (mine no_floats 8 0%nat 2 (Some 4) scenario_store).1 1%nat =
    block_nonce (mine no_floats 8 0%nat 2 (Some 8) [scenario_template_reversed]).1 1%nat /\
  block_hash (mine no_floats 8 0%nat 2 (Some 4) scenario_store).1 1%nat =
    block_hash (mine no_floats 8 0%nat 2 (Some 8) [scenario_template_reversed]).1 1%nat.
Proof.
  assert (scanned 8 (Some 4) = scanned 8 (Some 8)) as Hscan by reflexivity.
  assert (scenario_template ≡ₚ scenario_template_reversed) as Hp by apply Permutation_rev.
  split; [lia|]. split; [exact Hscan|]. split; [exact Hp|].
  pose proof (mine_outcome_determined no_floats 8 0%nat 0%nat 2 (Some 4) (Some 8)
                scenario_store [scenario_template_reversed] ltac:(lia) ltac:(done)
                ltac:(done) Hscan scenario_template_NoDup Hp) as Hsame.
  assert ((mine no_floats 8 0%nat 2 (Some 4) scenario_store).2 = Ok (Some 1%nat)) as Hrun1
    by (vm_compute; reflexivity).
  assert ((mine no_floats 8 0%nat 2 (Some 8) [scenario_template_reversed]).2
          = Ok (Some 1%nat)) as Hrun2 by (vm_compute; reflexivity).
  rewrite Hrun1, Hrun2 in Hsame.
  destruct Hsame as (Hnonce & Hhash & _). split; [exact Hnonce | exact Hhash].
Defined.

Lemma mine_nonpositive_difficulty_witness :
  0 <= 0 /\ 1 <= worker_count 8 (Some 4) <= max_nonce /\
  exists h' l,
    mine no_floats 8 0%nat 0 (Some 4) scenario_store = (h', Ok (Some l)) /\
    h' !! l = Some (sealed no_floats scenario_template 0).
Proof.
  assert (1 <= worker_count 8 (Some 4) <= max_nonce) as Hnw by (unfold max_nonce; simpl; lia).
  split; [lia|]. split; [exact Hnw|].
  exact (mine_nonpositive_difficulty no_floats 8 0%nat 0 (Some 4) scenario_store
           ltac:(lia) Hnw).
Defined.


Lemma mine_easier_difficulty_witness :
  exists h1 l1 n1 n2,
    mine no_floats 8 0%nat 0 (Some 4) scenario_store = (h1, Ok (Some l1)) /\
    block_nonce h1 l1 = Some (VInt n1) /\
    block_nonce (mine no_floats 8 0%nat 2 (Some 4) scenario_store).1 1%nat = Some (VInt n2) /\
    n1 <= n2.
Proof.
  exact (mine_easier_difficulty no_floats 8 0%nat 0 2 (Some 4) scenario_store
           (mine no_floats 8 0%nat 2 (Some 4) scenario_store).1 1%nat
           ltac:(lia) mine_scenario_run).
Defined.

Lemma mine_block_extends_template_witness :
  1%nat <> 0%nat /\
  exists block n new_hash,
    (mine no_floats 8 0%nat 2 (Some 4) scenario_store).1 !! 1%nat = Some block /\
    dict_get "transactions" block = dict_get "transactions" scenario_template /\
    block = scenario_template ++ [("nonce", VInt n); ("hash", VStr new_hash)]%string.
Proof.
  destruct (mine_block_extends_template no_floats 8 0%nat 2 (Some 4) scenario_store
              (mine no_floats 8 0%nat 2 (Some 4) scenario_store).1 1%nat scenario_template
              mine_scenario_run eq_refl)
    as (Hne & block & Hblock & Hsame & Hnew).
  split; [exact Hne|].
  destruct Hnew as (n & new_hash & Heq).
  { unfold keys, scenario_template. simpl. rewrite !elem_of_cons, elem_of_nil.
    intros [H|[H|[H|H]]]; (discriminate H || exact H). }
  { unfold keys, scenario_template. simpl. rewrite !elem_of_cons, elem_of_nil.
    intros [H|[H|[H|H]]]; (discriminate H || exact H). }
  exists block, n, new_hash. split; [exact Hblock|]. split; [|exact Heq].
  apply Hsame; discriminate.
Defined.



Lemma digest_of_serialized_value_witness :
  (forall q, ascii_only (no_floats q)) /\
  ascii_only (to_string no_floats (VDict scenario_template)) /\
  String.length (SHA256 (to_string no_floats (VDict scenario_template))) = 64%nat.
Proof.
  assert (forall q, ascii_only (no_floats q)) as Hfloat by (intros q; exact I).
  split; [exact Hfloat|].
  destruct (digest_of_serialized_value no_floats Hfloat (VDict scenario_template))
    as (Hascii & Hlen & _).
  split; [exact Hascii | exact Hlen].
Defined.

Lemma nonce_ranges_coverage_witness :
  1 <= worker_count 8 (Some 3) /\
  max_nonce - scanned 8 (Some 3) = max_nonce `mod` worker_count 8 (Some 3) /\
  0 <= max_nonce - scanned 8 (Some 3) < worker_count 8 (Some 3).
Proof.
  split; [done|].
  destruct (nonce_ranges_coverage 8 (Some 3)) as (_ & _ & Hrest & Hbound & _); [done|].
  split; [exact Hrest | exact Hbound].
Defined.

Lemma chain_blocks_linked_witness :
  reachable_full no_floats 8 after_script_and_request /\
  linked (deref (heap (core after_script_and_request)) 1%nat)
         (deref (heap (core after_script_and_request)) 6%nat) /\
  dict_get "block_number" (deref (heap (core after_script_and_request)) 6%nat)
    = Some (VInt (Z.of_nat 1 + 1)).
Proof.
  split; [exact after_script_and_request_reachable|].
  destruct (chain_blocks_linked no_floats 8 after_script_and_request
              after_script_and_request_reachable) as [_ Hlink].
  apply (Hlink 0%nat 1%nat 6%nat); rewrite after_script_and_request_chain; reflexivity.
Defined.

Lemma retarget_difficulty_total_witness :
  reachable_full no_floats 8 after_script /\
  (retarget_difficulty (core after_script)).2 = Ok 0.
Proof.
  split; [exact after_script_reachable|].
  destruct (retarget_difficulty_total no_floats 8 after_script after_script_reachable)
    as (z & Hz & _ & Hoff & _).
  rewrite Hz. f_equal. apply Hoff. rewrite after_script_chain. discriminate.
Defined.

Lemma request_answer_witness :
  reachable_full no_floats 8 after_script /\
  CHAIN (core after_script_and_request) = CHAIN (core after_script) ++ [6%nat] /\
  dict_get "reward" (deref (heap (core after_script_and_request)) 6%nat) = Some (VInt 50) /\
  dict_get "status" (mining_info after_script_and_request) = Some (VStr "idle").
Proof.
  split; [exact after_script_reachable|].
  pose proof (request_answer no_floats 8 first_request (Zc 2) (Zc 3) after_script
                after_script_reachable) as Hanswer.
  cbv zeta in Hanswer.
  assert ((start_mining_full no_floats 8 first_request (Zc 2) (Zc 3) after_script).2
          = Ok (Some 6%nat)) as Hrun by (vm_compute; reflexivity).
  rewrite Hrun in Hanswer.
  destruct Hanswer as (_ & Hchain & _ & Hreward & _ & Hstatus).
  split; [exact Hchain|]. split; [|exact Hstatus].
  assert (REWARD (core after_script) = Int 50) as Hfifty by (vm_compute; reflexivity).
  rewrite Hfifty in Hreward. exact Hreward.
Defined.

(** A request for no worker at all. *)
Definition no_worker_request : dict := [("num_workers", VInt 0)].

Lemma request_raises_iff_witness :
  reachable_full no_floats 8 after_script /\
  fails (start_mining_full no_floats 8 no_worker_request (Zc 2) (Zc 3) after_script).2.
Proof.
  split; [exact after_script_reachable|].
  apply (request_raises_iff no_floats 8 no_worker_request (Zc 2) (Zc 3) after_script
           after_script_reachable).
  right. right. left. exists (Some 0). split; [reflexivity | done].
Defined.

Lemma chain_append_only_witness :
  reachable_full no_floats 8 after_script /\
  CHAIN (core after_script) `prefix_of` CHAIN (core after_script_and_request) /\
  deref (heap (core after_script_and_request)) 1%nat = deref (heap (core after_script)) 1%nat.
Proof.
  split; [exact after_script_reachable|].
  destruct (chain_append_only no_floats 8 first_request (Zc 2) (Zc 3) after_script
              after_script_reachable) as (Hprefix & _ & _ & Hblocks).
  split; [exact Hprefix|].
  apply (Hblocks 0%nat 1%nat). rewrite after_script_chain. reflexivity.
Defined.

Lemma status_reports_witness :
  reachable_full no_floats 8 after_script_and_request /\
  status after_script_and_request
    = (after_script_and_request, Ok (mining_info after_script_and_request)) /\
  keys (mining_info after_script_and_request)
    = ["status"; "current_block"; "difficulty"; "hash_rate"; "mining_time"]%string.
Proof.
  split; [exact after_script_and_request_reachable|].
  destruct (status_reports no_floats 8 after_script_and_request
              after_script_and_request_reachable) as (Hstatus & Hkeys & _).
  split; [exact Hstatus | exact Hkeys].
Defined.

Lemma saved_files_match_chain_witness :
  reachable_full no_floats 8 after_script_and_request /\
  files after_script_and_request !! block_file (Z.of_nat 1 + 1)
    = Some (dumps_indent no_floats 0
              (VDict (deref (heap (core after_script_and_request)) 6%nat))).
Proof.
  split; [exact after_script_and_request_reachable|].
  apply (saved_files_match_chain no_floats 8 after_script_and_request
           after_script_and_request_reachable 1%nat 6%nat); [lia|].
  rewrite after_script_and_request_chain. reflexivity.
Defined.

Lemma reward_supply_capped_witness :
  reachable_full no_floats 8 after_script_and_request /\
  exists rewards,
    Forall2 (fun block r => credited (core after_script_and_request) block = Ok r)
      (CHAIN (core after_script_and_request)) rewards /\
    (total rewards < Zc 21000000)%Qc.
Proof.
  split; [exact after_script_and_request_reachable|].
  destruct (reward_supply_capped no_floats 8 after_script_and_request
              after_script_and_request_reachable) as (rewards & Hall & _ & Hcap).
  exists rewards. split; [exact Hall | exact Hcap].
Defined.


(** The state after the script, seen through a fresh monitor and disk. *)
Definition after_script_fresh : system :=
  System (core after_script) initial_mining_info ∅.

Lemma core_with_monitor (s : system) (info : dict) (fs : gmap string string) :
  core s = core (System (core s) info fs).
Proof. reflexivity. Qed.

Lemma ledger_ignores_monitor_witness :
  Zc 2 <> 0%Qc /\ Zc 5 <> 0%Qc /\ core after_script = core after_script_fresh /\
  core (start_mining_full no_floats 8 first_request (Zc 2) (Zc 3) after_script).1
    = core (start_mining_full no_floats 8 first_request (Zc 5) (Zc 3) after_script_fresh).1 /\
  (start_mining_full no_floats 8 first_request (Zc 2) (Zc 3) after_script).2
    = (start_mining_full no_floats 8 first_request (Zc 5) (Zc 3) after_script_fresh).2.
Proof.
  assert (Zc 2 <> 0%Qc) as H2 by discriminate.
  assert (Zc 5 <> 0%Qc) as H5 by discriminate.
  assert (core after_script = core after_script_fresh) as Hcore
    by exact (core_with_monitor after_script initial_mining_info ∅).
  split; [exact H2|]. split; [exact H5|]. split; [exact Hcore|].
  destruct (ledger_ignores_monitor no_floats 8 first_request (Zc 2) (Zc 5) (Zc 3)
              after_script after_script_fresh H2 H5 Hcore) as (_ & _ & Hw & Hr & _).
  split; [exact Hw | exact Hr].
Defined.

Lemma chain_hashes_verifiable_witness :
  reachable_full no_floats 8 after_script_and_request /\
  dict_get "hash" (deref (heap (core after_script_and_request)) 6%nat)
    = Some (VStr (SHA256 (to_string no_floats
                   (VDict (take 4 (deref (heap (core after_script_and_request)) 6%nat)))))).
Proof.
  split; [exact after_script_and_request_reachable|].
  apply (chain_hashes_verifiable no_floats 8 after_script_and_request
           after_script_and_request_reachable 1%nat 6%nat); [lia|].
  rewrite after_script_and_request_chain. reflexivity.
Defined.
